(** * Ontology service over a labelled graph store

    A shallow embedding of [src/services/ontology_service.py]
    ([OntologyService]) and of the store interface it consumes, followed by
    the properties of the reasoning layer: hierarchy traversal, cycle
    detection, property inheritance, instance validation and statistics. *)

From Stdlib Require Import ZArith QArith Ascii String.
From stdpp Require Import gmap strings list fin_maps sets pretty.

Local Open Scope string_scope.
Local Open Scope list_scope.

(** ** Python values and exceptions *)

(** The values that node attribute maps ([Dict[str, Any]]) carry. *)
Inductive pyval :=
  | PyNone
  | PyBool (b : bool)
  | PyInt (z : Z)
  | PyStr (s : string).

#[global] Instance pyval_eq_dec : EqDecision pyval.
Proof. solve_decision. Defined.

(** Python truthiness, as used by [x or y]. *)
Definition py_truthy (v : pyval) : bool :=
  match v with
  | PyNone => false
  | PyBool b => b
  | PyInt z => negb (Z.eqb z 0)
  | PyStr s => negb (String.eqb s "")
  end.

Definition py_or (v w : pyval) : pyval := if py_truthy v then v else w.

(** [str(v)], as used inside f-strings. *)
Definition py_str (v : pyval) : string :=
  match v with
  | PyNone => "None"
  | PyBool true => "True"
  | PyBool false => "False"
  | PyInt z => pretty z
  | PyStr s => s
  end.

(** [d.get(k, dflt)] on an attribute map. *)
Definition py_get (d : gmap string pyval) (k : string) (dflt : pyval) : pyval :=
  default dflt (d !! k).

Inductive exn :=
  | NodeNotFoundError (msg : string)
  | ValidationError (msg : string)
  | ValueError (msg : string).

Inductive result (A : Type) :=
  | Ok (a : A)
  | Raise (e : exn).
Arguments Ok {A} a.
Arguments Raise {A} e.

Definition is_ok {A} (r : result A) : bool :=
  match r with Ok _ => true | Raise _ => false end.

(** ** The graph store *)

Module GraphDB.

(** Modelled from the spec: the generic graph store ([graph_db.GraphDB],
    reached through [GraphService]) is not part of the sources.  The spec
    describes it as a directed labelled graph with nodes keyed by a unique
    string identifier holding an opaque attribute map, and edges keyed by
    (source, target) holding a label and a numeric weight; enumeration
    order is unspecified.  Writing a key that is present replaces its
    value; the spec does not say which edge a pair keeps when it is written
    twice with different labels, and the theorems on what is read back do
    not depend on it.  The service hands a node its attribute map as [data=...] and
    takes it back from the entry ['data'] of what [get_node] returns
    ([_get_node_data]); [get_node] is modelled accordingly, as returning the
    node with its [data]. *)
Record edge_data := { edge_label : string; edge_weight : Q }.

(** What [get_node] returns for a node: a dict with the key ['data']. *)
Record node := { data : gmap string pyval }.

Record t := {
  nodes : gmap string (gmap string pyval);
  edges : gmap (string * string) edge_data
}.

Definition empty : t := {| nodes := ∅; edges := ∅ |}.

Definition node_exists (g : t) (node_id : string) : bool :=
  bool_decide (is_Some (nodes g !! node_id)).

Definition add_node (g : t) (node_id : string) (data : gmap string pyval) : t :=
  {| nodes := <[node_id := data]> (nodes g); edges := edges g |}.

Definition get_node (g : t) (node_id : string) : option node :=
  (λ attributes, {| data := attributes |}) <$> nodes g !! node_id.

Definition add_edge (g : t) (from_node to_node : string)
    (label : string) (weight : Q) : t :=
  {| nodes := nodes g;
     edges := <[(from_node, to_node) :=
                 {| edge_label := label; edge_weight := weight |}]> (edges g) |}.

Definition get_edge (g : t) (from_node to_node : string) : option edge_data :=
  edges g !! (from_node, to_node).

Definition get_all_nodes (g : t) : list string :=
  (map_to_list (nodes g)).*1.

Definition get_all_edges (g : t) : list (string * string * Q) :=
  (λ kv : string * string * edge_data, (kv.1, edge_weight kv.2))
    <$> map_to_list (edges g).

(** The weight an edge gets when [add_edge] is called without one. *)
Definition default_weight : Q := 1.

End GraphDB.

(** ** Entity model *)

(** Modelled from the spec: the enumerations and record types of
    [ontology_models] are declared outside the sources; their fields are the
    ones the service reads and writes, and the enumeration values are the
    lower-case member names (the service itself shows ['object']). *)
Inductive PropertyType := OBJECT | DATA | ANNOTATION.

#[global] Instance PropertyType_eq_dec : EqDecision PropertyType.
Proof. solve_decision. Defined.

Definition PropertyType_value (p : PropertyType) : string :=
  match p with
  | OBJECT => "object"
  | DATA => "data"
  | ANNOTATION => "annotation"
  end.

(** [PropertyType(v)]: the member with that value, or [ValueError]. *)
Definition PropertyType_of (v : pyval) : result PropertyType :=
  match v with
  | PyStr s =>
      if String.eqb s "object" then Ok OBJECT
      else if String.eqb s "data" then Ok DATA
      else if String.eqb s "annotation" then Ok ANNOTATION
      else Raise (ValueError (s ++ " is not a valid PropertyType"))
  | _ => Raise (ValueError (py_str v ++ " is not a valid PropertyType"))
  end.

Inductive PropertyCharacteristic :=
  | FUNCTIONAL | INVERSE_FUNCTIONAL | TRANSITIVE | SYMMETRIC
  | ASYMMETRIC | REFLEXIVE | IRREFLEXIVE.

Definition PropertyCharacteristic_value (c : PropertyCharacteristic) : string :=
  match c with
  | FUNCTIONAL => "functional"
  | INVERSE_FUNCTIONAL => "inverse_functional"
  | TRANSITIVE => "transitive"
  | SYMMETRIC => "symmetric"
  | ASYMMETRIC => "asymmetric"
  | REFLEXIVE => "reflexive"
  | IRREFLEXIVE => "irreflexive"
  end.

Record OntologyClass := {
  cls_id : string;
  cls_label : pyval;
  cls_description : pyval;
  cls_parent_classes : list string;
  cls_equivalent_classes : list string;
  cls_disjoint_classes : list string;
  cls_is_abstract : pyval;
  cls_properties : gmap string pyval
}.

Record OntologyProperty := {
  prop_id : string;
  prop_label : pyval;
  prop_property_type : PropertyType;
  prop_description : pyval;
  prop_domain : list string;
  prop_range : list string;
  prop_inverse_of : pyval;
  prop_characteristics : list PropertyCharacteristic;
  prop_annotations : gmap string pyval
}.

Record OntologyInstance := {
  inst_id : string;
  inst_label : pyval;
  inst_class_ids : list string;
  inst_properties : gmap string pyval
}.

(** ** The service *)

Definition CLASS_TYPE : string := "owl:Class".
Definition PROPERTY_TYPE : string := "owl:Property".
Definition INSTANCE_TYPE : string := "owl:Individual".
Definition SUBCLASS_RELATION : string := "rdfs:subClassOf".
Definition SUBPROPERTY_RELATION : string := "rdfs:subPropertyOf".
Definition TYPE_RELATION : string := "rdf:type".
Definition DOMAIN_RELATION : string := "rdfs:domain".
Definition RANGE_RELATION : string := "rdfs:range".

(** [_get_node_data]: what [get_node] returns for a node is a dict with the
    key ['data'], so the first [return] hands out the entry under it; for a
    missing node [get_node] returns [None], and [node_result or {}] is the
    empty dict. *)
Definition _get_node_data (g : GraphDB.t) (node_id : string) : gmap string pyval :=
  match GraphDB.get_node g node_id with
  | Some node_result => GraphDB.data node_result
  | None => ∅
  end.

(** [_initialize_ontology]: the root class is created when it is missing. *)
Definition _initialize_ontology (g : GraphDB.t) : GraphDB.t :=
  if GraphDB.node_exists g "owl:Thing" then g
  else GraphDB.add_node g "owl:Thing"
         (<["label" := PyStr "Thing"]>
          (<["node_type" := PyStr CLASS_TYPE]>
           (<["description" := PyStr "Root of all classes"]> ∅))).

(** [OntologyService()] on a new store. *)
Definition init : GraphDB.t := _initialize_ontology GraphDB.empty.

(** *** Class operations *)

(** [d.update(extra)]: the keys of [extra] win. *)
Definition dict_update (d extra : gmap string pyval) : gmap string pyval :=
  extra ∪ d.

(** Edges to the listed targets that exist, as the equivalent and disjoint
    loops of [create_class] and the domain and range loops of
    [create_property] add them. *)
Definition add_edges_if_exist (from_node label : string)
    (g : GraphDB.t) (targets : list string) : GraphDB.t :=
  foldl (λ g to_node,
           if GraphDB.node_exists g to_node
           then GraphDB.add_edge g from_node to_node label GraphDB.default_weight
           else g) g targets.

Definition create_class (g : GraphDB.t) (class_obj : OntologyClass)
    : result (GraphDB.t * OntologyClass) :=
  if GraphDB.node_exists g (cls_id class_obj) then
    Raise (ValidationError ("Class '" ++ cls_id class_obj ++ "' already exists"))
  else
    match List.find (λ parent_id, negb (GraphDB.node_exists g parent_id))
                    (cls_parent_classes class_obj) with
    | Some parent_id =>
        Raise (NodeNotFoundError ("Parent class '" ++ parent_id ++ "' not found"))
    | None =>
        let node_data :=
          dict_update
            (<["label" := cls_label class_obj]>
             (<["node_type" := PyStr CLASS_TYPE]>
              (<["description" := py_or (cls_description class_obj) (PyStr "")]>
               (<["is_abstract" := cls_is_abstract class_obj]> ∅))))
            (cls_properties class_obj) in
        let g1 := GraphDB.add_node g (cls_id class_obj) node_data in
        let parent_classes :=
          match cls_parent_classes class_obj with
          | [] => ["owl:Thing"]
          | ps => ps
          end in
        let g2 :=
          foldl (λ g parent_id,
                   GraphDB.add_edge g (cls_id class_obj) parent_id
                                    SUBCLASS_RELATION 1)
                g1 parent_classes in
        let g3 := add_edges_if_exist (cls_id class_obj) "owl:equivalentClass"
                    g2 (cls_equivalent_classes class_obj) in
        let g4 := add_edges_if_exist (cls_id class_obj) "owl:disjointWith"
                    g3 (cls_disjoint_classes class_obj) in
        Ok (g4,
            {| cls_id := cls_id class_obj;
               cls_label := cls_label class_obj;
               cls_description := cls_description class_obj;
               cls_parent_classes := parent_classes;
               cls_equivalent_classes := cls_equivalent_classes class_obj;
               cls_disjoint_classes := cls_disjoint_classes class_obj;
               cls_is_abstract := cls_is_abstract class_obj;
               cls_properties := cls_properties class_obj |})
    end.

(** The targets of the edges leaving [node_id] whose label is [label]: the
    scan over [get_all_edges] that [get_class], [get_property] and
    [get_instance] share. *)
Definition select_target (g : GraphDB.t) (node_id label : string)
    (e : string * string * Q) : option string :=
  let '(from_node, to_node, _) := e in
  match GraphDB.get_edge g from_node to_node with
  | Some edge_data =>
      if bool_decide (from_node = node_id)
         && bool_decide (GraphDB.edge_label edge_data = label)
      then Some to_node else None
  | None => None
  end.

Definition edge_targets (g : GraphDB.t) (node_id label : string) : list string :=
  omap (select_target g node_id label) (GraphDB.get_all_edges g).

Definition get_class (g : GraphDB.t) (class_id : string) : result OntologyClass :=
  if negb (GraphDB.node_exists g class_id) then
    Raise (NodeNotFoundError ("Class '" ++ class_id ++ "' not found"))
  else
    let node_data := _get_node_data g class_id in
    if bool_decide (node_data !! "node_type" ≠ Some (PyStr CLASS_TYPE)) then
      Raise (ValidationError ("Node '" ++ class_id ++ "' is not a class"))
    else
      Ok {| cls_id := class_id;
            cls_label := py_get node_data "label" (PyStr class_id);
            cls_description := py_get node_data "description" PyNone;
            cls_parent_classes := edge_targets g class_id SUBCLASS_RELATION;
            cls_equivalent_classes := [];
            cls_disjoint_classes := [];
            cls_is_abstract := py_get node_data "is_abstract" (PyBool false);
            cls_properties := ∅ |}.

Definition get_all_classes (g : GraphDB.t) : list OntologyClass :=
  omap (λ node_id,
          let node_data := _get_node_data g node_id in
          if bool_decide (node_data ≠ ∅)
             && bool_decide (node_data !! "node_type" = Some (PyStr CLASS_TYPE))
          then match get_class g node_id with
               | Ok c => Some c
               | Raise _ => None
               end
          else None)
       (GraphDB.get_all_nodes g).

(** [get_superclasses].  The recursion follows [rdfs:subClassOf] edges and
    has no guard of its own, so the embedding is bounded by [fuel]; [None]
    means that the bound was reached.  A target whose [get_class] raises is
    skipped, as the [try]/[except Exception: continue] does. *)
Definition superclasses_loop (g : GraphDB.t) (class_id : string)
    (direct_only : bool) (rec : string → option (list OntologyClass))
    : list (string * string * Q) → option (list OntologyClass) :=
  fix go edges :=
    match edges with
    | [] => Some []
    | (from_node, to_node, _) :: edges' =>
        if bool_decide (from_node = class_id) then
          match GraphDB.get_edge g from_node to_node with
          | Some edge_data =>
              if bool_decide (GraphDB.edge_label edge_data = SUBCLASS_RELATION) then
                match get_class g to_node with
                | Ok c =>
                    if direct_only then (c ::.) <$> go edges'
                    else
                      match rec to_node with
                      | Some indirect => (λ r, c :: indirect ++ r) <$> go edges'
                      | None => None
                      end
                | Raise _ => go edges'
                end
              else go edges'
          | None => go edges'
          end
        else go edges'
    end.

Fixpoint get_superclasses (fuel : nat) (g : GraphDB.t) (class_id : string)
    (direct_only : bool) : option (list OntologyClass) :=
  match fuel with
  | 0 => None
  | S fuel' =>
      superclasses_loop g class_id direct_only
        (λ to_node, get_superclasses fuel' g to_node false)
        (GraphDB.get_all_edges g)
  end.

(** *** Property operations *)

Definition join_comma (l : list string) : string := String.concat "," l.

Definition create_property (g : GraphDB.t) (prop_obj : OntologyProperty)
    : result (GraphDB.t * OntologyProperty) :=
  if GraphDB.node_exists g (prop_id prop_obj) then
    Raise (ValidationError ("Property '" ++ prop_id prop_obj ++ "' already exists"))
  else
    let g1 :=
      GraphDB.add_node g (prop_id prop_obj)
        (<["label" := prop_label prop_obj]>
         (<["node_type" := PyStr PROPERTY_TYPE]>
          (<["property_type" := PyStr (PropertyType_value (prop_property_type prop_obj))]>
           (<["description" := py_or (prop_description prop_obj) (PyStr "")]>
            (<["inverse_of" := py_or (prop_inverse_of prop_obj) (PyStr "")]>
             (<["characteristics" :=
                  PyStr (join_comma (PropertyCharacteristic_value
                                       <$> prop_characteristics prop_obj))]> ∅)))))) in
    let g2 := add_edges_if_exist (prop_id prop_obj) DOMAIN_RELATION
                g1 (prop_domain prop_obj) in
    let g3 := add_edges_if_exist (prop_id prop_obj) RANGE_RELATION
                g2 (prop_range prop_obj) in
    Ok (g3, prop_obj).

(** [s.split(',')]. *)
Fixpoint split_comma_aux (s acc : string) : list string :=
  match s with
  | EmptyString => [String.rev acc]
  | String c s' =>
      if Ascii.eqb c ","%char then String.rev acc :: split_comma_aux s' ""
      else split_comma_aux s' (String c acc)
  end.

Definition split_comma (s : string) : list string := split_comma_aux s "".

#[global] Instance PropertyCharacteristic_eq_dec : EqDecision PropertyCharacteristic.
Proof. solve_decision. Defined.

(** [PropertyCharacteristic(c)]; [None] stands for the [ValueError] that the
    caller passes over. *)
Definition PropertyCharacteristic_of (s : string) : option PropertyCharacteristic :=
  List.find (λ c, String.eqb (PropertyCharacteristic_value c) s)
    [FUNCTIONAL; INVERSE_FUNCTIONAL; TRANSITIVE; SYMMETRIC;
     ASYMMETRIC; REFLEXIVE; IRREFLEXIVE].

Definition get_property (g : GraphDB.t) (property_id : string)
    : result OntologyProperty :=
  if negb (GraphDB.node_exists g property_id) then
    Raise (NodeNotFoundError ("Property '" ++ property_id ++ "' not found"))
  else
    let node_data := _get_node_data g property_id in
    if bool_decide (node_data !! "node_type" ≠ Some (PyStr PROPERTY_TYPE)) then
      Raise (ValidationError ("Node '" ++ property_id ++ "' is not a property"))
    else
      let domain := edge_targets g property_id DOMAIN_RELATION in
      let range_list := edge_targets g property_id RANGE_RELATION in
      let char_str := py_get node_data "characteristics" (PyStr "") in
      let characteristics :=
        match char_str with
        | PyStr s =>
            if String.eqb s "" then []
            else remove_dups (omap PropertyCharacteristic_of (split_comma s))
        | _ => []
        end in
      match PropertyType_of (py_get node_data "property_type" (PyStr "object")) with
      | Raise e => Raise e
      | Ok property_type =>
          Ok {| prop_id := property_id;
                prop_label := py_get node_data "label" (PyStr property_id);
                prop_property_type := property_type;
                prop_description := py_get node_data "description" PyNone;
                prop_domain := domain;
                prop_range := range_list;
                prop_inverse_of := py_or (py_get node_data "inverse_of" PyNone) PyNone;
                prop_characteristics := characteristics;
                prop_annotations := ∅ |}
      end.

Definition get_all_properties (g : GraphDB.t) : list OntologyProperty :=
  omap (λ node_id,
          let node_data := _get_node_data g node_id in
          if bool_decide (node_data ≠ ∅)
             && bool_decide (node_data !! "node_type" = Some (PyStr PROPERTY_TYPE))
          then match get_property g node_id with
               | Ok p => Some p
               | Raise _ => None
               end
          else None)
       (GraphDB.get_all_nodes g).

(** *** Instance operations *)

Definition create_instance (g : GraphDB.t) (instance_obj : OntologyInstance)
    : result (GraphDB.t * OntologyInstance) :=
  if GraphDB.node_exists g (inst_id instance_obj) then
    Raise (ValidationError ("Instance '" ++ inst_id instance_obj ++ "' already exists"))
  else
    match List.find (λ class_id, negb (GraphDB.node_exists g class_id))
                    (inst_class_ids instance_obj) with
    | Some class_id =>
        Raise (NodeNotFoundError ("Class '" ++ class_id ++ "' not found"))
    | None =>
        let node_data :=
          dict_update
            (<["label" := inst_label instance_obj]>
             (<["node_type" := PyStr INSTANCE_TYPE]> ∅))
            (inst_properties instance_obj) in
        let g1 := GraphDB.add_node g (inst_id instance_obj) node_data in
        let g2 :=
          foldl (λ g class_id,
                   GraphDB.add_edge g (inst_id instance_obj) class_id
                                    TYPE_RELATION GraphDB.default_weight)
                g1 (inst_class_ids instance_obj) in
        Ok (g2, instance_obj)
    end.

(** *** Reasoning operations *)

(** [ReasoningResult] without its wall-clock field [reasoning_time]. *)
Record ReasoningResult := {
  consistent : bool;
  errors : list string;
  warnings : list string
}.

(** The probe [has_cycle] local to [check_consistency].  Every branch gets
    its own copy of [visited], so the set is the path from the probed class
    to [class_id].  [fuel] bounds the depth; [None] means it ran out. *)
Definition any_parent (rec : string → option bool)
    : list OntologyClass → option bool :=
  fix go superclasses :=
    match superclasses with
    | [] => Some false
    | parent :: rest =>
        match rec (cls_id parent) with
        | Some true => Some true
        | Some false => go rest
        | None => None
        end
    end.

Fixpoint has_cycle (fuel : nat) (g : GraphDB.t) (class_id : string)
    (visited : gset string) : option bool :=
  match fuel with
  | 0 => None
  | S fuel' =>
      if bool_decide (class_id ∈ visited) then Some true
      else
        let visited := {[class_id]} ∪ visited in
        match get_superclasses 1 g class_id true with
        | Some superclasses =>
            any_parent (λ parent_id, has_cycle fuel' g parent_id visited) superclasses
        | None => None
        end
  end.

(** A path of the probe holds distinct nodes of the store, so one more
    level than there are nodes is enough for it. *)
Definition depth_bound (g : GraphDB.t) : nat := S (size (GraphDB.nodes g)).

Definition check_consistency_loop (g : GraphDB.t)
    : list OntologyClass → ReasoningResult → option ReasoningResult :=
  fix go classes result :=
    match classes with
    | [] => Some result
    | class_obj :: rest =>
        match has_cycle (depth_bound g) g (cls_id class_obj) ∅ with
        | Some true =>
            go rest
               {| consistent := false;
                  errors := errors result ++
                    [("Circular inheritance detected involving '"
                        ++ cls_id class_obj ++ "'")%string];
                  warnings := warnings result |}
        | Some false => go rest result
        | None => None
        end
    end.

Definition check_consistency (g : GraphDB.t) : option ReasoningResult :=
  check_consistency_loop g (get_all_classes g)
    {| consistent := true; errors := []; warnings := [] |}.

(** *** Property inheritance *)

(** The dictionaries that [get_class_properties] builds; the key
    ['inheritance_path'] is absent ([None]) until an ancestor adds it. *)
Record prop_entry := {
  pe_id : string;
  pe_label : pyval;
  pe_property_type : string;
  pe_description : pyval;
  pe_range : list string;
  pe_required : bool;
  pe_source : pyval;
  pe_inheritance_path : option (list pyval)
}.

Definition direct_entry (prop : OntologyProperty) : prop_entry :=
  {| pe_id := prop_id prop;
     pe_label := prop_label prop;
     pe_property_type := PropertyType_value (prop_property_type prop);
     pe_description := prop_description prop;
     pe_range := prop_range prop;
     pe_required := false;
     pe_source := PyStr "direct";
     pe_inheritance_path := None |}.

Definition get_class_properties (g : GraphDB.t) (class_id : string)
    : list prop_entry :=
  direct_entry <$>
    List.filter (λ prop, bool_decide (class_id ∈ prop_domain prop))
                (get_all_properties g).

(** [prop_copy] of a parent's direct property. *)
Definition from_parent (parent_label : pyval) (prop : prop_entry) : prop_entry :=
  {| pe_id := pe_id prop;
     pe_label := pe_label prop;
     pe_property_type := pe_property_type prop;
     pe_description := pe_description prop;
     pe_range := pe_range prop;
     pe_required := pe_required prop;
     pe_source := parent_label;
     pe_inheritance_path := Some [parent_label] |}.

(** [prop_copy] of a property the parent inherited itself. *)
Definition from_grandparent (parent_label : pyval) (prop : prop_entry) : prop_entry :=
  {| pe_id := pe_id prop;
     pe_label := pe_label prop;
     pe_property_type := pe_property_type prop;
     pe_description := pe_description prop;
     pe_range := pe_range prop;
     pe_required := pe_required prop;
     pe_source := pe_source prop;
     pe_inheritance_path :=
       Some (parent_label :: default [] (pe_inheritance_path prop)) |}.

(** The loop over [class_obj.parent_classes].  [visited] is the one set
    object that every recursive call receives and extends, so it is threaded
    through the loop.  [NodeNotFoundError] is caught per parent, any other
    exception leaves the function. *)
Definition inherit_loop (g : GraphDB.t)
    (rec : string → gset string → option (result (list prop_entry) * gset string))
    : list string → list prop_entry → gset string
      → option (result (list prop_entry) * gset string) :=
  fix go parents inherited visited :=
    match parents with
    | [] => Some (Ok inherited, visited)
    | parent_id :: rest =>
        if bool_decide (parent_id = "owl:Thing") then go rest inherited visited
        else
          match get_class g parent_id with
          | Raise (NodeNotFoundError _) => go rest inherited visited
          | Raise e => Some (Raise e, visited)
          | Ok parent_class =>
              let inherited :=
                inherited ++ (from_parent (cls_label parent_class)
                                <$> get_class_properties g parent_id) in
              match rec parent_id visited with
              | None => None
              | Some (Raise (NodeNotFoundError _), visited) =>
                  go rest inherited visited
              | Some (Raise e, visited) => Some (Raise e, visited)
              | Some (Ok grandparent_props, visited) =>
                  go rest
                     (inherited ++ (from_grandparent (cls_label parent_class)
                                      <$> grandparent_props))
                     visited
              end
          end
    end.

(** [compute_inherited_properties]; the result is paired with the final
    contents of the shared set.  [fuel] bounds the depth, [None] means it
    ran out. *)
Fixpoint compute_inherited_properties (fuel : nat) (g : GraphDB.t)
    (class_id : string) (visited : gset string)
    : option (result (list prop_entry) * gset string) :=
  match fuel with
  | 0 => None
  | S fuel' =>
      if bool_decide (class_id ∈ visited) then Some (Ok [], visited)
      else
        let visited := {[class_id]} ∪ visited in
        match get_class g class_id with
        | Raise (NodeNotFoundError _) => Some (Ok [], visited)
        | Raise e => Some (Raise e, visited)
        | Ok class_obj =>
            inherit_loop g (compute_inherited_properties fuel' g)
              (cls_parent_classes class_obj) [] visited
        end
  end.

Record class_full := {
  cf_id : string;
  cf_label : pyval;
  cf_description : pyval;
  cf_parent_classes : list string;
  cf_is_abstract : pyval;
  cf_direct_properties : list prop_entry;
  cf_inherited_properties : list prop_entry;
  cf_all_properties : list prop_entry
}.

(** [get_class_full]; [compute_inherited_properties] is called without
    [visited], that is with a new empty set. *)
Definition get_class_full (g : GraphDB.t) (class_id : string)
    : option (result class_full) :=
  match get_class g class_id with
  | Raise e => Some (Raise e)
  | Ok class_obj =>
      let direct_properties := get_class_properties g class_id in
      match compute_inherited_properties (depth_bound g) g class_id ∅ with
      | None => None
      | Some (Raise e, _) => Some (Raise e)
      | Some (Ok inherited_properties, _) =>
          Some (Ok {| cf_id := cls_id class_obj;
                      cf_label := cls_label class_obj;
                      cf_description := cls_description class_obj;
                      cf_parent_classes := cls_parent_classes class_obj;
                      cf_is_abstract := cls_is_abstract class_obj;
                      cf_direct_properties := direct_properties;
                      cf_inherited_properties := inherited_properties;
                      cf_all_properties :=
                        direct_properties ++ inherited_properties |})
      end
  end.

(** The body of the loop over [all_props] in [validate_instance_properties]:
    the error of one property, if it has one. *)
Definition missing_required (properties : gmap string pyval) (prop : prop_entry)
    : option string :=
  if pe_required prop then
    let prop_name := pe_id prop in
    if bool_decide (properties !! prop_name = None)
       || bool_decide (properties !! prop_name = Some PyNone)
    then
      let source_info :=
        if bool_decide (pe_source prop ≠ PyStr "direct")
        then (" (inherited from " ++ py_str (pe_source prop) ++ ")")%string
        else "" in
      Some ("Missing required property '" ++ py_str (pe_label prop) ++ "'"
              ++ source_info)%string
    else None
  else None.

Definition check_required (all_props : list prop_entry)
    (properties : gmap string pyval) : list string :=
  omap (missing_required properties) all_props.

Definition validate_instance_properties (g : GraphDB.t) (class_id : string)
    (properties : gmap string pyval) : option (result (list string)) :=
  match get_class_full g class_id with
  | None => None
  | Some (Raise e) => Some (Raise e)
  | Some (Ok cf) => Some (Ok (check_required (cf_all_properties cf) properties))
  end.

(** *** Statistics *)

Record OntologyStats := {
  total_classes : nat;
  total_properties : nat;
  total_instances : nat;
  total_object_properties : nat;
  total_data_properties : nat;
  total_annotation_properties : nat;
  max_hierarchy_depth : nat
}.

Definition depths_of (rec : string → option nat)
    : list OntologyClass → option (list nat) :=
  fix go superclasses :=
    match superclasses with
    | [] => Some []
    | sc :: rest =>
        match rec (cls_id sc) with
        | Some d => (d ::.) <$> go rest
        | None => None
        end
    end.

(** [get_depth], local to [get_statistics]: unguarded recursion along the
    direct superclasses, bounded here by [fuel]. *)
Fixpoint get_depth (fuel : nat) (g : GraphDB.t) (class_id : string) : option nat :=
  match fuel with
  | 0 => None
  | S fuel' =>
      match get_superclasses 1 g class_id true with
      | None => None
      | Some [] => Some 0
      | Some superclasses =>
          (λ ds, 1 + max_list ds) <$> depths_of (get_depth fuel' g) superclasses
      end
  end.

Definition max_depth_loop (g : GraphDB.t)
    : list OntologyClass → nat → option nat :=
  fix go classes max_depth :=
    match classes with
    | [] => Some max_depth
    | class_obj :: rest =>
        match get_depth (depth_bound g) g (cls_id class_obj) with
        | Some depth => go rest (max_depth `max` depth)
        | None => None
        end
    end.

Definition count_type (ty : PropertyType) (ps : list OntologyProperty) : nat :=
  length (List.filter (λ p, bool_decide (prop_property_type p = ty)) ps).

Definition get_statistics (g : GraphDB.t) : option OntologyStats :=
  let all_classes := get_all_classes g in
  let all_properties := get_all_properties g in
  let total_instances :=
    length (List.filter
              (λ node_id,
                 let node_data := _get_node_data g node_id in
                 bool_decide (node_data ≠ ∅)
                 && bool_decide (node_data !! "node_type" = Some (PyStr INSTANCE_TYPE)))
              (GraphDB.get_all_nodes g)) in
  match max_depth_loop g all_classes 0 with
  | None => None
  | Some max_depth =>
      Some {| total_classes := length all_classes;
              total_properties := length all_properties;
              total_instances := total_instances;
              total_object_properties := count_type OBJECT all_properties;
              total_data_properties := count_type DATA all_properties;
              total_annotation_properties := count_type ANNOTATION all_properties;
              max_hierarchy_depth := max_depth |}
  end.

(** ** Vocabulary of the statements *)

Definition is_class (g : GraphDB.t) (class_id : string) : Prop :=
  is_ok (get_class g class_id) = true.

(** [x] has an [rdfs:subClassOf] edge to [y]. *)
Definition subclass_edge (g : GraphDB.t) (x y : string) : Prop :=
  ∃ ed, GraphDB.edges g !! (x, y) = Some ed
        ∧ GraphDB.edge_label ed = SUBCLASS_RELATION.

(** [y] is a direct superclass of [x]: the edge leads to a class. *)
Definition direct_super (g : GraphDB.t) (x y : string) : Prop :=
  subclass_edge g x y ∧ is_class g y.

(** [y] is an ancestor of [x]: reachable in one or more steps. *)
Definition ancestor (g : GraphDB.t) : string → string → Prop :=
  tc (direct_super g).

Definition acyclic (g : GraphDB.t) : Prop := ∀ x, ¬ ancestor g x x.

(** [y] is reached from [x] by [rdfs:subClassOf] edges, through nodes of
    any kind. *)
Definition reachable (g : GraphDB.t) : string → string → Prop :=
  tc (subclass_edge g).

(** [l] lists the classes met when walking up from [c], nearest first. *)
Fixpoint chain (g : GraphDB.t) (c : string) (l : list string) : Prop :=
  match l with
  | [] => True
  | x :: l' => direct_super g c x ∧ chain g x l'
  end.

(** The classes that [get_superclasses] finds one step up. *)
Definition class_of_target (g : GraphDB.t) (to_node : string) : option OntologyClass :=
  match get_class g to_node with
  | Ok c => Some c
  | Raise _ => None
  end.

Definition direct_supers (g : GraphDB.t) (class_id : string) : list OntologyClass :=
  omap (class_of_target g) (edge_targets g class_id SUBCLASS_RELATION).

(** The accumulation of [get_superclasses] over the direct superclasses. *)
Definition collect (rec : string → option (list OntologyClass))
    : list OntologyClass → option (list OntologyClass) :=
  fix go l :=
    match l with
    | [] => Some []
    | c :: rest =>
        match rec (cls_id c) with
        | Some indirect => (λ r, c :: indirect ++ r) <$> go rest
        | None => None
        end
    end.

(** The recorded depth of a class in [get_statistics]. *)
Definition depth (g : GraphDB.t) (class_id : string) : nat :=
  default 0 (get_depth (depth_bound g) g class_id).

Definition cycle_error (class_id : string) : string :=
  "Circular inheritance detected involving '" ++ class_id ++ "'".

(** The classes for which the probe of [check_consistency] answers yes. *)
Definition cyclic (g : GraphDB.t) (c : OntologyClass) : bool :=
  bool_decide (has_cycle (depth_bound g) g (cls_id c) ∅ = Some true).

(** A ranking that every [rdfs:subClassOf] edge of the store decreases. *)
Definition ranked (rank : string → nat) (g : GraphDB.t) : bool :=
  forallb (λ kv : string * string * GraphDB.edge_data,
             negb (bool_decide (GraphDB.edge_label kv.2 = SUBCLASS_RELATION))
             || bool_decide (rank kv.1.2 < rank kv.1.1)%nat)
          (map_to_list (GraphDB.edges g)).

Definition rank_of (l : list (string * nat)) (s : string) : nat :=
  default 0 (snd <$> List.find (λ kv, String.eqb kv.1 s) l).

(** What the recursive calls of [inherit_loop] must satisfy for the loop to
    return: they return on classes, and only add to the visited set. *)
Definition rec_total (g : GraphDB.t) (v0 : gset string)
    (rec : string → gset string → option (result (list prop_entry) * gset string))
    : Prop :=
  ∀ p v, is_class g p → v0 ⊆ v → ∃ r v', rec p v = Some (r, v') ∧ v ⊆ v'.

(** Nothing enters the shared set but the class itself and its
    ancestors. *)
Definition rec_bounded (g : GraphDB.t)
    (rec : string → gset string → option (result (list prop_entry) * gset string))
    : Prop :=
  ∀ p v r v', rec p v = Some (r, v') →
    ∀ x, x ∈ v' → x ∈ v ∨ x = p ∨ ancestor g p x.

(** Every [rdfs:subClassOf] edge that leads to a node leads to a class, so
    that walking the parents raises no [ValidationError]. *)
Definition hierarchy_typed (g : GraphDB.t) : Prop :=
  ∀ x y, subclass_edge g x y → y ∈ dom (GraphDB.nodes g) → is_class g y.

(** The message of [validate_instance_properties] for one property. *)
Definition missing_error (prop : prop_entry) : string :=
  "Missing required property '" ++ py_str (pe_label prop) ++ "'"
    ++ (if bool_decide (pe_source prop ≠ PyStr "direct")
        then " (inherited from " ++ py_str (pe_source prop) ++ ")"
        else "").

(** A recursive call on the unvisited class [c] lists [e], unless it
    raises. *)
Definition yields
    (rec : string → gset string → option (result (list prop_entry) * gset string))
    (c : string) (e : prop_entry) : Prop :=
  ∀ w r w', c ∉ w → rec c w = Some (r, w') →
    match r with
    | Ok rl => ∃ r1 r2, rl = r1 ++ e :: r2
    | Raise (NodeNotFoundError _) => False
    | Raise _ => True
    end.

(** The boolean form of [hierarchy_typed]. *)
Definition typed_check (g : GraphDB.t) : bool :=
  forallb (λ kv : string * string * GraphDB.edge_data,
             negb (bool_decide (GraphDB.edge_label kv.2 = SUBCLASS_RELATION))
             || negb (GraphDB.node_exists g kv.1.2)
             || is_ok (get_class g kv.1.2))
          (map_to_list (GraphDB.edges g)).

(** The view of an inherited entry that the statements speak about:
    property, source and inheritance path. *)
Definition entry_view (e : prop_entry) : string * pyval * option (list pyval) :=
  (pe_id e, pe_source e, pe_inheritance_path e).

(** [compute_inherited_properties(class_id)] as [get_class_full] calls it,
    reduced to the views of its entries. *)
Definition inherited_views (g : GraphDB.t) (class_id : string)
    : option (list (string * pyval * option (list pyval))) :=
  match compute_inherited_properties (depth_bound g) g class_id ∅ with
  | Some (Ok l, _) => Some (entry_view <$> l)
  | _ => None
  end.

(** No edge of the store dangles: its ends are nodes. *)
Definition edges_closed (g : GraphDB.t) : Prop :=
  ∀ x y, is_Some (GraphDB.edges g !! (x, y)) →
         x ∈ dom (GraphDB.nodes g) ∧ y ∈ dom (GraphDB.nodes g).

(** The parents [create_class] writes: the root stands in for none. *)
Definition effective_parents (class_obj : OntologyClass) : list string :=
  match cls_parent_classes class_obj with
  | [] => ["owl:Thing"]
  | ps => ps
  end.

(** The attribute maps that the constructors write. *)
Definition class_node_data (class_obj : OntologyClass) : gmap string pyval :=
  dict_update
    (<["label" := cls_label class_obj]>
     (<["node_type" := PyStr CLASS_TYPE]>
      (<["description" := py_or (cls_description class_obj) (PyStr "")]>
       (<["is_abstract" := cls_is_abstract class_obj]> ∅))))
    (cls_properties class_obj).

Definition property_node_data (prop_obj : OntologyProperty) : gmap string pyval :=
  <["label" := prop_label prop_obj]>
  (<["node_type" := PyStr PROPERTY_TYPE]>
   (<["property_type" := PyStr (PropertyType_value (prop_property_type prop_obj))]>
    (<["description" := py_or (prop_description prop_obj) (PyStr "")]>
     (<["inverse_of" := py_or (prop_inverse_of prop_obj) (PyStr "")]>
      (<["characteristics" :=
           PyStr (join_comma (PropertyCharacteristic_value
                                <$> prop_characteristics prop_obj))]> ∅))))).

Definition instance_node_data (instance_obj : OntologyInstance) : gmap string pyval :=
  dict_update
    (<["label" := inst_label instance_obj]>
     (<["node_type" := PyStr INSTANCE_TYPE]> ∅))
    (inst_properties instance_obj).

Definition edge (label : string) (weight : Q) : GraphDB.edge_data :=
  {| GraphDB.edge_label := label; GraphDB.edge_weight := weight |}.

(** [create_class] followed by [get_class] on the new id. *)
Definition class_round_trip (g : GraphDB.t) (class_obj : OntologyClass)
    : result OntologyClass :=
  match create_class g class_obj with
  | Ok (g', _) => get_class g' (cls_id class_obj)
  | Raise e => Raise e
  end.

(** [create_property] followed by [get_property] on the new id. *)
Definition property_round_trip (g : GraphDB.t) (prop_obj : OntologyProperty)
    : result OntologyProperty :=
  match create_property g prop_obj with
  | Ok (g', _) => get_property g' (prop_id prop_obj)
  | Raise e => Raise e
  end.

(** The boolean form of [edges_closed]. *)
Definition closed_check (g : GraphDB.t) : bool :=
  forallb (λ kv : string * string * GraphDB.edge_data,
             GraphDB.node_exists g kv.1.1 && GraphDB.node_exists g kv.1.2)
          (map_to_list (GraphDB.edges g)).

(** What a node counts as in [get_statistics], read off its attributes. *)
Definition is_class_data (d : gmap string pyval) : bool :=
  bool_decide (d !! "node_type" = Some (PyStr CLASS_TYPE)).

Definition is_instance_data (d : gmap string pyval) : bool :=
  bool_decide (d !! "node_type" = Some (PyStr INSTANCE_TYPE)).

Definition property_type_of_data (d : gmap string pyval) : option PropertyType :=
  if bool_decide (d !! "node_type" = Some (PyStr PROPERTY_TYPE)) then
    match PropertyType_of (py_get d "property_type" (PyStr "object")) with
    | Ok ty => Some ty
    | Raise _ => None
    end
  else None.

Definition count_if {A} (h : A → bool) (l : list A) : nat :=
  length (List.filter h l).

(** *** Requests to the service *)

Inductive request :=
  | CreateClass (class_obj : OntologyClass)
  | CreateProperty (prop_obj : OntologyProperty)
  | CreateInstance (instance_obj : OntologyInstance).

(** A request that raises leaves the store as it was: each constructor
    checks before it writes. *)
Definition apply_request (g : GraphDB.t) (r : request) : GraphDB.t :=
  match r with
  | CreateClass c =>
      match create_class g c with Ok (g', _) => g' | Raise _ => g end
  | CreateProperty p =>
      match create_property g p with Ok (g', _) => g' | Raise _ => g end
  | CreateInstance i =>
      match create_instance g i with Ok (g', _) => g' | Raise _ => g end
  end.

Definition accepted (g : GraphDB.t) (r : request) : bool :=
  match r with
  | CreateClass c => is_ok (create_class g c)
  | CreateProperty p => is_ok (create_property g p)
  | CreateInstance i => is_ok (create_instance g i)
  end.

Definition run (g : GraphDB.t) (rs : list request) : GraphDB.t :=
  foldl apply_request g rs.

(** The requests of [rs] that the service accepts, run in order from
    [g]. *)
Fixpoint accepted_requests (g : GraphDB.t) (rs : list request) : list request :=
  match rs with
  | [] => []
  | r :: rs' =>
      (if accepted g r then [r] else [])
        ++ accepted_requests (apply_request g r) rs'
  end.

Definition creates_class (r : request) : bool :=
  match r with CreateClass _ => true | _ => false end.

Definition creates_property (r : request) : bool :=
  match r with CreateProperty _ => true | _ => false end.

Definition creates_property_of (ty : PropertyType) (r : request) : bool :=
  match r with
  | CreateProperty p => bool_decide (prop_property_type p = ty)
  | _ => false
  end.

Definition creates_instance (r : request) : bool :=
  match r with CreateInstance _ => true | _ => false end.

(** The free-form attributes of the request leave alone the key
    [node_type], by which the service tells the kinds of node apart, and
    the key [data], under which [_get_node_data] looks for the attribute
    map in what the store hands out. *)
Definition reserved_free (r : request) : Prop :=
  match r with
  | CreateClass c =>
      cls_properties c !! "node_type" = None ∧ cls_properties c !! "data" = None
  | CreateProperty _ => True
  | CreateInstance i =>
      inst_properties i !! "node_type" = None ∧ inst_properties i !! "data" = None
  end.

(** What [run] keeps true of the store: the root exists, no edge dangles,
    and some ranking decreases along every [rdfs:subClassOf] edge. *)
Definition service_store (g : GraphDB.t) : Prop :=
  "owl:Thing" ∈ dom (GraphDB.nodes g)
  ∧ edges_closed g
  ∧ ∃ rank : string → nat, ∀ x y, subclass_edge g x y → (rank y < rank x)%nat.

(** *** Sample ontologies *)

Module Samples.

Definition class (class_id : string) (parents : list string) : OntologyClass :=
  {| cls_id := class_id;
     cls_label := PyStr class_id;
     cls_description := PyNone;
     cls_parent_classes := parents;
     cls_equivalent_classes := [];
     cls_disjoint_classes := [];
     cls_is_abstract := PyBool false;
     cls_properties := ∅ |}.

Definition property (property_id : string) (ty : PropertyType)
    (domain range : list string) : OntologyProperty :=
  {| prop_id := property_id;
     prop_label := PyStr property_id;
     prop_property_type := ty;
     prop_description := PyNone;
     prop_domain := domain;
     prop_range := range;
     prop_inverse_of := PyNone;
     prop_characteristics := [];
     prop_annotations := {[ "required" := PyStr "true" ]} |}.

(** One class, created without parents. *)
Definition one_class : GraphDB.t :=
  run init [CreateClass (class "A" [])].

(** [Dog] under [Animal], which declares [name]. *)
Definition animals : GraphDB.t :=
  run init [CreateClass (class "Animal" []);
            CreateClass (class "Dog" ["Animal"]);
            CreateProperty (property "name" DATA ["Animal"] ["xsd:string"])].

(** [A] and [B], each a subclass of the other; the second edge is written
    to the store directly, as the service has no update operation. *)
Definition two_cycle : GraphDB.t :=
  GraphDB.add_edge
    (run init [CreateClass (class "A" []); CreateClass (class "B" ["A"])])
    "A" "B" SUBCLASS_RELATION 1.

(** [D] under [B] and [C], both under [A], which is under [R]; [P] is
    declared on [R] and [Q] on [A]. *)
Definition diamond : GraphDB.t :=
  run init [CreateClass (class "R" []);
            CreateClass (class "A" ["R"]);
            CreateClass (class "B" ["A"]);
            CreateClass (class "C" ["A"]);
            CreateClass (class "D" ["B"; "C"]);
            CreateProperty (property "P" DATA ["R"] []);
            CreateProperty (property "Q" DATA ["A"] [])].

(** [D] under [C] under the root, with [P] declared on the root. *)
Definition under_root : GraphDB.t :=
  run init [CreateClass (class "C" []);
            CreateClass (class "D" ["C"]);
            CreateProperty (property "P" DATA ["owl:Thing"] [])].

(** [D] under [C] under [B], with [P] declared on [B]. *)
Definition line : GraphDB.t :=
  run init [CreateClass (class "B" []);
            CreateClass (class "C" ["B"]);
            CreateClass (class "D" ["C"]);
            CreateProperty (property "P" DATA ["B"] [])].

(** [D] under [G] and [C], with [G] under [C] under [B], and [P] declared
    on [B]; the store lists the parents of [D] as [G], [C]. *)
Definition shadowed : GraphDB.t :=
  run init [CreateClass (class "B" []);
            CreateClass (class "C" ["B"]);
            CreateClass (class "G" ["C"]);
            CreateClass (class "D" ["C"; "G"]);
            CreateProperty (property "P" DATA ["B"] [])].

(** A class whose free-form attributes carry the key [label]. *)
Definition relabelled : OntologyClass :=
  {| cls_id := "A";
     cls_label := PyStr "A";
     cls_description := PyNone;
     cls_parent_classes := [];
     cls_equivalent_classes := [];
     cls_disjoint_classes := [];
     cls_is_abstract := PyBool false;
     cls_properties := {[ "label" := PyStr "Other" ]} |}.

(** [Person], to which [knows] will relate persons. *)
Definition people : GraphDB.t :=
  run init [CreateClass (class "Person" [])].

Definition knows : OntologyProperty :=
  property "knows" OBJECT ["Person"] ["Person"].

Definition name : OntologyProperty :=
  property "name" DATA ["Person"; "Robot"] ["xsd:string"].

Definition diamond_rank : string → nat :=
  rank_of [("owl:Thing", 0); ("R", 1); ("A", 2); ("B", 3); ("C", 3); ("D", 4)].

(** A class object whose free-form attributes carry the [node_type] of an
    instance. *)
Definition disguised (class_id : string) (parents : list string) : OntologyClass :=
  {| cls_id := class_id;
     cls_label := PyStr class_id;
     cls_description := PyNone;
     cls_parent_classes := parents;
     cls_equivalent_classes := [];
     cls_disjoint_classes := [];
     cls_is_abstract := PyBool false;
     cls_properties := {[ "node_type" := PyStr INSTANCE_TYPE ]} |}.

(** [C] under [N] under [K], all three created by [create_class]; the node
    of [N] is not the node of a class. *)
Definition masked : GraphDB.t :=
  run init [CreateClass (class "K" []);
            CreateClass (disguised "N" ["K"]);
            CreateClass (class "C" ["N"])].

Definition masked_rank : string → nat :=
  rank_of [("owl:Thing", 0); ("K", 1); ("N", 2); ("C", 3)].

(** A class with a parent, a description, a disjoint class and an attribute
    of its own. *)
Definition cat : OntologyClass :=
  {| cls_id := "Cat";
     cls_label := PyStr "Cat";
     cls_description := PyStr "A cat";
     cls_parent_classes := ["Animal"];
     cls_equivalent_classes := [];
     cls_disjoint_classes := ["Dog"];
     cls_is_abstract := PyBool false;
     cls_properties := {[ "legs" := PyInt 4%Z ]} |}.

End Samples.

(** ** Further operations of the service *)

(** [get_instance]; the returned [properties] is the node's whole attribute
    map. *)
Definition get_instance (g : GraphDB.t) (instance_id : string)
    : result OntologyInstance :=
  if negb (GraphDB.node_exists g instance_id) then
    Raise (NodeNotFoundError ("Instance '" ++ instance_id ++ "' not found"))
  else
    let node_data := _get_node_data g instance_id in
    if bool_decide (node_data !! "node_type" ≠ Some (PyStr INSTANCE_TYPE)) then
      Raise (ValidationError ("Node '" ++ instance_id ++ "' is not an instance"))
    else
      Ok {| inst_id := instance_id;
            inst_label := py_get node_data "label" (PyStr instance_id);
            inst_class_ids := edge_targets g instance_id TYPE_RELATION;
            inst_properties := node_data |}.

(** [get_subclasses]: the scan of [get_superclasses] with the ends of the
    edge exchanged; the same bound [fuel] on the unguarded recursion, [None]
    when it is reached.  The statements about it are about stores on which
    the recursion ends by itself. *)
Definition subclasses_loop (g : GraphDB.t) (class_id : string)
    (direct_only : bool) (rec : string → option (list OntologyClass))
    : list (string * string * Q) → option (list OntologyClass) :=
  fix go edges :=
    match edges with
    | [] => Some []
    | (from_node, to_node, _) :: edges' =>
        if bool_decide (to_node = class_id) then
          match GraphDB.get_edge g from_node to_node with
          | Some edge_data =>
              if bool_decide (GraphDB.edge_label edge_data = SUBCLASS_RELATION) then
                match get_class g from_node with
                | Ok c =>
                    if direct_only then (c ::.) <$> go edges'
                    else
                      match rec from_node with
                      | Some indirect => (λ r, c :: indirect ++ r) <$> go edges'
                      | None => None
                      end
                | Raise _ => go edges'
                end
              else go edges'
          | None => go edges'
          end
        else go edges'
    end.

Fixpoint get_subclasses (fuel : nat) (g : GraphDB.t) (class_id : string)
    (direct_only : bool) : option (list OntologyClass) :=
  match fuel with
  | 0 => None
  | S fuel' =>
      subclasses_loop g class_id direct_only
        (λ from_node, get_subclasses fuel' g from_node false)
        (GraphDB.get_all_edges g)
  end.

(** [get_instances_of_class]; [fuel] is for the call of [get_subclasses]
    that [direct_only=False] makes. *)
Definition instances_loop (g : GraphDB.t) (target_classes : gset string)
    : list (string * string * Q) → list OntologyInstance :=
  fix go edges :=
    match edges with
    | [] => []
    | (from_node, to_node, _) :: edges' =>
        if bool_decide (to_node ∈ target_classes) then
          match GraphDB.get_edge g from_node to_node with
          | Some edge_data =>
              if bool_decide (GraphDB.edge_label edge_data = TYPE_RELATION) then
                match get_instance g from_node with
                | Ok i => i :: go edges'
                | Raise _ => go edges'
                end
              else go edges'
          | None => go edges'
          end
        else go edges'
    end.

Definition get_instances_of_class (fuel : nat) (g : GraphDB.t)
    (class_id : string) (direct_only : bool) : option (list OntologyInstance) :=
  let target_classes : gset string := {[class_id]} in
  if direct_only then
    Some (instances_loop g target_classes (GraphDB.get_all_edges g))
  else
    match get_subclasses fuel g class_id false with
    | Some subclasses =>
        let target_classes := target_classes ∪ list_to_set (cls_id <$> subclasses) in
        Some (instances_loop g target_classes (GraphDB.get_all_edges g))
    | None => None
    end.

(** Modelled from the spec: [GraphService.delete_node] is outside the
    sources.  The spec leaves the cascading removal to the store; here the
    node goes together with the edges at it, and a missing node is an
    error, as the adapter's handler for deletion expects. *)
Definition delete_node (g : GraphDB.t) (node_id : string) : result GraphDB.t :=
  if GraphDB.node_exists g node_id then
    Ok {| GraphDB.nodes := delete node_id (GraphDB.nodes g);
          GraphDB.edges :=
            filter (λ kv, kv.1.1 ≠ node_id ∧ kv.1.2 ≠ node_id) (GraphDB.edges g) |}
  else Raise (NodeNotFoundError ("Node '" ++ node_id ++ "' not found")).

(** What [delete_class] raises: its own [InvalidOperationError], or what
    the store raised. *)
Inductive delete_exn :=
  | InvalidOperationError (msg : string)
  | StoreError (e : exn).

Inductive delete_result :=
  | Deleted (g : GraphDB.t)
  | DeleteRaise (e : delete_exn).

(** [delete_class]; both checks are direct ones, so one level of [fuel]
    is all they take. *)
Definition delete_class (g : GraphDB.t) (class_id : string) (force : bool)
    : option delete_result :=
  let delete :=
    match delete_node g class_id with
    | Ok g' => Deleted g'
    | Raise e => DeleteRaise (StoreError e)
    end in
  if force then Some delete
  else
    match get_instances_of_class 1 g class_id true with
    | None => None
    | Some ((_ :: _) as instances) =>
        Some (DeleteRaise (InvalidOperationError
          ("Cannot delete class '" ++ class_id ++ "': has "
             ++ pretty (length instances) ++ " instances")))
    | Some [] =>
        match get_subclasses 1 g class_id true with
        | None => None
        | Some ((_ :: _) as subclasses) =>
            Some (DeleteRaise (InvalidOperationError
              ("Cannot delete class '" ++ class_id ++ "': has "
                 ++ pretty (length subclasses) ++ " subclasses")))
        | Some [] => Some delete
        end
    end.

(** [ClassHierarchy], with the fields that [build_hierarchy] sets. *)
Inductive ClassHierarchy :=
  | hierarchy_node (class_id : string) (label : pyval) (parent_id : option string)
      (instance_count : nat) (depth : nat) (children : list ClassHierarchy).

Definition set_parent_id (parent : string) (node : ClassHierarchy)
    : ClassHierarchy :=
  match node with
  | hierarchy_node class_id label _ instance_count depth children =>
      hierarchy_node class_id label (Some parent) instance_count depth children
  end.

(** The loop over [subclasses] in [build_hierarchy]. *)
Definition children_loop (class_id : string)
    (rec : string → option (result ClassHierarchy))
    : list OntologyClass → option (result (list ClassHierarchy)) :=
  fix go subclasses :=
    match subclasses with
    | [] => Some (Ok [])
    | subclass :: rest =>
        match rec (cls_id subclass) with
        | None => None
        | Some (Raise e) => Some (Raise e)
        | Some (Ok child) =>
            match go rest with
            | None => None
            | Some (Raise e) => Some (Raise e)
            | Some (Ok children) =>
                Some (Ok (set_parent_id class_id child :: children))
            end
        end
    end.

Fixpoint build_hierarchy (fuel : nat) (g : GraphDB.t) (class_id : string)
    (depth : nat) : option (result ClassHierarchy) :=
  match fuel with
  | 0 => None
  | S fuel' =>
      match get_class g class_id with
      | Raise e => Some (Raise e)
      | Ok class_obj =>
          match get_subclasses 1 g class_id true,
                get_instances_of_class 1 g class_id true with
          | Some subclasses, Some instances =>
              match children_loop class_id
                      (λ subclass_id, build_hierarchy fuel' g subclass_id (depth + 1))
                      subclasses with
              | None => None
              | Some (Raise e) => Some (Raise e)
              | Some (Ok children) =>
                  Some (Ok (hierarchy_node class_id (cls_label class_obj) None
                              (length instances) depth children))
              end
          | _, _ => None
          end
      end
  end.

Definition get_class_hierarchy (fuel : nat) (g : GraphDB.t)
    (root_id : option string) : option (result ClassHierarchy) :=
  build_hierarchy fuel g (default "owl:Thing" root_id) 0.

(** The warnings that [validate_ontology] adds after the consistency
    check: one for each class other than the root that [get_class] returns
    without parents. *)
Definition orphan_warnings (g : GraphDB.t) : list string :=
  omap (λ class_obj,
          if negb (bool_decide (cls_id class_obj = "owl:Thing"))
             && bool_decide (cls_parent_classes class_obj = [])
          then Some ("Class '" ++ cls_id class_obj ++ "' has no parent classes")%string
          else None)
       (get_all_classes g).

(** [validate_ontology].  [ValidationResult] is outside the sources; the
    record holds the messages that the method passes to its [add_error] and
    to its [add_warning], in the order of the calls. *)
Record ValidationCalls := {
  added_errors : list string;
  added_warnings : list string
}.

Definition validate_ontology (g : GraphDB.t) : option ValidationCalls :=
  match check_consistency g with
  | None => None
  | Some consistency =>
      Some {| added_errors :=
                if negb (consistent consistency) then errors consistency else [];
              added_warnings := orphan_warnings g |}
  end.

(** ** The HTTP adapter *)

(** What a handler of [ontology_api] answers, once the request is parsed and
    up to the rendering as JSON: [success_response] (status 200),
    [error_response] with the exception whose text is the error and the
    status code, and the answer of the instance handler to a failed
    validation (status 422). *)
Inductive response (A : Type) :=
  | success_response (data : A) (message : string)
  | error_response (error : exn) (status_code : nat)
  | validation_failed (details : list string).

Arguments success_response {A} data message.
Arguments error_response {A} error status_code.
Arguments validation_failed {A} details.

Definition status {A} (r : response A) : nat :=
  match r with
  | success_response _ _ => 200
  | error_response _ status_code => status_code
  | validation_failed _ => 422
  end.

Module Api.

(** [GET /api/ontology/classes/<class_id>]. *)
Definition get_class (g : GraphDB.t) (class_id : string) : response OntologyClass :=
  match get_class g class_id with
  | Ok class_obj => success_response class_obj "Success"
  | Raise (NodeNotFoundError m) => error_response (NodeNotFoundError m) 404
  | Raise e => error_response e 500
  end.

(** [POST /api/ontology/classes], from the [OntologyClass] built of the
    request on. *)
Definition create_class (g : GraphDB.t) (class_obj : OntologyClass)
    : GraphDB.t * response OntologyClass :=
  match create_class g class_obj with
  | Ok (g', created) => (g', success_response created "Class created successfully")
  | Raise (ValidationError m) => (g, error_response (ValidationError m) 400)
  | Raise e => (g, error_response e 500)
  end.

(** The loop over [instance_obj.class_ids] in the instance handler: a
    validation that raises is logged and passed over. *)
Definition validation_loop (g : GraphDB.t) (properties : gmap string pyval)
    : list string → list string :=
  fix go class_ids :=
    match class_ids with
    | [] => []
    | class_id :: rest =>
        match validate_instance_properties g class_id properties with
        | Some (Ok errors) => errors ++ go rest
        | _ => go rest
        end
    end.

(** [POST /api/ontology/instances], from the [OntologyInstance] built of
    the request on. *)
Definition create_instance (g : GraphDB.t) (instance_obj : OntologyInstance)
    : GraphDB.t * response OntologyInstance :=
  match validation_loop g (inst_properties instance_obj)
          (inst_class_ids instance_obj) with
  | _ :: _ as validation_errors => (g, validation_failed validation_errors)
  | [] =>
      match create_instance g instance_obj with
      | Ok (g', created) =>
          (g', success_response created "Instance created successfully")
      | Raise (ValidationError m) => (g, error_response (ValidationError m) 400)
      | Raise e => (g, error_response e 500)
      end
  end.

End Api.

Arguments get_subclasses : simpl never.
Arguments build_hierarchy : simpl never.

(** *** Requests, seen as writes *)

Definition request_id (r : request) : string :=
  match r with
  | CreateClass c => cls_id c
  | CreateProperty p => prop_id p
  | CreateInstance i => inst_id i
  end.

Definition request_data (r : request) : gmap string pyval :=
  match r with
  | CreateClass c => class_node_data c
  | CreateProperty p => property_node_data p
  | CreateInstance i => instance_node_data i
  end.

(** *** More sample data *)

Module Cases.

Definition instance (instance_id : string) (class_ids : list string)
    (properties : gmap string pyval) : OntologyInstance :=
  {| inst_id := instance_id;
     inst_label := PyStr instance_id;
     inst_class_ids := class_ids;
     inst_properties := properties |}.

(** Two classes, a property, an instance, and two requests that the
    service refuses: an id in use and a class that does not exist. *)
Definition zoo : list request :=
  [CreateClass (Samples.class "Animal" []);
   CreateClass (Samples.class "Dog" ["Animal"]);
   CreateProperty (Samples.property "name" DATA ["Animal"] ["xsd:string"]);
   CreateInstance (instance "rex" ["Dog"] {[ "name" := PyStr "Rex" ]});
   CreateClass (Samples.class "name" []);
   CreateInstance (instance "tom" ["Cat"] ∅)].

(** An instance of no class with a property of its own, and requests that
    follow it. *)
Definition rex : request :=
  CreateInstance (instance "rex" [] {[ "name" := PyStr "Rex" ]}).

Definition later : list request :=
  [CreateClass (Samples.class "Animal" []);
   CreateProperty (Samples.property "name" DATA ["Animal"] [])].

(** Two classes and an instance with a property. *)
Definition household : list request :=
  [CreateClass (Samples.class "Animal" []);
   CreateClass (Samples.class "Dog" ["Animal"]);
   CreateInstance (instance "rex" ["Dog"] {[ "name" := PyStr "Rex" ]})].

(** [rex] is stored as a [Dog] and as an [Animal]. *)
Definition typed_twice : GraphDB.t :=
  run init [CreateClass (Samples.class "Animal" []);
            CreateClass (Samples.class "Dog" ["Animal"]);
            CreateInstance (instance "rex" ["Dog"; "Animal"] ∅)].

(** The store that [zoo] builds: [rex] is a [Dog], and [Dog] is under
    [Animal]. *)
Definition kennel : GraphDB.t := run init zoo.

End Cases.

(** From [c] the walk up can reach a class that is its own ancestor. *)
Definition below_cycle (g : GraphDB.t) (c : string) : Prop :=
  ∃ x, rtc (direct_super g) c x ∧ ancestor g x x.

(** *** Walking down *)

(** The sources of the edges arriving at [node_id] whose label is [label]:
    the scan that [get_subclasses] and [get_instances_of_class] make. *)
Definition select_source (g : GraphDB.t) (node_id label : string)
    (e : string * string * Q) : option string :=
  let '(from_node, to_node, _) := e in
  match GraphDB.get_edge g from_node to_node with
  | Some edge_data =>
      if bool_decide (to_node = node_id)
         && bool_decide (GraphDB.edge_label edge_data = label)
      then Some from_node else None
  | None => None
  end.

Definition edge_sources (g : GraphDB.t) (node_id label : string) : list string :=
  omap (select_source g node_id label) (GraphDB.get_all_edges g).

Definition direct_subs (g : GraphDB.t) (class_id : string) : list OntologyClass :=
  omap (class_of_target g) (edge_sources g class_id SUBCLASS_RELATION).

(** [y] is a direct subclass of [x]: a class with a subclass edge to [x]. *)
Definition direct_sub (g : GraphDB.t) (x y : string) : Prop :=
  subclass_edge g y x ∧ is_class g y.

Definition descendant (g : GraphDB.t) : string → string → Prop :=
  tc (direct_sub g).

(** [x] has an [rdf:type] edge to [y]. *)
Definition type_edge (g : GraphDB.t) (x y : string) : Prop :=
  ∃ ed, GraphDB.edges g !! (x, y) = Some ed
        ∧ GraphDB.edge_label ed = TYPE_RELATION.

Definition is_instance (g : GraphDB.t) (instance_id : string) : Prop :=
  is_ok (get_instance g instance_id) = true.

(** [i] is a direct instance of [c], as [get_instances_of_class] sees it. *)
Definition direct_instance (g : GraphDB.t) (c i : string) : Prop :=
  type_edge g i c ∧ is_instance g i.

Arguments select_source : simpl never.

(** *** Parents *)

(** The class of the request names a parent that it does not also list as
    equivalent or disjoint. *)
Definition keeps_parent (r : request) : Prop :=
  match r with
  | CreateClass c =>
      ∃ p, p ∈ effective_parents c
           ∧ (p ∉ cls_equivalent_classes c) ∧ (p ∉ cls_disjoint_classes c)
  | _ => True
  end.

(** Every class but the root has a subclass edge. *)
Definition parented (g : GraphDB.t) : Prop :=
  ∀ c, is_class g c → c ≠ "owl:Thing" → ∃ p, subclass_edge g c p.

(** *** Hierarchy trees *)

Definition hierarchy_id (t : ClassHierarchy) : string :=
  match t with hierarchy_node class_id _ _ _ _ _ => class_id end.

(** The ids of a tree, each node before its children. *)
Fixpoint preorder (t : ClassHierarchy) : list string :=
  match t with
  | hierarchy_node class_id _ _ _ _ children =>
      class_id :: concat (preorder <$> children)
  end.

(** [t] is the tree of a class of [g], with [parent] as parent id and
    [d] as depth: its label is the class's, its instance count the number
    of direct instances, and its children are the trees of the direct
    subclasses, in the order of the store, one level down under its id. *)
Inductive placed (g : GraphDB.t) : option string → nat → ClassHierarchy → Prop :=
  | placed_node cls parent n d children :
      get_class g (cls_id cls) = Ok cls →
      (∃ l, NoDup l ∧ (∀ x, x ∈ l ↔ direct_instance g (cls_id cls) x)
            ∧ n = length l) →
      hierarchy_id <$> children = cls_id <$> direct_subs g (cls_id cls) →
      Forall (placed g (Some (cls_id cls)) (d + 1)) children →
      placed g parent d
        (hierarchy_node (cls_id cls) (cls_label cls) parent n d children).

(** A class that is its own descendant can be reached from [c] by walking
    down. *)
Definition above_cycle (g : GraphDB.t) (c : string) : Prop :=
  ∃ x, rtc (direct_sub g) c x ∧ descendant g x x.

(** *** Inherited entries *)

(** [up] are classes met when walking up from [c], nearest first, none of
    them the root. *)
Definition climbs (g : GraphDB.t) (c : string) (up : list OntologyClass) : Prop :=
  chain g c (cls_id <$> up)
  ∧ Forall (λ cls, get_class g (cls_id cls) = Ok cls ∧ cls_id cls ≠ "owl:Thing") up.

(** [e] is the entry of a property declared on [top], a class reached from
    [c] by walking up through [up]: its path holds the labels along the
    walk and its source is the label of [top]. *)
Definition inherited_from (g : GraphDB.t) (c : string) (e : prop_entry) : Prop :=
  ∃ (up : list OntologyClass) (top : OntologyClass) (P : OntologyProperty),
    climbs g c (up ++ [top])
    ∧ get_property g (prop_id P) = Ok P
    ∧ cls_id top ∈ prop_domain P
    ∧ e = {| pe_id := prop_id P;
             pe_label := prop_label P;
             pe_property_type := PropertyType_value (prop_property_type P);
             pe_description := prop_description P;
             pe_range := prop_range P;
             pe_required := false;
             pe_source := cls_label top;
             pe_inheritance_path := Some (cls_label <$> up ++ [top]) |}.

(** ** The store *)

Section store.
Context (g : GraphDB.t).

Lemma node_exists_true n :
  GraphDB.node_exists g n = true ↔ n ∈ dom (GraphDB.nodes g).
Proof.
  unfold GraphDB.node_exists. rewrite bool_decide_eq_true.
  by rewrite elem_of_dom.
Qed.

Lemma node_exists_false n :
  GraphDB.node_exists g n = false ↔ GraphDB.nodes g !! n = None.
Proof.
  unfold GraphDB.node_exists. rewrite bool_decide_eq_false.
  by rewrite eq_None_not_Some.
Qed.

Lemma elem_of_get_all_nodes n :
  n ∈ GraphDB.get_all_nodes g ↔ n ∈ dom (GraphDB.nodes g).
Proof.
  unfold GraphDB.get_all_nodes. rewrite elem_of_dom, list_elem_of_fmap.
  split.
  - intros [[k v] [-> H]]. apply elem_of_map_to_list in H. by exists v.
  - intros [v H]. exists (n, v). split; [done|]. by apply elem_of_map_to_list.
Qed.

Lemma NoDup_get_all_nodes : NoDup (GraphDB.get_all_nodes g).
Proof. apply NoDup_fst_map_to_list. Qed.

Lemma length_get_all_nodes :
  length (GraphDB.get_all_nodes g) = size (GraphDB.nodes g).
Proof.
  unfold GraphDB.get_all_nodes. by rewrite length_fmap, length_map_to_list.
Qed.

Lemma select_target_Some c l e t :
  e ∈ GraphDB.get_all_edges g →
  select_target g c l e = Some t ↔
    e.1 = (c, t) ∧ ∃ ed, GraphDB.edges g !! (c, t) = Some ed
                        ∧ GraphDB.edge_label ed = l.
Proof.
  destruct e as [[f t'] w]. intros _. unfold select_target, GraphDB.get_edge.
  simpl. split.
  - destruct (GraphDB.edges g !! (f, t')) as [ed|] eqn:E; [|done].
    destruct (bool_decide (f = c)) eqn:E1; simpl; [|done].
    destruct (bool_decide (_ = l)) eqn:E2; [|done].
    apply bool_decide_eq_true in E1, E2. intros [= <-]. subst f.
    split; [done|]. by exists ed.
  - intros [[= -> ->] [ed [E El]]]. rewrite E.
    by rewrite !bool_decide_eq_true_2.
Qed.

Lemma elem_of_edge_targets c l t :
  t ∈ edge_targets g c l ↔
    ∃ ed, GraphDB.edges g !! (c, t) = Some ed ∧ GraphDB.edge_label ed = l.
Proof.
  unfold edge_targets. rewrite list_elem_of_omap. split.
  - intros [e [He Hs]]. by apply select_target_Some in Hs as [_ ?].
  - intros [ed [E El]]. exists (c, t, GraphDB.edge_weight ed). split.
    + unfold GraphDB.get_all_edges. apply list_elem_of_fmap.
      exists ((c, t), ed). split; [done|]. by apply elem_of_map_to_list.
    + unfold select_target, GraphDB.get_edge. rewrite E.
      by rewrite !bool_decide_eq_true_2.
Qed.

Lemma NoDup_edge_targets c l : NoDup (edge_targets g c l).
Proof.
  unfold edge_targets, GraphDB.get_all_edges.
  assert (NoDup (map_to_list (GraphDB.edges g)).*1) as H
    by apply NoDup_fst_map_to_list.
  induction (map_to_list (GraphDB.edges g)) as [|[[f t] ed] es IH];
    cbn -[select_target].
  - constructor.
  - cbn in H. apply NoDup_cons in H as [Hnotin Hnd].
    destruct (select_target g c l (f, t, GraphDB.edge_weight ed)) as [t'|] eqn:E;
      [|by apply IH].
    apply NoDup_cons. split; [|by apply IH].
    intros Hin. apply list_elem_of_omap in Hin as [[[f2 t2] w2] [Hin Hs]].
    apply list_elem_of_fmap in Hin as [[[f3 t3] ed3] [Heq Hin]].
    simpl in Heq. injection Heq as -> -> ->.
    unfold select_target in E, Hs.
    destruct (GraphDB.get_edge g f t); [|done].
    destruct (GraphDB.get_edge g f3 t3); [|done].
    destruct (bool_decide (f = c)) eqn:E1; simpl in E; [|done].
    destruct (bool_decide (f3 = c)) eqn:E2; simpl in Hs; [|done].
    apply bool_decide_eq_true in E1, E2.
    repeat case_match; try done. simplify_eq.
    apply Hnotin. apply list_elem_of_fmap. by exists ((c, t', ed3)).
Qed.

End store.

Arguments select_target : simpl never.
Arguments get_superclasses : simpl never.
Arguments has_cycle : simpl never.
Arguments get_depth : simpl never.
Arguments compute_inherited_properties : simpl never.
Arguments depth_bound : simpl never.

(** ** Classes and direct superclasses *)

Section hierarchy.
Context (g : GraphDB.t).

Lemma get_class_Ok t c :
  get_class g t = Ok c →
  cls_id c = t ∧ t ∈ dom (GraphDB.nodes g)
  ∧ _get_node_data g t !! "node_type" = Some (PyStr CLASS_TYPE)
  ∧ cls_parent_classes c = edge_targets g t SUBCLASS_RELATION.
Proof.
  unfold get_class.
  destruct (GraphDB.node_exists g t) eqn:E; simpl; [|done].
  apply node_exists_true in E.
  destruct (bool_decide (_ ≠ _)) eqn:E2; [done|].
  apply bool_decide_eq_false in E2. apply dec_stable in E2.
  by intros [= <-].
Qed.

Lemma get_class_id t c : get_class g t = Ok c → cls_id c = t.
Proof. intros H. by apply get_class_Ok in H as [? _]. Qed.

Lemma is_class_alt t : is_class g t ↔ ∃ c, get_class g t = Ok c.
Proof.
  unfold is_class. destruct (get_class g t) as [c|e]; simpl; split;
    try done; eauto.
  by intros [? ?].
Qed.

Lemma is_class_node t : is_class g t → t ∈ dom (GraphDB.nodes g).
Proof.
  intros [c H]%is_class_alt. by apply get_class_Ok in H as (_ & ? & _).
Qed.

Lemma elem_of_direct_supers c cls :
  cls ∈ direct_supers g c ↔
    subclass_edge g c (cls_id cls) ∧ get_class g (cls_id cls) = Ok cls.
Proof.
  unfold direct_supers. rewrite list_elem_of_omap. split.
  - intros [t [Ht Hc]]. unfold class_of_target in Hc.
    destruct (get_class g t) as [c'|] eqn:E; [|done].
    injection Hc as ->. pose proof (get_class_id _ _ E) as <-.
    split; [|done]. by apply elem_of_edge_targets in Ht.
  - intros [He Hc]. exists (cls_id cls). split.
    + by apply elem_of_edge_targets.
    + unfold class_of_target. by rewrite Hc.
Qed.

Lemma direct_supers_super c cls :
  cls ∈ direct_supers g c → direct_super g c (cls_id cls).
Proof.
  intros [He Hc]%elem_of_direct_supers. split; [done|].
  apply is_class_alt. eauto.
Qed.

Lemma direct_super_supers c t :
  direct_super g c t → ∃ cls, cls ∈ direct_supers g c ∧ cls_id cls = t.
Proof.
  intros [He [cls Hc]%is_class_alt]. exists cls.
  pose proof (get_class_id _ _ Hc) as Hid. split; [|done].
  apply elem_of_direct_supers. by rewrite Hid.
Qed.

Lemma superclasses_loop_direct c rec es :
  superclasses_loop g c true rec es
  = Some (omap (class_of_target g) (omap (select_target g c SUBCLASS_RELATION) es)).
Proof.
  induction es as [|[[f t] w] es IH]; [done|].
  cbn -[select_target]. rewrite IH. clear IH.
  generalize (omap (select_target g c SUBCLASS_RELATION) es). intros ts.
  unfold select_target.
  destruct (GraphDB.get_edge g f t) as [ed|];
    destruct (bool_decide (f = c)); simpl; try done.
  destruct (bool_decide (_ = SUBCLASS_RELATION)); [|done].
  simpl. unfold class_of_target.
  by destruct (get_class g t).
Qed.

Lemma superclasses_loop_indirect c rec es :
  superclasses_loop g c false rec es
  = collect rec (omap (class_of_target g)
                      (omap (select_target g c SUBCLASS_RELATION) es)).
Proof.
  induction es as [|[[f t] w] es IH]; [done|].
  cbn -[select_target]. rewrite IH. clear IH.
  generalize (omap (select_target g c SUBCLASS_RELATION) es). intros ts.
  unfold select_target.
  destruct (GraphDB.get_edge g f t) as [ed|];
    destruct (bool_decide (f = c)); simpl; try done.
  destruct (bool_decide (_ = SUBCLASS_RELATION)); [|done].
  simpl. unfold class_of_target.
  destruct (get_class g t) as [cls|] eqn:Ec; [|done].
  simpl. by rewrite (get_class_id _ _ Ec).
Qed.

Lemma get_superclasses_direct n c :
  get_superclasses (S n) g c true = Some (direct_supers g c).
Proof. apply superclasses_loop_direct. Qed.

Lemma get_superclasses_step n c :
  get_superclasses (S n) g c false
  = collect (λ t, get_superclasses n g t false) (direct_supers g c).
Proof. apply superclasses_loop_indirect. Qed.

(** What [collect] returns when every recursive call returns. *)
Lemma collect_Some rec l :
  (∀ c, c ∈ l → is_Some (rec (cls_id c))) →
  ∃ r, collect rec l = Some r
       ∧ ∀ a, a ∈ r ↔
            ∃ c, c ∈ l ∧ (a = c ∨ ∃ ind, rec (cls_id c) = Some ind ∧ a ∈ ind).
Proof.
  induction l as [|c l IH]; intros Hall.
  - exists []. split; [done|]. intros a. split.
    + by intros ?%elem_of_nil.
    + by intros (? & ?%elem_of_nil & _).
  - destruct IH as (r & Hr & Hmem).
    { intros c' Hc'. apply Hall. by right. }
    destruct (Hall c) as [ind Hind]; [by left|].
    exists (c :: ind ++ r). split.
    + simpl. by rewrite Hind, Hr.
    + intros a. rewrite elem_of_cons, elem_of_app, Hmem. split.
      * intros [->|[Ha|(c' & Hc' & Ha)]].
        -- exists c. split; [by left|by left].
        -- exists c. split; [by left|]. right. eauto.
        -- exists c'. split; [by right|done].
      * intros (c' & [->|Hc']%elem_of_cons & Ha).
        -- destruct Ha as [->|(ind' & Hind' & Ha)]; [by left|].
           right. left. congruence.
        -- right. right. eauto.
Qed.

End hierarchy.

(** ** Cycle detection *)

Section cycles.
Context (g : GraphDB.t).

Lemma any_parent_Some rec l :
  (∀ p, p ∈ l → is_Some (rec (cls_id p))) →
  ∃ b, any_parent rec l = Some b
       ∧ (b = true ↔ ∃ p, p ∈ l ∧ rec (cls_id p) = Some true).
Proof.
  induction l as [|p l IH]; intros Hall.
  - exists false. split; [done|]. split; [done|].
    by intros (? & ?%elem_of_nil & _).
  - destruct (Hall p) as [b Hb]; [by left|].
    destruct IH as (b' & Hb' & Hiff).
    { intros q Hq. apply Hall. by right. }
    simpl. rewrite Hb. destruct b.
    + exists true. split; [done|]. split; [|done].
      intros _. exists p. split; [by left|done].
    + exists b'. split; [done|]. rewrite Hiff. split.
      * intros (q & Hq & H). exists q. split; [by right|done].
      * intros (q & [->|Hq]%elem_of_cons & H); [congruence|eauto].
Qed.

Lemma has_cycle_S fuel c visited :
  has_cycle (S fuel) g c visited
  = if bool_decide (c ∈ visited) then Some true
    else any_parent (λ parent_id, has_cycle fuel g parent_id ({[c]} ∪ visited))
                    (direct_supers g c).
Proof.
  transitivity
    (if bool_decide (c ∈ visited) then Some true
     else match get_superclasses 1 g c true with
          | Some superclasses =>
              any_parent (λ parent_id, has_cycle fuel g parent_id ({[c]} ∪ visited))
                         superclasses
          | None => None
          end); [reflexivity|].
  by rewrite get_superclasses_direct.
Qed.

(** The probe returns: every level adds a node of the store to the
    path. *)
Lemma has_cycle_total fuel c visited :
  c ∈ visited ∨ c ∈ dom (GraphDB.nodes g) →
  size (dom (GraphDB.nodes g) ∖ visited) < fuel →
  is_Some (has_cycle fuel g c visited).
Proof.
  revert c visited. induction fuel as [|fuel IH]; intros c visited Hc Hsz; [lia|].
  rewrite has_cycle_S. case_bool_decide as Hv; [done|].
  destruct Hc as [?|Hc]; [done|].
  destruct (any_parent_Some
              (λ parent_id, has_cycle fuel g parent_id ({[c]} ∪ visited))
              (direct_supers g c)) as (b & Hb & _); [|by rewrite Hb].
  intros p Hp. apply IH.
  - right. by apply is_class_node, direct_supers_super with c.
  - assert (dom (GraphDB.nodes g) ∖ ({[c]} ∪ visited)
              ⊂ dom (GraphDB.nodes g) ∖ visited) as Hsub by set_solver.
    apply subset_size in Hsub. lia.
Qed.

(** A positive answer comes from a class that is its own ancestor. *)
Lemma has_cycle_sound fuel c visited :
  (∀ v, v ∈ visited → ancestor g v c) →
  has_cycle fuel g c visited = Some true →
  ∃ x, ancestor g x x.
Proof.
  revert c visited. induction fuel as [|fuel IH]; intros c visited Hinv; [done|].
  rewrite has_cycle_S. case_bool_decide as Hv.
  - intros _. exists c. by apply Hinv.
  - intros Hany.
    assert (∃ p, p ∈ direct_supers g c
                 ∧ has_cycle fuel g (cls_id p) ({[c]} ∪ visited) = Some true)
      as (p & Hp & Hrec).
    { clear -Hany. induction (direct_supers g c) as [|q l IHl]; [done|].
      simpl in Hany.
      destruct (has_cycle fuel g (cls_id q) ({[c]} ∪ visited)) as [[]|] eqn:E;
        [| |done].
      - exists q. split; [by left|done].
      - destruct (IHl Hany) as (p & Hp & H). exists p. split; [by right|done]. }
    apply (IH (cls_id p) ({[c]} ∪ visited)); [|done].
    pose proof (direct_supers_super g _ _ Hp) as Hstep.
    intros v [->%elem_of_singleton|Hin]%elem_of_union.
    + by apply tc_once.
    + eapply tc_r; [by apply Hinv|done].
Qed.

(** A walk that meets the path again, or itself, is found. *)
Lemma has_cycle_complete l : ∀ fuel c visited,
  c ∈ visited ∨ c ∈ dom (GraphDB.nodes g) →
  size (dom (GraphDB.nodes g) ∖ visited) < fuel →
  chain g c l →
  ¬ NoDup (c :: l) ∨ (∃ x, x ∈ c :: l ∧ x ∈ visited) →
  has_cycle fuel g c visited = Some true.
Proof.
  induction l as [|x l IH]; intros fuel c visited Hc Hsz Hchain Hrev;
    (destruct fuel as [|fuel]; [lia|]); rewrite has_cycle_S;
    (case_bool_decide as Hv; [done|]);
    (destruct Hc as [?|Hc]; [done|]).
  - exfalso. destruct Hrev as [Hnd|(x & Hx & Hin)].
    + apply Hnd. apply NoDup_singleton.
    + apply list_elem_of_singleton in Hx as ->. done.
  - destruct Hchain as [Hstep Hchain].
    assert (size (dom (GraphDB.nodes g) ∖ ({[c]} ∪ visited)) < fuel) as Hsz'.
    { assert (dom (GraphDB.nodes g) ∖ ({[c]} ∪ visited)
                ⊂ dom (GraphDB.nodes g) ∖ visited) as Hsub by set_solver.
      apply subset_size in Hsub. lia. }
    destruct (any_parent_Some
                (λ parent_id, has_cycle fuel g parent_id ({[c]} ∪ visited))
                (direct_supers g c)) as (b & Hb & Hiff).
    { intros p Hp. apply has_cycle_total; [|done].
      right. by apply is_class_node, direct_supers_super with c. }
    rewrite Hb. f_equal. apply Hiff.
    destruct (direct_super_supers g _ _ Hstep) as (cls & Hcls & Hid).
    exists cls. split; [done|]. rewrite Hid.
    apply IH; [|done|done|].
    + right. apply is_class_node. by destruct Hstep.
    + destruct Hrev as [Hnd|(y & Hy & Hin)].
      * destruct (decide (c ∈ x :: l)) as [Hcin|Hcnot].
        -- right. exists c. split; [done|set_solver].
        -- left. intros Hnd'. apply Hnd. by apply NoDup_cons.
      * right. exists y. apply elem_of_cons in Hy as [->|Hy]; [done|].
        split; [done|set_solver].
Qed.

Lemma check_consistency_loop_spec classes r0 :
  (∀ c, c ∈ classes → is_Some (has_cycle (depth_bound g) g (cls_id c) ∅)) →
  ∃ r, check_consistency_loop g classes r0 = Some r
       ∧ warnings r = warnings r0
       ∧ errors r = errors r0 ++ (cycle_error ∘ cls_id <$> List.filter (cyclic g) classes)
       ∧ consistent r = consistent r0 && forallb (λ c, negb (cyclic g c)) classes.
Proof.
  revert r0. induction classes as [|c classes IH]; intros r0 Hall.
  - exists r0. simpl. by rewrite app_nil_r, andb_true_r.
  - destruct (Hall c) as [b Hb]; [by left|].
    assert (cyclic g c = b) as Hcyc.
    { unfold cyclic. rewrite Hb. by destruct b. }
    simpl. rewrite Hb, Hcyc.
    destruct b;
      (edestruct IH as (r & Hr & Hw & Herr & Hcons);
       [intros c' Hc'; apply Hall; by right|]);
      exists r; (split; [exact Hr|]); simpl in *; [|done].
    rewrite Hw, Herr, Hcons, <- app_assoc, andb_false_r. done.
Qed.

Lemma get_all_classes_elem c :
  c ∈ get_all_classes g → get_class g (cls_id c) = Ok c.
Proof.
  unfold get_all_classes. intros (n & Hn & H)%list_elem_of_omap.
  destruct (_ && _); [|done].
  destruct (get_class g n) as [c'|] eqn:E; [|done].
  injection H as ->. by rewrite (get_class_id _ _ _ E).
Qed.

Lemma depth_bound_enough (visited : gset string) :
  (size (dom (GraphDB.nodes g) ∖ visited) < depth_bound g)%nat.
Proof.
  unfold depth_bound. rewrite <- size_dom.
  assert (size (dom (GraphDB.nodes g) ∖ visited)
            ≤ size (dom (GraphDB.nodes g)))%nat.
  { apply subseteq_size. set_solver. }
  lia.
Qed.

Lemma probes_total c :
  c ∈ get_all_classes g → is_Some (has_cycle (depth_bound g) g (cls_id c) ∅).
Proof.
  intros Hc%get_all_classes_elem. apply has_cycle_total.
  - right. by apply get_class_Ok in Hc as (_ & ? & _).
  - apply depth_bound_enough.
Qed.

(** [check_consistency] returns on every store. *)
Lemma check_consistency_total : is_Some (check_consistency g).
Proof.
  destruct (check_consistency_loop_spec (get_all_classes g)
              {| consistent := true; errors := []; warnings := [] |})
    as (r & Hr & _); [apply probes_total|].
  unfold check_consistency. by rewrite Hr.
Qed.

Lemma cycle_reported c l :
  c ∈ get_all_classes g →
  chain g (cls_id c) l →
  ¬ NoDup (cls_id c :: l) →
  ∃ r, check_consistency g = Some r
       ∧ consistent r = false
       ∧ cycle_error (cls_id c) ∈ errors r.
Proof.
  intros Hc Hchain Hnd.
  destruct (check_consistency_loop_spec (get_all_classes g)
              {| consistent := true; errors := []; warnings := [] |})
    as (r & Hr & _ & Herr & Hcons); [apply probes_total|].
  exists r. split; [done|].
  assert (cyclic g c = true) as Hcyc.
  { unfold cyclic. apply bool_decide_eq_true. apply has_cycle_complete with l.
    - right. apply get_all_classes_elem in Hc.
      by apply get_class_Ok in Hc as (_ & ? & _).
    - apply depth_bound_enough.
    - done.
    - by left. }
  split.
  - rewrite Hcons. simpl. apply not_true_is_false. intros Hall.
    rewrite forallb_forall in Hall.
    specialize (Hall c). rewrite Hcyc in Hall. simpl in Hall.
    assert (false = true); [|done]. apply Hall. by apply list_elem_of_In.
  - rewrite Herr. simpl. apply list_elem_of_fmap. exists c. split; [done|].
    apply list_elem_of_In, filter_In. split; [by apply list_elem_of_In|done].
Qed.

Lemma class_known c :
  is_class g c → ∃ cls, cls ∈ get_all_classes g ∧ cls_id cls = c.
Proof.
  intros [cls Hcls]%is_class_alt. exists cls.
  pose proof Hcls as (Hid & Hdom & Hty & _)%get_class_Ok. split; [|done].
  unfold get_all_classes. apply list_elem_of_omap. exists c. split.
  - by apply elem_of_get_all_nodes.
  - rewrite Hcls. rewrite (bool_decide_eq_true_2 _ Hty).
    rewrite bool_decide_eq_true_2; [done|].
    intros Hempty. rewrite Hempty in Hty. by rewrite lookup_empty in Hty.
Qed.

End cycles.

(** ** Acyclic hierarchies *)

Section acyclic.
Context (g : GraphDB.t).

Lemma ranked_ancestor rank x y :
  ranked rank g = true → ancestor g x y → (rank y < rank x)%nat.
Proof.
  intros Hr.
  assert (∀ x y, direct_super g x y → (rank y < rank x)%nat) as Hstep.
  { clear x y. intros x y [(ed & He & Hl) _].
    unfold ranked in Hr. rewrite forallb_forall in Hr.
    specialize (Hr ((x, y), ed)). simpl in Hr.
    rewrite (bool_decide_eq_true_2 _ Hl) in Hr. simpl in Hr.
    eapply bool_decide_eq_true_1. apply Hr.
    apply list_elem_of_In. by apply elem_of_map_to_list. }
  intros H. induction H as [x y H|x y z H _ IH].
  - by apply Hstep.
  - apply Hstep in H. lia.
Qed.

Lemma ranked_acyclic rank : ranked rank g = true → acyclic g.
Proof.
  intros Hr x Hx. apply (ranked_ancestor rank) in Hx; [lia|done].
Qed.

Lemma ranked_reachable rank x y :
  ranked rank g = true → reachable g x y → (rank y < rank x)%nat.
Proof.
  intros Hr.
  assert (∀ x y, subclass_edge g x y → (rank y < rank x)%nat) as Hstep.
  { clear x y. intros x y (ed & He & Hl).
    unfold ranked in Hr. rewrite forallb_forall in Hr.
    specialize (Hr ((x, y), ed)). simpl in Hr.
    rewrite (bool_decide_eq_true_2 _ Hl) in Hr. simpl in Hr.
    eapply bool_decide_eq_true_1. apply Hr.
    apply list_elem_of_In. by apply elem_of_map_to_list. }
  intros H. induction H as [x y H|x y z H _ IH].
  - by apply Hstep.
  - apply Hstep in H. lia.
Qed.

(** Where every subclass edge leads to a class, walking up meets classes
    only. *)
Lemma reachable_ancestor x y :
  (∀ x y, subclass_edge g x y → is_class g y) →
  reachable g x y → ancestor g x y.
Proof.
  intros Hty H. induction H as [x y H|x y z H _ IH].
  - apply tc_once. split; [done|by eapply Hty].
  - eapply tc_l; [|exact IH]. split; [done|by eapply Hty].
Qed.

(** A check that holds of every edge of a given store. *)
Lemma edges_forall (P : string → string → GraphDB.edge_data → bool) :
  forallb (λ kv : string * string * GraphDB.edge_data, P kv.1.1 kv.1.2 kv.2)
          (map_to_list (GraphDB.edges g)) = true →
  ∀ x y ed, GraphDB.edges g !! (x, y) = Some ed → P x y ed = true.
Proof.
  intros Hall x y ed He. rewrite forallb_forall in Hall.
  apply (Hall ((x, y), ed)). apply list_elem_of_In. by apply elem_of_map_to_list.
Qed.

(** The check of [hierarchy_typed] on a given store. *)
Lemma typed_check_sound : typed_check g = true → hierarchy_typed g.
Proof.
  intros Hc x y (ed & He & Hl) Hdom.
  unfold typed_check in Hc. rewrite forallb_forall in Hc.
  specialize (Hc ((x, y), ed)). simpl in Hc.
  rewrite (bool_decide_eq_true_2 _ Hl) in Hc.
  apply node_exists_true in Hdom. rewrite Hdom in Hc. simpl in Hc.
  apply Hc. apply list_elem_of_In. by apply elem_of_map_to_list.
Qed.

Lemma no_cycle_found c : acyclic g → cyclic g c = false.
Proof.
  intros Hac. unfold cyclic. apply bool_decide_eq_false. intros H.
  apply has_cycle_sound in H as [x Hx]; [by apply (Hac x)|].
  intros v Hv. by apply elem_of_empty in Hv.
Qed.

End acyclic.

(** C3: on a store whose subclass relation is acyclic, diamonds included,
    [check_consistency] answers [consistent = true] with no error: the probe
    only knows the current path, so an ancestor met along two branches is
    not a cycle. *)
Theorem check_consistency_acyclic (g : GraphDB.t) :
  acyclic g →
  check_consistency g = Some {| consistent := true; errors := []; warnings := [] |}.
Proof.
  intros Hac.
  destruct (check_consistency_loop_spec g (get_all_classes g)
              {| consistent := true; errors := []; warnings := [] |})
    as (r & Hr & Hw & Herr & Hcons); [apply probes_total|].
  unfold check_consistency. rewrite Hr. f_equal.
  assert (List.filter (cyclic g) (get_all_classes g) = []) as Hnone.
  { clear -Hac. induction (get_all_classes g) as [|c l IH]; [done|].
    simpl. by rewrite no_cycle_found. }
  assert (forallb (λ c, negb (cyclic g c)) (get_all_classes g) = true) as Hall.
  { apply forallb_forall. intros c _. by rewrite no_cycle_found. }
  rewrite Hnone in Herr. rewrite Hall in Hcons.
  destruct r as [co er wa]. simpl in *. by subst.
Qed.

Lemma check_consistency_acyclic_witness :
  acyclic Samples.diamond
  ∧ check_consistency Samples.diamond
    = Some {| consistent := true; errors := []; warnings := [] |}.
Proof.
  assert (acyclic Samples.diamond) as H.
  { apply (ranked_acyclic _ Samples.diamond_rank). vm_compute. reflexivity. }
  split; [exact H|]. apply (check_consistency_acyclic Samples.diamond H).
Defined.

(** C2: two classes that are subclasses of each other make
    [check_consistency] answer [consistent = false] with an error naming
    each of them; in general, when the walk up from a known class meets a
    class of its own path again, the answer is [consistent = false] and the
    errors name the class the walk started from. *)
Theorem check_consistency_cycle (g : GraphDB.t) :
  (∀ a b,
     is_class g a → is_class g b → subclass_edge g a b → subclass_edge g b a →
     ∃ r, check_consistency g = Some r ∧ consistent r = false
          ∧ cycle_error a ∈ errors r ∧ cycle_error b ∈ errors r)
  ∧ (∀ c l,
       c ∈ get_all_classes g → chain g (cls_id c) l → ¬ NoDup (cls_id c :: l) →
       ∃ r, check_consistency g = Some r ∧ consistent r = false
            ∧ cycle_error (cls_id c) ∈ errors r).
Proof.
  split; [|apply cycle_reported].
  intros a b Ha Hb Hab Hba.
  destruct (class_known g a Ha) as (ca & Hca & <-).
  destruct (class_known g b Hb) as (cb & Hcb & <-).
  destruct (cycle_reported g ca [cls_id cb; cls_id ca]) as (r & Hr & Hcons & Hea);
    [done|by repeat split| |].
  { intros Hnd. apply NoDup_cons in Hnd as [Hnotin _]. apply Hnotin.
    right. left. }
  destruct (cycle_reported g cb [cls_id ca; cls_id cb]) as (r' & Hr' & _ & Heb);
    [done|by repeat split| |].
  { intros Hnd. apply NoDup_cons in Hnd as [Hnotin _]. apply Hnotin.
    right. left. }
  exists r. rewrite Hr in Hr'. injection Hr' as <-. done.
Qed.

Lemma check_consistency_cycle_witness :
  ∃ r, check_consistency Samples.two_cycle = Some r ∧ consistent r = false
       ∧ cycle_error "A" ∈ errors r ∧ cycle_error "B" ∈ errors r.
Proof.
  apply (proj1 (check_consistency_cycle Samples.two_cycle) "A" "B").
  - vm_compute. reflexivity.
  - vm_compute. reflexivity.
  - eexists. split; vm_compute; reflexivity.
  - eexists. split; vm_compute; reflexivity.
Defined.

(** ** Depth and ancestors on acyclic stores *)

Section depth.
Context (g : GraphDB.t).

Lemma get_depth_S fuel c :
  get_depth (S fuel) g c
  = match direct_supers g c with
    | [] => Some 0
    | superclasses =>
        (λ ds, 1 + max_list ds) <$> depths_of (get_depth fuel g) superclasses
    end.
Proof.
  transitivity
    (match get_superclasses 1 g c true with
     | None => None
     | Some [] => Some 0
     | Some superclasses =>
         (λ ds, 1 + max_list ds) <$> depths_of (get_depth fuel g) superclasses
     end); [reflexivity|].
  rewrite get_superclasses_direct. by destruct (direct_supers g c).
Qed.

Lemma depths_of_Some rec l :
  (∀ sc, sc ∈ l → is_Some (rec (cls_id sc))) →
  ∃ ds, depths_of rec l = Some ds
        ∧ Forall2 (λ sc d, rec (cls_id sc) = Some d) l ds.
Proof.
  induction l as [|sc l IH]; intros Hall.
  - exists []. by split.
  - destruct (Hall sc) as [d Hd]; [by left|].
    destruct IH as (ds & Hds & HF).
    { intros sc' H. apply Hall. by right. }
    exists (d :: ds). simpl. rewrite Hd, Hds. split; [done|].
    by constructor.
Qed.

Lemma depths_of_inv rec l ds :
  depths_of rec l = Some ds →
  Forall2 (λ sc d, rec (cls_id sc) = Some d) l ds.
Proof.
  revert ds. induction l as [|sc l IH]; intros ds; simpl.
  - intros [= <-]. constructor.
  - destruct (rec (cls_id sc)) as [d|] eqn:E; [|done].
    destruct (depths_of rec l) as [ds'|]; [|done].
    intros [= <-]. constructor; [done|]. by apply IH.
Qed.

Lemma depths_of_Forall2 rec l ds :
  Forall2 (λ sc d, rec (cls_id sc) = Some d) l ds →
  depths_of rec l = Some ds.
Proof.
  induction 1 as [|sc d l ds H _ IH]; [done|].
  simpl. by rewrite H, IH.
Qed.

(** More fuel does not change a depth that was found. *)
Lemma get_depth_mono fuel : ∀ fuel' c d,
  (fuel ≤ fuel')%nat → get_depth fuel g c = Some d → get_depth fuel' g c = Some d.
Proof.
  induction fuel as [|fuel IH]; intros fuel' c d Hle; [done|].
  destruct fuel' as [|fuel']; [lia|].
  rewrite !get_depth_S. destruct (direct_supers g c) as [|sc scs]; [done|].
  generalize (sc :: scs). intros l.
  destruct (depths_of (get_depth fuel g) l) as [ds|] eqn:E; [|done].
  intros [= <-]. apply depths_of_inv in E.
  rewrite (depths_of_Forall2 _ l ds); [done|].
  eapply Forall2_impl; [exact E|]. intros sc' d' H. simpl in H.
  apply IH; [lia|done].
Qed.

Lemma get_depth_lt fuel : ∀ c d, get_depth fuel g c = Some d → (d < fuel)%nat.
Proof.
  induction fuel as [|fuel IH]; intros c d; [done|].
  rewrite get_depth_S. destruct (direct_supers g c) as [|sc scs].
  - intros [= <-]. lia.
  - destruct (depths_of (get_depth fuel g) (sc :: scs)) as [ds|] eqn:E; [|done].
    intros [= <-]. apply depths_of_inv in E.
    assert (Forall (λ d, d < fuel)%nat ds) as Hall.
    { clear -E IH. induction E as [|sc' d l ds H _ IHE]; constructor; [|done].
      by apply IH in H. }
    assert (∀ m, Forall (λ d, d < m)%nat ds → (0 < m)%nat → (max_list ds < m)%nat)
      as Hmax.
    { clear. intros m H Hm. induction H; simpl; lia. }
    inversion E as [|? d0 ? ds0 H0 Hrest]; subst.
    apply IH in H0.
    assert (max_list (d0 :: ds0) < fuel)%nat by (apply Hmax; [done|lia]). lia.
Qed.

Context (Hac : acyclic g).

(** The walk up from a class passes through distinct nodes of the store,
    so it ends within [depth_bound] levels. *)
Lemma get_depth_path fuel : ∀ (path : gset string) c,
  path ⊆ dom (GraphDB.nodes g) →
  (∀ p, p ∈ path → rtc (direct_super g) p c) →
  (size (GraphDB.nodes g) + 1 ≤ fuel + size path)%nat →
  is_Some (get_depth fuel g c).
Proof.
  induction fuel as [|fuel IH]; intros path c Hsub Hreach Hsz.
  - apply subseteq_size in Hsub. rewrite size_dom in Hsub. lia.
  - rewrite get_depth_S. destruct (direct_supers g c) as [|sc scs] eqn:Es; [done|].
    rewrite <- Es.
    destruct (depths_of_Some (get_depth fuel g) (direct_supers g c))
      as (ds & Hds & _).
    + intros sc' Hsc'. apply direct_supers_super in Hsc'.
      assert (cls_id sc' ∉ path) as Hfresh.
      { intros Hin. apply (Hac (cls_id sc')).
        eapply tc_rtc_l; [by apply Hreach|]. by apply tc_once. }
      apply (IH ({[cls_id sc']} ∪ path)).
      * apply union_subseteq. split; [|done].
        apply singleton_subseteq_l. apply is_class_node. by destruct Hsc'.
      * intros p [->%elem_of_singleton|Hp]%elem_of_union; [done|].
        eapply rtc_r; [by apply Hreach|done].
      * rewrite size_union by set_solver. rewrite size_singleton. lia.
    + rewrite Hds. by destruct (direct_supers g c).
Qed.

Lemma get_depth_total c : get_depth (depth_bound g) g c = Some (depth g c).
Proof.
  destruct (get_depth_path (depth_bound g) ∅ c) as [d Hd].
  - set_solver.
  - intros p Hp. by apply elem_of_empty in Hp.
  - unfold depth_bound. lia.
  - unfold depth. by rewrite Hd.
Qed.

Lemma depths_of_depth l :
  depths_of (get_depth (size (GraphDB.nodes g)) g) l = Some (depth g ∘ cls_id <$> l)
  ∨ depths_of (get_depth (size (GraphDB.nodes g)) g) l = None.
Proof.
  destruct (depths_of _ l) as [ds|] eqn:E; [left|by right].
  f_equal. apply depths_of_inv in E.
  induction E as [|sc d l ds H _ IH]; [done|].
  simpl. f_equal; [|done].
  apply (get_depth_mono _ (depth_bound g)) in H; [|unfold depth_bound; lia].
  rewrite get_depth_total in H. by injection H.
Qed.

(** The recurrence of [get_depth], at the fuel [get_statistics] runs it
    with. *)
Lemma depth_eq c :
  depth g c = match direct_supers g c with
              | [] => 0
              | l => 1 + max_list (depth g ∘ cls_id <$> l)
              end.
Proof.
  pose proof (get_depth_total c) as H.
  change (depth_bound g) with (S (size (GraphDB.nodes g))) in H.
  rewrite get_depth_S in H.
  destruct (direct_supers g c) as [|sc scs]; [by injection H|].
  destruct (depths_of_depth (sc :: scs)) as [E|E]; rewrite E in H; [|done].
  by injection H.
Qed.

Lemma depth_super c sc :
  sc ∈ direct_supers g c → (depth g (cls_id sc) < depth g c)%nat.
Proof.
  intros Hin. rewrite (depth_eq c).
  destruct (direct_supers g c) as [|sc' scs] eqn:E; [by apply elem_of_nil in Hin|].
  assert (depth g (cls_id sc) ≤ max_list (depth g ∘ cls_id <$> sc' :: scs))%nat.
  { apply max_list_elem_of_le. apply list_elem_of_fmap. by exists sc. }
  lia.
Qed.

Lemma depth_lt_bound c : (depth g c < depth_bound g)%nat.
Proof. apply (get_depth_lt _ c). apply get_depth_total. Qed.

Lemma ancestor_step c a :
  ancestor g c a ↔
    ∃ sc, sc ∈ direct_supers g c ∧ (a = cls_id sc ∨ ancestor g (cls_id sc) a).
Proof.
  split.
  - intros H. inversion H as [? ? Hs|? y ? Hs Ht]; subst.
    + destruct (direct_super_supers g _ _ Hs) as (sc & Hsc & <-). eauto.
    + destruct (direct_super_supers g _ _ Hs) as (sc & Hsc & <-). eauto.
  - intros (sc & Hsc & [->|Ht]); apply direct_supers_super in Hsc.
    + by apply tc_once.
    + by eapply tc_l.
Qed.

(** [get_superclasses] returns, with exactly the ancestors. *)
Lemma get_superclasses_ancestors fuel : ∀ c,
  (depth g c < fuel)%nat →
  ∃ l, get_superclasses fuel g c false = Some l
       ∧ ∀ a, a ∈ cls_id <$> l ↔ ancestor g c a.
Proof.
  induction fuel as [|fuel IH]; intros c Hd; [lia|].
  rewrite get_superclasses_step.
  assert (∀ sc, sc ∈ direct_supers g c → (depth g (cls_id sc) < fuel)%nat) as Hlt.
  { intros sc Hsc. apply depth_super in Hsc. lia. }
  destruct (collect_Some (λ t, get_superclasses fuel g t false) (direct_supers g c))
    as (r & Hr & Hmem).
  { intros sc Hsc. destruct (IH (cls_id sc)) as (l & -> & _); [by apply Hlt|done]. }
  exists r. split; [done|]. intros a.
  rewrite ancestor_step, list_elem_of_fmap. split.
  - intros (x & -> & Hx). apply Hmem in Hx as (sc & Hsc & Hor).
    exists sc. split; [done|].
    destruct Hor as [->|(ind & Hind & Hin)]; [by left|right].
    destruct (IH (cls_id sc)) as (l & Hl & Hanc); [by apply Hlt|].
    apply Hanc. apply list_elem_of_fmap. exists x. split; [done|congruence].
  - intros (sc & Hsc & Hor). destruct Hor as [->|Hanc'].
    + exists sc. split; [done|]. apply Hmem. exists sc. split; [done|by left].
    + destruct (IH (cls_id sc)) as (l & Hl & Hanc); [by apply Hlt|].
      apply Hanc in Hanc'. apply list_elem_of_fmap in Hanc' as (x & -> & Hx).
      exists x. split; [done|]. apply Hmem. exists sc. split; [done|].
      right. eauto.
Qed.

End depth.

(** C6 (as the code has it): on a store whose subclass relation is
    acyclic, [get_superclasses(c, direct_only=False)] returns, and the list
    holds every class that is reached from [c] by subclass edges through
    classes; a node on which [get_class] raises is passed over together
    with what lies behind it.  Where every subclass edge leads to a class,
    the list holds everything that is reachable from [c] by subclass
    edges, up to the root [owl:Thing]. *)
Theorem get_superclasses_complete (g : GraphDB.t) (c : string) (fuel : nat) :
  acyclic g →
  (depth_bound g ≤ fuel)%nat →
  ∃ l, get_superclasses fuel g c false = Some l
       ∧ (∀ a, ancestor g c a → a ∈ cls_id <$> l)
       ∧ ((∀ x y, subclass_edge g x y → is_class g y) →
          ∀ a, reachable g c a → a ∈ cls_id <$> l).
Proof.
  intros Hac Hfuel.
  destruct (get_superclasses_ancestors g Hac fuel c) as (l & Hl & Hanc).
  - pose proof (depth_lt_bound g Hac c). lia.
  - exists l. split; [done|]. split.
    + intros a. by apply Hanc.
    + intros Hty a Ha. apply Hanc. by apply reachable_ancestor.
Qed.

Lemma get_superclasses_complete_witness :
  ∃ l, get_superclasses (depth_bound Samples.diamond) Samples.diamond "D" false = Some l
       ∧ (∀ a, ancestor Samples.diamond "D" a → a ∈ cls_id <$> l)
       ∧ ((∀ x y, subclass_edge Samples.diamond x y → is_class Samples.diamond y) →
          ∀ a, reachable Samples.diamond "D" a → a ∈ cls_id <$> l).
Proof.
  apply (get_superclasses_complete Samples.diamond "D" (depth_bound Samples.diamond)).
  - apply (ranked_acyclic _ Samples.diamond_rank). vm_compute. reflexivity.
  - lia.
Defined.

(** On the diamond every subclass edge leads to a class, and the root is
    reachable from [D]. *)
Remark diamond_edges_lead_to_classes :
  (∀ x y, subclass_edge Samples.diamond x y → is_class Samples.diamond y)
  ∧ reachable Samples.diamond "D" "owl:Thing".
Proof.
  split.
  - intros x y (ed & He & Hl).
    pose proof (edges_forall Samples.diamond
                  (λ _ y ed,
                     negb (bool_decide (GraphDB.edge_label ed = SUBCLASS_RELATION))
                     || is_ok (get_class Samples.diamond y))) as Hall.
    specialize (Hall ltac:(vm_compute; reflexivity) x y ed He).
    cbv beta in Hall. rewrite (bool_decide_eq_true_2 _ Hl) in Hall.
    unfold is_class. cbn [negb orb] in Hall. exact Hall.
  - apply tc_l with "B"; [|apply tc_l with "A"; [|apply tc_l with "R"; [|apply tc_once]]];
      (eexists; split; vm_compute; reflexivity).
Qed.

(** C6 as stated fails: [C] is created under [N] and [N] under [K] by
    [create_class], and [N] carries the [node_type] of an instance among its
    free-form attributes.  The subclass edges have no cycle, [K] and the
    root are classes reachable from [C] by subclass edges, and
    [get_superclasses] on [C] lists nothing: [get_class] raises on [N],
    which is passed over. *)
Lemma class_behind_non_class_not_listed :
  (∀ x, ¬ reachable Samples.masked x x)
  ∧ is_class Samples.masked "C"
  ∧ is_class Samples.masked "K"
  ∧ is_class Samples.masked "owl:Thing"
  ∧ reachable Samples.masked "C" "K"
  ∧ reachable Samples.masked "C" "owl:Thing"
  ∧ ∀ fuel, get_superclasses (S fuel) Samples.masked "C" false = Some [].
Proof.
  split; [|split; [|split; [|split; [|split; [|split]]]]].
  - intros x Hx. apply (ranked_reachable _ Samples.masked_rank) in Hx; [lia|].
    vm_compute. reflexivity.
  - vm_compute. reflexivity.
  - vm_compute. reflexivity.
  - vm_compute. reflexivity.
  - apply tc_l with "N"; [|apply tc_once];
      (eexists; split; vm_compute; reflexivity).
  - apply tc_l with "N"; [|apply tc_l with "K"; [|apply tc_once]];
      (eexists; split; vm_compute; reflexivity).
  - intros fuel. rewrite get_superclasses_step.
    assert (direct_supers Samples.masked "C" = []) as -> by (vm_compute; reflexivity).
    reflexivity.
Qed.

Section statistics_depth.
Context (g : GraphDB.t) (Hac : acyclic g).

Lemma max_depth_loop_spec classes m0 :
  max_depth_loop g classes m0
  = Some (m0 `max` max_list (depth g ∘ cls_id <$> classes)).
Proof.
  revert m0. induction classes as [|c classes IH]; intros m0; simpl.
  - apply (f_equal Some). lia.
  - rewrite (get_depth_total g Hac), IH. apply (f_equal Some).
    symmetry. apply Nat.max_assoc.
Qed.

Lemma get_statistics_Some :
  ∃ s, get_statistics g = Some s
       ∧ total_classes s = length (get_all_classes g)
       ∧ total_properties s = length (get_all_properties g)
       ∧ total_object_properties s = count_type OBJECT (get_all_properties g)
       ∧ total_data_properties s = count_type DATA (get_all_properties g)
       ∧ total_annotation_properties s = count_type ANNOTATION (get_all_properties g)
       ∧ max_hierarchy_depth s = max_list (depth g ∘ cls_id <$> get_all_classes g).
Proof.
  unfold get_statistics. rewrite max_depth_loop_spec.
  eexists. split; [reflexivity|]. simpl. by repeat split.
Qed.

End statistics_depth.

(** C9 (as the code has it): on an acyclic store [get_statistics] returns
    and [max_hierarchy_depth] is the largest depth over all classes, where
    the depth of a class is 0 when it has no direct superclass (the root)
    and 1 + the largest depth of its direct superclasses otherwise; a class
    directly under the root therefore has depth 1. *)
Theorem max_hierarchy_depth_spec (g : GraphDB.t) :
  acyclic g →
  ∃ s, get_statistics g = Some s
       ∧ max_hierarchy_depth s = max_list (depth g ∘ cls_id <$> get_all_classes g)
       ∧ (∀ c, get_depth (depth_bound g) g c = Some (depth g c))
       ∧ (∀ c, direct_supers g c = [] → depth g c = 0)
       ∧ (∀ c, direct_supers g c ≠ [] →
               depth g c = 1 + max_list (depth g ∘ cls_id <$> direct_supers g c))
       ∧ (∀ c r, direct_supers g c = [r] → direct_supers g (cls_id r) = [] →
                 depth g c = 1).
Proof.
  intros Hac.
  destruct (get_statistics_Some g Hac) as (s & Hs & _ & _ & _ & _ & _ & Hmax).
  exists s. split; [done|]. split; [done|].
  split; [apply (get_depth_total g Hac)|].
  split; [|split].
  - intros c Hc. by rewrite (depth_eq g Hac), Hc.
  - intros c Hc. rewrite (depth_eq g Hac c).
    by destruct (direct_supers g c).
  - intros c r Hc Hr. rewrite (depth_eq g Hac c), Hc. simpl.
    rewrite (depth_eq g Hac (cls_id r)), Hr. done.
Qed.

Lemma max_hierarchy_depth_spec_witness :
  ∃ s, get_statistics Samples.diamond = Some s
       ∧ max_hierarchy_depth s
         = max_list (depth Samples.diamond ∘ cls_id <$> get_all_classes Samples.diamond).
Proof.
  destruct (max_hierarchy_depth_spec Samples.diamond) as (s & Hs & Hmax & _).
  - apply (ranked_acyclic _ Samples.diamond_rank). vm_compute. reflexivity.
  - exists s. by split.
Defined.

(** C9 as stated fails: a class directly under the root has depth 1, not
    0, and the store that holds just such a class has
    [max_hierarchy_depth = 1]. *)
Lemma root_adjacent_depth_is_one :
  cls_id <$> direct_supers Samples.one_class "A" = ["owl:Thing"]
  ∧ direct_supers Samples.one_class "owl:Thing" = []
  ∧ get_depth (depth_bound Samples.one_class) Samples.one_class "A" = Some 1
  ∧ get_depth (depth_bound Samples.one_class) Samples.one_class "A" ≠ Some 0
  ∧ max_hierarchy_depth <$> get_statistics Samples.one_class = Some 1.
Proof.
  repeat split; try (vm_compute; reflexivity).
  vm_compute. discriminate.
Qed.

(** ** Property inheritance *)

Section inheritance.
Context (g : GraphDB.t).

Lemma compute_S fuel c visited :
  compute_inherited_properties (S fuel) g c visited
  = if bool_decide (c ∈ visited) then Some (Ok [], visited)
    else match get_class g c with
         | Raise (NodeNotFoundError _) => Some (Ok [], {[c]} ∪ visited)
         | Raise e => Some (Raise e, {[c]} ∪ visited)
         | Ok class_obj =>
             inherit_loop g (compute_inherited_properties fuel g)
               (cls_parent_classes class_obj) [] ({[c]} ∪ visited)
         end.
Proof. reflexivity. Qed.

(** The loop only appends to what it has collected. *)
Lemma inherit_loop_extends rec ps : ∀ inh v l v',
  inherit_loop g rec ps inh v = Some (Ok l, v') → ∃ l', l = inh ++ l'.
Proof.
  induction ps as [|p ps IH]; intros inh v l v'; simpl.
  - intros [= <- <-]. exists []. by rewrite app_nil_r.
  - repeat case_match; try done; intros Hl; apply IH in Hl as [l' ->];
      eexists; by rewrite <- ?app_assoc.
Qed.

(** [get_class] raises one of two exceptions. *)
Lemma get_class_Raise c e :
  get_class g c = Raise e →
  (∃ m, e = NodeNotFoundError m) ∧ c ∉ dom (GraphDB.nodes g)
  ∨ (∃ m, e = ValidationError m) ∧ c ∈ dom (GraphDB.nodes g).
Proof.
  unfold get_class. destruct (GraphDB.node_exists g c) eqn:E; simpl.
  - apply node_exists_true in E. case_bool_decide; [|done].
    intros [= <-]. right. eauto.
  - intros [= <-]. left. split; [eauto|].
    apply node_exists_false in E. by apply not_elem_of_dom.
Qed.

Lemma inherit_loop_total rec v0 ps : ∀ inh v,
  rec_total g v0 rec → v0 ⊆ v →
  ∃ r v', inherit_loop g rec ps inh v = Some (r, v') ∧ v ⊆ v'.
Proof.
  induction ps as [|p ps IH]; intros inh v Hrec Hv; simpl.
  - eauto.
  - case_bool_decide; [by apply IH|].
    destruct (get_class g p) as [pc|e] eqn:Ep.
    + destruct (Hrec p v) as (r & v' & -> & Hsub); [|done|].
      { apply is_class_alt. eauto. }
      destruct r as [gp|[]].
      * destruct (IH (inh ++ (from_parent (cls_label pc) <$> get_class_properties g p)
                        ++ (from_grandparent (cls_label pc) <$> gp)) v')
          as (r & v'' & Hr & Hsub'); [done|set_solver|].
        rewrite <- app_assoc. rewrite Hr. exists r, v''. split; [done|set_solver].
      * destruct (IH (inh ++ (from_parent (cls_label pc) <$> get_class_properties g p)) v')
          as (r & v'' & Hr & Hsub'); [done|set_solver|].
        rewrite Hr. exists r, v''. split; [done|set_solver].
      * eauto.
      * eauto.
    + destruct e; eauto.
Qed.

(** [compute_inherited_properties] returns on every store: a class enters
    the shared set before its parents are walked. *)
Lemma compute_total fuel : ∀ c v,
  (size (dom (GraphDB.nodes g) ∖ v) < fuel)%nat →
  ∃ r v', compute_inherited_properties fuel g c v = Some (r, v') ∧ v ⊆ v'.
Proof.
  induction fuel as [|fuel IH]; intros c v Hsz; [lia|].
  rewrite compute_S. case_bool_decide as Hin; [eauto|].
  destruct (get_class g c) as [cls|e] eqn:Ec.
  - apply get_class_Ok in Ec as (_ & Hdom & _).
    destruct (inherit_loop_total (compute_inherited_properties fuel g)
                ({[c]} ∪ v) (cls_parent_classes cls) [] ({[c]} ∪ v))
      as (r & v' & Hr & Hsub); [|done|].
    + intros p w _ Hw. apply IH.
      assert (dom (GraphDB.nodes g) ∖ w ⊂ dom (GraphDB.nodes g) ∖ v) as Hlt
        by set_solver.
      apply subset_size in Hlt. lia.
    + exists r, v'. split; [done|set_solver].
  - destruct e; eexists _, _; (split; [done|set_solver]).
Qed.

Lemma inherit_loop_bounded rec ps : ∀ inh v r v',
  rec_bounded g rec →
  inherit_loop g rec ps inh v = Some (r, v') →
  ∀ x, x ∈ v' →
    x ∈ v ∨ ∃ p, p ∈ ps ∧ is_class g p ∧ (x = p ∨ ancestor g p x).
Proof.
  induction ps as [|p ps IH]; intros inh v r v' Hrec; simpl.
  - intros [= <- <-] x Hx. by left.
  - assert (∀ inh' w,
              (∀ x, x ∈ w → x ∈ v ∨ is_class g p ∧ (x = p ∨ ancestor g p x)) →
              inherit_loop g rec ps inh' w = Some (r, v') →
              ∀ x, x ∈ v' →
                x ∈ v ∨ ∃ q, q ∈ p :: ps ∧ is_class g q ∧ (x = q ∨ ancestor g q x))
      as Hnext.
    { intros inh' w Hw Hloop x Hx.
      destruct (IH _ _ _ _ Hrec Hloop x Hx) as [Hxw|(q & Hq & Hcq & Hor)].
      - destruct (Hw x Hxw) as [?|[? ?]]; [by left|].
        right. exists p. split; [by left|done].
      - right. exists q. split; [by right|done]. }
    case_bool_decide.
    { apply Hnext. by left. }
    destruct (get_class g p) as [pc|e] eqn:Ep.
    + assert (is_class g p) as Hcp by (apply is_class_alt; eauto).
      destruct (rec p v) as [[rr w]|] eqn:Er; [|done].
      pose proof (Hrec _ _ _ _ Er) as Hb.
      destruct rr as [gp|[]].
      * apply Hnext. intros x Hx. destruct (Hb x Hx) as [?|?]; [by left|by right].
      * apply Hnext. intros x Hx. destruct (Hb x Hx) as [?|?]; [by left|by right].
      * intros [= <- <-] x Hx. destruct (Hb x Hx) as [?|?]; [by left|].
        right. exists p. split; [by left|done].
      * intros [= <- <-] x Hx. destruct (Hb x Hx) as [?|?]; [by left|].
        right. exists p. split; [by left|done].
    + destruct e; [apply Hnext; by left| |]; intros [= <- <-] x Hx; by left.
Qed.

Lemma compute_bounded fuel : rec_bounded g (compute_inherited_properties fuel g).
Proof.
  induction fuel as [|fuel IH]; intros c v r v'; [done|].
  rewrite compute_S. case_bool_decide as Hin.
  { intros [= <- <-] x Hx. by left. }
  destruct (get_class g c) as [cls|e] eqn:Ec.
  - intros Hloop x Hx.
    destruct (inherit_loop_bounded _ _ _ _ _ _ IH Hloop x Hx)
      as [[->%elem_of_singleton|Hxv]%elem_of_union|(p & Hp & Hcp & Hor)].
    + right. by left.
    + by left.
    + right. right.
      apply get_class_Ok in Ec as (_ & _ & _ & Hps). rewrite Hps in Hp.
      apply elem_of_edge_targets in Hp.
      assert (direct_super g c p) as Hstep by done.
      destruct Hor as [->|Hanc]; [by apply tc_once|by eapply tc_l].
  - destruct e; intros [= <- <-] x
      [->%elem_of_singleton|Hxv]%elem_of_union; auto.
Qed.

(** No collected property is flagged as required. *)
Lemma get_class_properties_required c :
  Forall (λ e, pe_required e = false) (get_class_properties g c).
Proof.
  unfold get_class_properties. apply Forall_fmap, Forall_forall. done.
Qed.

Lemma inherit_loop_required rec ps : ∀ inh v l v',
  (∀ p w l' w', rec p w = Some (Ok l', w') → Forall (λ e, pe_required e = false) l') →
  Forall (λ e, pe_required e = false) inh →
  inherit_loop g rec ps inh v = Some (Ok l, v') →
  Forall (λ e, pe_required e = false) l.
Proof.
  induction ps as [|p ps IH]; intros inh v l v' Hrec Hinh; simpl.
  - by intros [= <- <-].
  - case_bool_decide; [by apply IH|].
    destruct (get_class g p) as [pc|e] eqn:Ep.
    + assert (Forall (λ e, pe_required e = false)
                (inh ++ (from_parent (cls_label pc) <$> get_class_properties g p)))
        as Hinh'.
      { apply Forall_app. split; [done|]. apply Forall_fmap.
        eapply Forall_impl; [apply get_class_properties_required|done]. }
      destruct (rec p v) as [[[gp|[]] w]|] eqn:Er; try done.
      * apply IH; [done|]. apply Forall_app. split; [done|].
        apply Forall_fmap. eapply Forall_impl; [by eapply Hrec|done].
      * by apply IH.
    + destruct e; try done. by apply IH.
Qed.

Lemma compute_required fuel : ∀ c v l v',
  compute_inherited_properties fuel g c v = Some (Ok l, v') →
  Forall (λ e, pe_required e = false) l.
Proof.
  induction fuel as [|fuel IH]; intros c v l v'; [done|].
  rewrite compute_S. case_bool_decide; [by intros [= <- <-]|].
  destruct (get_class g c) as [cls|[]]; try done.
  - apply inherit_loop_required; [|done]. intros p w l' w'. apply IH.
  - by intros [= <- <-].
Qed.

(** [NodeNotFoundError] never leaves [compute_inherited_properties]. *)
Lemma inherit_loop_raise rec ps : ∀ inh v e v',
  (∀ p w e' w', rec p w = Some (Raise e', w') → ∃ m, e' = ValidationError m) →
  inherit_loop g rec ps inh v = Some (Raise e, v') → ∃ m, e = ValidationError m.
Proof.
  induction ps as [|p ps IH]; intros inh v e v' Hrec; simpl; [done|].
  case_bool_decide; [by apply IH|].
  destruct (get_class g p) as [pc|e0] eqn:Ep.
  - destruct (rec p v) as [[[gp|e1] w]|] eqn:Er; try done.
    + by apply IH.
    + destruct (Hrec _ _ _ _ Er) as [m ->]. intros [= <- <-]. eauto.
  - destruct (get_class_Raise _ _ Ep) as [[[m ->] _]|[[m ->] _]].
    + by apply IH.
    + intros [= <- <-]. eauto.
Qed.

Lemma compute_raise fuel : ∀ c v e v',
  compute_inherited_properties fuel g c v = Some (Raise e, v') →
  ∃ m, e = ValidationError m.
Proof.
  induction fuel as [|fuel IH]; intros c v e v'; [done|].
  rewrite compute_S. case_bool_decide; [done|].
  destruct (get_class g c) as [cls|e0] eqn:Ec.
  - apply inherit_loop_raise. intros p w e' w'. apply IH.
  - destruct (get_class_Raise _ _ Ec) as [[[m ->] _]|[[m ->] _]]; [done|].
    intros [= <- <-]. eauto.
Qed.

(** On a typed hierarchy nothing is raised at all. *)
Lemma inherit_loop_ok rec c ps : ∀ inh v r v',
  hierarchy_typed g →
  (∀ p, p ∈ ps → subclass_edge g c p) →
  (∀ p w r' w', is_class g p → rec p w = Some (r', w') → is_ok r' = true) →
  inherit_loop g rec ps inh v = Some (r, v') → is_ok r = true.
Proof.
  intros inh v r v' Hty Hps Hrec. revert inh v.
  induction ps as [|p ps IH]; intros inh v; simpl.
  - by intros [= <- <-].
  - assert (∀ q, q ∈ ps → subclass_edge g c q) as Hps'.
    { intros q Hq. apply Hps. by right. }
    case_bool_decide; [by apply IH|].
    destruct (get_class g p) as [pc|e0] eqn:Ep.
    + assert (is_class g p) as Hcp by (apply is_class_alt; eauto).
      destruct (rec p v) as [[[gp|e1] w]|] eqn:Er; try done.
      * by apply IH.
      * by apply Hrec in Er.
    + destruct (get_class_Raise _ _ Ep) as [[[m ->] _]|[[m ->] Hdom]].
      * by apply IH.
      * assert (is_class g p) as [? Hc]%is_class_alt.
        { apply Hty with c; [|done]. apply Hps. by left. }
        congruence.
Qed.

Lemma compute_ok fuel : ∀ c v r v',
  hierarchy_typed g →
  (c ∈ dom (GraphDB.nodes g) → is_class g c) →
  compute_inherited_properties fuel g c v = Some (r, v') → is_ok r = true.
Proof.
  induction fuel as [|fuel IH]; intros c v r v' Hty Hc; [done|].
  rewrite compute_S. case_bool_decide; [by intros [= <- <-]|].
  destruct (get_class g c) as [cls|e0] eqn:Ec.
  - apply inherit_loop_ok with c; [done| |].
    + intros p Hp. apply get_class_Ok in Ec as (_ & _ & _ & Hps).
      rewrite Hps in Hp. by apply elem_of_edge_targets in Hp.
    + intros p w r' w' Hp. by apply IH.
  - destruct (get_class_Raise _ _ Ec) as [[[m ->] _]|[[m ->] Hdom]].
    + by intros [= <- <-].
    + apply Hc in Hdom as [? ?]%is_class_alt. congruence.
Qed.

End inheritance.

(** ** Instance validation *)

Lemma missing_required_error properties prop :
  pe_required prop = true →
  properties !! pe_id prop = None ∨ properties !! pe_id prop = Some PyNone →
  missing_required properties prop = Some (missing_error prop).
Proof.
  intros Hreq Hmiss. unfold missing_required, missing_error. rewrite Hreq.
  destruct Hmiss as [-> | ->]; simpl; by case_bool_decide.
Qed.

Lemma validate_instance_properties_empty g class_id properties :
  ∃ r, validate_instance_properties g class_id properties = Some r
       ∧ ∀ errors, r = Ok errors → errors = [].
Proof.
  unfold validate_instance_properties, get_class_full.
  destruct (get_class g class_id) as [cls|e]; [|by eexists].
  destruct (compute_total g (depth_bound g) class_id ∅) as (r & v & Hr & _).
  { apply depth_bound_enough. }
  rewrite Hr. destruct r as [l|e]; [|by eexists].
  eexists. split; [done|]. intros errors [= <-]. simpl.
  assert (Forall (λ e, pe_required e = false)
            (get_class_properties g class_id ++ l)) as Hall.
  { apply Forall_app. split; [apply get_class_properties_required|].
    by eapply compute_required. }
  unfold check_required. induction Hall as [|e l' He _ IH]; [done|].
  simpl. unfold missing_required at 1. by rewrite He.
Qed.

(** C1 (as the code has it): for every property of the combined list that
    is flagged required and absent or null in the supplied map, the
    validation loop reports the error naming its label and, when inherited,
    its source; but [get_class_properties] flags no property as required,
    so [validate_instance_properties] returns, and any error list it
    returns is empty. *)
Theorem validate_instance_properties_spec
    (g : GraphDB.t) (class_id : string) (properties : gmap string pyval) :
  (∀ all_props prop,
     prop ∈ all_props → pe_required prop = true →
     properties !! pe_id prop = None ∨ properties !! pe_id prop = Some PyNone →
     missing_error prop ∈ check_required all_props properties)
  ∧ (∃ r, validate_instance_properties g class_id properties = Some r
          ∧ ∀ errors, r = Ok errors → errors = []).
Proof.
  split; [|apply validate_instance_properties_empty].
  intros all_props prop Hin Hreq Hmiss.
  unfold check_required. apply list_elem_of_omap. exists prop.
  split; [done|]. by apply missing_required_error.
Qed.

Lemma validate_instance_properties_spec_witness :
  "Missing required property 'name' (inherited from Animal)"
  ∈ check_required
      [from_parent (PyStr "Animal")
         {| pe_id := "name"; pe_label := PyStr "name"; pe_property_type := "data";
            pe_description := PyStr ""; pe_range := []; pe_required := true;
            pe_source := PyStr "direct"; pe_inheritance_path := None |}]
      ∅.
Proof.
  apply (proj1 (validate_instance_properties_spec Samples.animals "Dog" ∅)
           _ (from_parent (PyStr "Animal")
                {| pe_id := "name"; pe_label := PyStr "name";
                   pe_property_type := "data"; pe_description := PyStr "";
                   pe_range := []; pe_required := true;
                   pe_source := PyStr "direct"; pe_inheritance_path := None |})).
  - by left.
  - reflexivity.
  - left. reflexivity.
Defined.

(** C1 as stated fails: [name] is declared on [Animal] and inherited by
    [Dog] with source [Animal], and a [Dog] without [name] validates with
    no error. *)
Lemma dog_without_name_validates :
  validate_instance_properties Samples.animals "Dog" ∅ = Some (Ok [])
  ∧ match get_class_full Samples.animals "Dog" with
    | Some (Ok cf) => cf_all_properties cf
    | _ => []
    end
    = [{| pe_id := "name"; pe_label := PyStr "name";
          pe_property_type := "data"; pe_description := PyStr "";
          pe_range := []; pe_required := false;
          pe_source := PyStr "Animal";
          pe_inheritance_path := Some [PyStr "Animal"] |}].
Proof. split; vm_compute; reflexivity. Qed.

(** ** Inheritance paths *)

Section paths.
Context (g : GraphDB.t).

Lemma get_property_Ok P p :
  get_property g P = Ok p →
  prop_id p = P ∧ P ∈ dom (GraphDB.nodes g)
  ∧ _get_node_data g P !! "node_type" = Some (PyStr PROPERTY_TYPE)
  ∧ prop_domain p = edge_targets g P DOMAIN_RELATION
  ∧ prop_range p = edge_targets g P RANGE_RELATION.
Proof.
  unfold get_property.
  destruct (GraphDB.node_exists g P) eqn:E; simpl; [|done].
  apply node_exists_true in E.
  case_bool_decide as Hty; [done|].
  destruct (PropertyType_of _); [|done]. by intros [= <-].
Qed.

Lemma property_known P p : get_property g P = Ok p → p ∈ get_all_properties g.
Proof.
  intros Hp. pose proof Hp as (_ & Hdom & Hty & _)%get_property_Ok.
  unfold get_all_properties. apply list_elem_of_omap. exists P. split.
  - by apply elem_of_get_all_nodes.
  - rewrite Hp, (bool_decide_eq_true_2 _ Hty).
    rewrite bool_decide_eq_true_2; [done|].
    intros Hempty. rewrite Hempty in Hty. by rewrite lookup_empty in Hty.
Qed.

Lemma get_class_properties_elem P p c :
  get_property g P = Ok p → c ∈ prop_domain p →
  direct_entry p ∈ get_class_properties g c.
Proof.
  intros Hp Hc. unfold get_class_properties. apply list_elem_of_fmap.
  exists p. split; [done|]. apply list_elem_of_In, filter_In.
  split; [apply list_elem_of_In; by eapply property_known|].
  by apply bool_decide_eq_true.
Qed.

(** The direct properties of a parent are listed, whatever was visited. *)
Lemma inherit_loop_parent rec b clsb e ps : ∀ inh v l v',
  b ∈ ps → b ≠ "owl:Thing" → get_class g b = Ok clsb →
  e ∈ get_class_properties g b →
  inherit_loop g rec ps inh v = Some (Ok l, v') →
  ∃ l1 l2, l = inh ++ l1 ++ from_parent (cls_label clsb) e :: l2.
Proof.
  intros inh v l v' Hin Hne Hb He. revert inh v.
  apply list_elem_of_split in He as (d1 & d2 & Hd).
  induction ps as [|p ps IH]; intros inh v; [by apply elem_of_nil in Hin|].
  assert (∀ inh' w stuff, inh' = inh ++ stuff → b ∈ ps →
            inherit_loop g rec ps inh' w = Some (Ok l, v') →
            ∃ l1 l2, l = inh ++ l1 ++ from_parent (cls_label clsb) e :: l2)
    as Hnext.
  { intros inh' w stuff -> Hin' Hloop.
    destruct (IH Hin' _ _ Hloop) as (l1 & l2 & ->).
    exists (stuff ++ l1), l2. by rewrite <- !app_assoc. }
  destruct (decide (p = b)) as [->|Hpb].
  - simpl. rewrite bool_decide_eq_false_2 by done. rewrite Hb, Hd.
    destruct (rec b v) as [[[gp|[]] w]|]; try done.
    + intros (l' & ->)%inherit_loop_extends.
      exists (from_parent (cls_label clsb) <$> d1),
             ((from_parent (cls_label clsb) <$> d2)
                ++ (from_grandparent (cls_label clsb) <$> gp) ++ l').
      rewrite fmap_app, fmap_cons. by rewrite <- !app_assoc.
    + intros (l' & ->)%inherit_loop_extends.
      exists (from_parent (cls_label clsb) <$> d1),
             ((from_parent (cls_label clsb) <$> d2) ++ l').
      rewrite fmap_app, fmap_cons. by rewrite <- !app_assoc.
  - apply elem_of_cons in Hin as [?|Hin]; [done|].
    simpl. case_bool_decide.
    { apply (Hnext inh v []); [by rewrite app_nil_r|done]. }
    destruct (get_class g p) as [pc|[]]; try done.
    + destruct (rec p v) as [[[gp|[]] w]|]; try done.
      * eapply Hnext; [|done]. by rewrite <- app_assoc.
      * eapply Hnext; [|done]. done.
    + apply (Hnext inh v []); [by rewrite app_nil_r|done].
Qed.

Lemma compute_yields_parent fuel c clsc b clsb e :
  get_class g c = Ok clsc → subclass_edge g c b →
  b ≠ "owl:Thing" → get_class g b = Ok clsb →
  e ∈ get_class_properties g b →
  yields (compute_inherited_properties fuel g) c (from_parent (cls_label clsb) e).
Proof.
  intros Hc Hcb Hne Hb He w r w' Hw.
  destruct fuel as [|fuel]; [done|].
  rewrite compute_S, bool_decide_eq_false_2, Hc by done.
  intros Hloop. destruct r as [rl|e0].
  - assert (b ∈ cls_parent_classes clsc) as Hin.
    { apply get_class_Ok in Hc as (_ & _ & _ & ->).
      by apply elem_of_edge_targets. }
    destruct (inherit_loop_parent _ b clsb e _ _ _ _ _ Hin Hne Hb He Hloop)
      as (l1 & l2 & ->).
    eauto.
  - apply inherit_loop_raise in Hloop as [m ->]; [done|].
    intros p w0 e' w0'. apply compute_raise.
Qed.

(** What a parent inherited is passed on with the parent's label in front,
    provided the parent was not visited before its turn. *)
Lemma inherit_loop_grandparent rec c clsc e ps : ∀ inh v l v',
  rec_bounded g rec → yields rec c e →
  c ∈ ps → c ≠ "owl:Thing" → get_class g c = Ok clsc → c ∉ v →
  (∀ p, p ∈ ps → p ≠ c → ¬ ancestor g p c) →
  inherit_loop g rec ps inh v = Some (Ok l, v') →
  ∃ l1 l2, l = inh ++ l1 ++ from_grandparent (cls_label clsc) e :: l2.
Proof.
  intros inh v l v' Hbd Hy Hin Hne Hc. revert inh v.
  induction ps as [|p ps IH]; intros inh v Hv Hps; [by apply elem_of_nil in Hin|].
  assert (∀ inh' w stuff, inh' = inh ++ stuff → c ∈ ps → c ∉ w →
            inherit_loop g rec ps inh' w = Some (Ok l, v') →
            ∃ l1 l2, l = inh ++ l1 ++ from_grandparent (cls_label clsc) e :: l2)
    as Hnext.
  { intros inh' w stuff -> Hin' Hw Hloop.
    destruct (IH Hin' (inh ++ stuff) w Hw) as (l1 & l2 & ->); [|done|].
    - intros q Hq. apply Hps. by right.
    - exists (stuff ++ l1), l2. by rewrite <- !app_assoc. }
  destruct (decide (p = c)) as [->|Hpc].
  - simpl. rewrite bool_decide_eq_false_2 by done. rewrite Hc.
    destruct (rec c v) as [[r w]|] eqn:Er; [|done].
    pose proof (Hy _ _ _ Hv Er) as Hr.
    destruct r as [gp|[]]; try done.
    destruct Hr as (r1 & r2 & ->).
    intros (l' & ->)%inherit_loop_extends.
    exists ((from_parent (cls_label clsc) <$> get_class_properties g c)
              ++ (from_grandparent (cls_label clsc) <$> r1)),
           ((from_grandparent (cls_label clsc) <$> r2) ++ l').
    rewrite fmap_app, fmap_cons. by rewrite <- !app_assoc.
  - apply elem_of_cons in Hin as [?|Hin]; [done|].
    simpl. case_bool_decide.
    { apply (Hnext inh v []); [by rewrite app_nil_r|done|done]. }
    destruct (get_class g p) as [pc|[]]; try done.
    + destruct (rec p v) as [[r w]|] eqn:Er; [|done].
      assert (c ∉ w) as Hw.
      { intros Hcw. destruct (Hbd _ _ _ _ Er c Hcw) as [?|[?|Hanc]]; [done|done|].
        apply (Hps p); [by left|done|done]. }
      destruct r as [gp|[]]; try done.
      * eapply Hnext; [|done|done]. by rewrite <- app_assoc.
      * eapply Hnext; [|done|done]. done.
    + apply (Hnext inh v []); [by rewrite app_nil_r|done|done].
Qed.

(** Two parents that are both unvisited at their turn pass on one entry
    each. *)
Lemma inherit_loop_two rec b clsb eb c clsc ec ps : ∀ inh v l v',
  rec_bounded g rec → yields rec b eb → yields rec c ec →
  b ≠ c →
  b ∈ ps → b ≠ "owl:Thing" → get_class g b = Ok clsb → b ∉ v →
  c ∈ ps → c ≠ "owl:Thing" → get_class g c = Ok clsc → c ∉ v →
  (∀ p, p ∈ ps → p ≠ b → ¬ ancestor g p b) →
  (∀ p, p ∈ ps → p ≠ c → ¬ ancestor g p c) →
  inherit_loop g rec ps inh v = Some (Ok l, v') →
  ∃ l1 l2 l3 x y,
    l = inh ++ l1 ++ x :: l2 ++ y :: l3
    ∧ (x = from_grandparent (cls_label clsb) eb
       ∧ y = from_grandparent (cls_label clsc) ec
       ∨ x = from_grandparent (cls_label clsc) ec
         ∧ y = from_grandparent (cls_label clsb) eb).
Proof.
  intros inh v l v' Hbd Hyb Hyc Hbc Hinb Hneb Hb Hvb Hinc Hnec Hc Hvc.
  revert inh v Hvb Hvc.
  induction ps as [|p ps IH]; intros inh v Hvb Hvc Hpsb Hpsc;
    [by apply elem_of_nil in Hinb|].
  assert (∀ q, q ∈ ps → q ≠ b → ¬ ancestor g q b) as Hpsb'.
  { intros q Hq. apply Hpsb. by right. }
  assert (∀ q, q ∈ ps → q ≠ c → ¬ ancestor g q c) as Hpsc'.
  { intros q Hq. apply Hpsc. by right. }
  destruct (decide (p = b)) as [->|Hpb]; [|destruct (decide (p = c)) as [->|Hpc]].
  - (* [b] comes first *)
    apply elem_of_cons in Hinc as [?|Hinc]; [done|].
    simpl. rewrite bool_decide_eq_false_2 by done. rewrite Hb.
    destruct (rec b v) as [[r w]|] eqn:Er; [|done].
    pose proof (Hyb _ _ _ Hvb Er) as Hr.
    assert (c ∉ w) as Hw.
    { intros Hcw. destruct (Hbd _ _ _ _ Er c Hcw) as [?|[?|Hanc]]; [done|done|].
      apply (Hpsc b); [by left|done|done]. }
    destruct r as [gp|[]]; try done.
    destruct Hr as (r1 & r2 & ->). intros Hloop.
    destruct (inherit_loop_grandparent rec c clsc ec ps _ _ _ _ Hbd Hyc
                Hinc Hnec Hc Hw Hpsc' Hloop) as (l1 & l2 & ->).
    exists ((from_parent (cls_label clsb) <$> get_class_properties g b)
              ++ (from_grandparent (cls_label clsb) <$> r1)),
           ((from_grandparent (cls_label clsb) <$> r2) ++ l1), l2,
           (from_grandparent (cls_label clsb) eb),
           (from_grandparent (cls_label clsc) ec).
    split; [|left; done].
    rewrite fmap_app, fmap_cons. by rewrite <- !app_assoc.
  - (* [c] comes first *)
    apply elem_of_cons in Hinb as [?|Hinb]; [done|].
    simpl. rewrite bool_decide_eq_false_2 by done. rewrite Hc.
    destruct (rec c v) as [[r w]|] eqn:Er; [|done].
    pose proof (Hyc _ _ _ Hvc Er) as Hr.
    assert (b ∉ w) as Hw.
    { intros Hbw. destruct (Hbd _ _ _ _ Er b Hbw) as [?|[?|Hanc]]; [done|done|].
      apply (Hpsb c); [by left|done|done]. }
    destruct r as [gp|[]]; try done.
    destruct Hr as (r1 & r2 & ->). intros Hloop.
    destruct (inherit_loop_grandparent rec b clsb eb ps _ _ _ _ Hbd Hyb
                Hinb Hneb Hb Hw Hpsb' Hloop) as (l1 & l2 & ->).
    exists ((from_parent (cls_label clsc) <$> get_class_properties g c)
              ++ (from_grandparent (cls_label clsc) <$> r1)),
           ((from_grandparent (cls_label clsc) <$> r2) ++ l1), l2,
           (from_grandparent (cls_label clsc) ec),
           (from_grandparent (cls_label clsb) eb).
    split; [|right; done].
    rewrite fmap_app, fmap_cons. by rewrite <- !app_assoc.
  - (* another parent comes first *)
    apply elem_of_cons in Hinb as [?|Hinb]; [done|].
    apply elem_of_cons in Hinc as [?|Hinc]; [done|].
    assert (∀ inh' w stuff, inh' = inh ++ stuff → b ∉ w → c ∉ w →
              inherit_loop g rec ps inh' w = Some (Ok l, v') →
              ∃ l1 l2 l3 x y,
                l = inh ++ l1 ++ x :: l2 ++ y :: l3
                ∧ (x = from_grandparent (cls_label clsb) eb
                   ∧ y = from_grandparent (cls_label clsc) ec
                   ∨ x = from_grandparent (cls_label clsc) ec
                     ∧ y = from_grandparent (cls_label clsb) eb))
      as Hnext.
    { intros inh' w stuff -> Hwb Hwc Hloop.
      destruct (IH Hinb Hinc (inh ++ stuff) w Hwb Hwc Hpsb' Hpsc' Hloop)
        as (l1 & l2 & l3 & x & y & -> & Hxy).
      exists (stuff ++ l1), l2, l3, x, y. split; [|done].
      by rewrite <- !app_assoc. }
    simpl. case_bool_decide.
    { apply (Hnext inh v []); [by rewrite app_nil_r|done|done]. }
    destruct (get_class g p) as [pc|[]]; try done.
    + destruct (rec p v) as [[r w]|] eqn:Er; [|done].
      assert (b ∉ w) as Hwb.
      { intros Hbw. destruct (Hbd _ _ _ _ Er b Hbw) as [?|[?|Hanc]]; [done|done|].
        apply (Hpsb p); [by left|done|done]. }
      assert (c ∉ w) as Hwc.
      { intros Hcw. destruct (Hbd _ _ _ _ Er c Hcw) as [?|[?|Hanc]]; [done|done|].
        apply (Hpsc p); [by left|done|done]. }
      destruct r as [gp|[]]; try done.
      * eapply Hnext; [|done|done]. by rewrite <- app_assoc.
      * eapply Hnext; [|done|done]. done.
    + apply (Hnext inh v []); [by rewrite app_nil_r|done|done].
Qed.

End paths.

Section inherited.
Context (g : GraphDB.t).

Lemma compute_returns_ok fuel c cls :
  hierarchy_typed g → get_class g c = Ok cls → (depth_bound g ≤ fuel)%nat →
  ∃ l v, compute_inherited_properties fuel g c ∅ = Some (Ok l, v).
Proof.
  intros Hty Hc Hfuel.
  destruct (compute_total g fuel c ∅) as (r & v & Hr & _).
  { pose proof (depth_bound_enough g ∅). lia. }
  pose proof (compute_ok g fuel c ∅ r v Hty) as Hok.
  destruct r as [l|e]; [eauto|].
  exfalso. assert (is_ok (Raise (A:=list prop_entry) e) = true); [|done].
  apply Hok; [|done]. intros _. apply is_class_alt. eauto.
Qed.

Lemma compute_top fuel c cls l v :
  get_class g c = Ok cls →
  compute_inherited_properties fuel g c ∅ = Some (Ok l, v) →
  ∃ fuel', fuel = S fuel'
    ∧ inherit_loop g (compute_inherited_properties fuel' g)
        (edge_targets g c SUBCLASS_RELATION) [] ({[c]} ∪ ∅) = Some (Ok l, v).
Proof.
  intros Hc. destruct fuel as [|fuel]; [done|].
  rewrite compute_S, bool_decide_eq_false_2, Hc by set_solver.
  apply get_class_Ok in Hc as (_ & _ & _ & ->). eauto.
Qed.

End inherited.

(** C5 (as the code has it): if [D] has parent [C] and [C] has parent [B],
    neither of them the root, [P] has [B] in its domain, and [C] is reached
    from [D] before any other parent of [D] visited it ([C] is not [D] and
    no other parent of [D] has [C] as an ancestor), then on a store whose
    subclass edges lead to classes [compute_inherited_properties(D)] returns
    a list with an entry for [P] whose source is the label of [B] and whose
    inheritance path is [C.label, B.label], nearest ancestor first. *)
Theorem inheritance_path_nearest_first (g : GraphDB.t)
    (d c b : string) (clsd clsc clsb : OntologyClass)
    (P : string) (p : OntologyProperty) (fuel : nat) :
  hierarchy_typed g →
  get_class g d = Ok clsd → get_class g c = Ok clsc → get_class g b = Ok clsb →
  subclass_edge g d c → subclass_edge g c b →
  c ≠ "owl:Thing" → b ≠ "owl:Thing" → c ≠ d →
  (∀ e, subclass_edge g d e → e ≠ c → ¬ ancestor g e c) →
  get_property g P = Ok p → b ∈ prop_domain p →
  (depth_bound g ≤ fuel)%nat →
  ∃ l v, compute_inherited_properties fuel g d ∅ = Some (Ok l, v)
         ∧ ∃ e, e ∈ l ∧ pe_id e = P ∧ pe_source e = cls_label clsb
                ∧ pe_inheritance_path e = Some [cls_label clsc; cls_label clsb].
Proof.
  intros Hty Hd Hc Hb Hdc Hcb Hnc Hnb Hcd Hfirst Hp Hdom Hfuel.
  destruct (compute_returns_ok g fuel d clsd Hty Hd Hfuel) as (l & v & Hl).
  exists l, v. split; [done|].
  destruct (compute_top g _ _ _ _ _ Hd Hl) as (fuel' & -> & Hloop).
  pose proof (get_class_properties_elem g P p b Hp Hdom) as He.
  destruct (inherit_loop_grandparent g (compute_inherited_properties fuel' g)
              c clsc (from_parent (cls_label clsb) (direct_entry p))
              (edge_targets g d SUBCLASS_RELATION) [] ({[d]} ∪ ∅) l v)
    as (l1 & l2 & ->); try done.
  - apply compute_bounded.
  - by apply compute_yields_parent with clsc b.
  - by apply elem_of_edge_targets.
  - set_solver.
  - intros e He'. apply Hfirst. by apply elem_of_edge_targets in He'.
  - exists (from_grandparent (cls_label clsc)
              (from_parent (cls_label clsb) (direct_entry p))).
    split; [set_solver|]. simpl.
    apply get_property_Ok in Hp as (-> & _). done.
Qed.

Lemma inheritance_path_nearest_first_witness :
  ∃ l v, compute_inherited_properties (depth_bound Samples.line) Samples.line "D" ∅
         = Some (Ok l, v)
         ∧ ∃ e, e ∈ l ∧ pe_id e = "P" ∧ pe_source e = PyStr "B"
                ∧ pe_inheritance_path e = Some [PyStr "C"; PyStr "B"].
Proof.
  assert (∃ clsd, get_class Samples.line "D" = Ok clsd) as [clsd Hd]
    by (eexists; vm_compute; reflexivity).
  assert (∃ p, get_property Samples.line "P" = Ok p ∧ "B" ∈ prop_domain p)
    as (p & Hp & Hdom).
  { eexists. split; [vm_compute; reflexivity|]. simpl. set_solver. }
  apply (inheritance_path_nearest_first Samples.line "D" "C" "B"
           clsd
           {| cls_id := "C"; cls_label := PyStr "C"; cls_description := PyStr "";
              cls_parent_classes := ["B"]; cls_equivalent_classes := [];
              cls_disjoint_classes := []; cls_is_abstract := PyBool false;
              cls_properties := ∅ |}
           {| cls_id := "B"; cls_label := PyStr "B"; cls_description := PyStr "";
              cls_parent_classes := ["owl:Thing"]; cls_equivalent_classes := [];
              cls_disjoint_classes := []; cls_is_abstract := PyBool false;
              cls_properties := ∅ |}
           "P" p (depth_bound Samples.line)); try done.
  - apply typed_check_sound. vm_compute. reflexivity.
  - eexists. split; vm_compute; reflexivity.
  - eexists. split; vm_compute; reflexivity.
  - intros e He%elem_of_edge_targets Hne.
    vm_compute in He. apply list_elem_of_singleton in He. done.
Defined.

(** C5 as stated fails when the ancestor is the root: [D] has parent [C],
    [C] has parent [owl:Thing], [P] has [owl:Thing] in its domain, and
    [compute_inherited_properties(D)] is empty. *)
Lemma root_properties_not_inherited :
  edge_targets Samples.under_root "D" SUBCLASS_RELATION = ["C"]
  ∧ edge_targets Samples.under_root "C" SUBCLASS_RELATION = ["owl:Thing"]
  ∧ prop_domain <$> get_all_properties Samples.under_root = [["owl:Thing"]]
  ∧ inherited_views Samples.under_root "D" = Some [].
Proof. repeat split; vm_compute; reflexivity. Qed.

(** It also fails when another parent of [D] reaches [C] first: the entry
    then carries the longer path only. *)
Lemma shadowed_parent_path :
  edge_targets Samples.shadowed "D" SUBCLASS_RELATION = ["G"; "C"]
  ∧ edge_targets Samples.shadowed "C" SUBCLASS_RELATION = ["B"]
  ∧ inherited_views Samples.shadowed "D"
    = Some [("P", PyStr "B", Some [PyStr "G"; PyStr "C"; PyStr "B"])].
Proof. repeat split; vm_compute; reflexivity. Qed.

(** C4 (as the code has it): when two distinct parents [B] and [C] of [D]
    both have the class [A] as a direct parent, none of them the root,
    and each of [B] and [C] is reached from [D] before another parent of
    [D] visited it, a property [P] declared on [A] is listed twice by
    [compute_inherited_properties(D)], once with the path
    [B.label, A.label] and once with [C.label, A.label]; the two entries
    are not merged. *)
Theorem diamond_property_listed_twice (g : GraphDB.t)
    (d b c a : string) (clsd clsb clsc clsa : OntologyClass)
    (P : string) (p : OntologyProperty) (fuel : nat) :
  hierarchy_typed g →
  get_class g d = Ok clsd → get_class g b = Ok clsb →
  get_class g c = Ok clsc → get_class g a = Ok clsa →
  subclass_edge g d b → subclass_edge g d c →
  subclass_edge g b a → subclass_edge g c a →
  b ≠ c → b ≠ "owl:Thing" → c ≠ "owl:Thing" → a ≠ "owl:Thing" →
  b ≠ d → c ≠ d →
  (∀ e, subclass_edge g d e → e ≠ b → ¬ ancestor g e b) →
  (∀ e, subclass_edge g d e → e ≠ c → ¬ ancestor g e c) →
  get_property g P = Ok p → a ∈ prop_domain p →
  (depth_bound g ≤ fuel)%nat →
  ∃ l v, compute_inherited_properties fuel g d ∅ = Some (Ok l, v)
    ∧ ∃ l1 l2 l3 x y,
        l = l1 ++ x :: l2 ++ y :: l3
        ∧ pe_id x = P ∧ pe_id y = P
        ∧ pe_source x = cls_label clsa ∧ pe_source y = cls_label clsa
        ∧ (pe_inheritance_path x = Some [cls_label clsb; cls_label clsa]
           ∧ pe_inheritance_path y = Some [cls_label clsc; cls_label clsa]
           ∨ pe_inheritance_path x = Some [cls_label clsc; cls_label clsa]
             ∧ pe_inheritance_path y = Some [cls_label clsb; cls_label clsa]).
Proof.
  intros Hty Hd Hb Hc Ha Hdb Hdc Hba Hca Hbc Hnb Hnc Hna Hbd Hcd
         Hfb Hfc Hp Hdom Hfuel.
  destruct (compute_returns_ok g fuel d clsd Hty Hd Hfuel) as (l & v & Hl).
  exists l, v. split; [done|].
  destruct (compute_top g _ _ _ _ _ Hd Hl) as (fuel' & -> & Hloop).
  pose proof (get_class_properties_elem g P p a Hp Hdom) as He.
  destruct (inherit_loop_two g (compute_inherited_properties fuel' g)
              b clsb (from_parent (cls_label clsa) (direct_entry p))
              c clsc (from_parent (cls_label clsa) (direct_entry p))
              (edge_targets g d SUBCLASS_RELATION) [] ({[d]} ∪ ∅) l v)
    as (l1 & l2 & l3 & x & y & -> & Hxy); try done.
  - apply compute_bounded.
  - by apply compute_yields_parent with clsb a.
  - by apply compute_yields_parent with clsc a.
  - by apply elem_of_edge_targets.
  - set_solver.
  - by apply elem_of_edge_targets.
  - set_solver.
  - intros e He'. apply Hfb. by apply elem_of_edge_targets in He'.
  - intros e He'. apply Hfc. by apply elem_of_edge_targets in He'.
  - apply get_property_Ok in Hp as (Hid & _).
    exists l1, l2, l3, x, y. split; [done|].
    destruct Hxy as [[-> ->]|[-> ->]]; simpl; rewrite Hid;
      repeat split; auto.
Qed.

Lemma diamond_property_listed_twice_witness :
  ∃ l v, compute_inherited_properties (depth_bound Samples.diamond)
           Samples.diamond "D" ∅ = Some (Ok l, v)
    ∧ ∃ l1 l2 l3 x y,
        l = l1 ++ x :: l2 ++ y :: l3
        ∧ pe_id x = "Q" ∧ pe_id y = "Q"
        ∧ pe_source x = PyStr "A" ∧ pe_source y = PyStr "A"
        ∧ (pe_inheritance_path x = Some [PyStr "B"; PyStr "A"]
           ∧ pe_inheritance_path y = Some [PyStr "C"; PyStr "A"]
           ∨ pe_inheritance_path x = Some [PyStr "C"; PyStr "A"]
             ∧ pe_inheritance_path y = Some [PyStr "B"; PyStr "A"]).
Proof.
  assert (∃ clsd, get_class Samples.diamond "D" = Ok clsd) as [clsd Hd]
    by (eexists; vm_compute; reflexivity).
  assert (∃ p, get_property Samples.diamond "Q" = Ok p ∧ "A" ∈ prop_domain p)
    as (p & Hp & Hdom).
  { eexists. split; [vm_compute; reflexivity|]. apply (list_elem_of_here "A" []). }
  assert (ranked Samples.diamond_rank Samples.diamond = true) as Hrk
    by (vm_compute; reflexivity).
  assert (∀ x e, x = "B" ∨ x = "C" →
            subclass_edge Samples.diamond "D" e → e ≠ x →
            ¬ ancestor Samples.diamond e x) as Hfirst.
  { intros x e Hx He%elem_of_edge_targets Hne Hanc.
    apply (ranked_ancestor _ Samples.diamond_rank) in Hanc; [|exact Hrk].
    vm_compute in He.
    apply elem_of_cons in He as [->|He];
      [|apply list_elem_of_singleton in He as ->];
      destruct Hx as [-> | ->];
      first [exfalso; apply Hne; reflexivity | vm_compute in Hanc; lia]. }
  apply (diamond_property_listed_twice Samples.diamond "D" "B" "C" "A"
           clsd
           {| cls_id := "B"; cls_label := PyStr "B"; cls_description := PyStr "";
              cls_parent_classes := ["A"]; cls_equivalent_classes := [];
              cls_disjoint_classes := []; cls_is_abstract := PyBool false;
              cls_properties := ∅ |}
           {| cls_id := "C"; cls_label := PyStr "C"; cls_description := PyStr "";
              cls_parent_classes := ["A"]; cls_equivalent_classes := [];
              cls_disjoint_classes := []; cls_is_abstract := PyBool false;
              cls_properties := ∅ |}
           {| cls_id := "A"; cls_label := PyStr "A"; cls_description := PyStr "";
              cls_parent_classes := ["R"]; cls_equivalent_classes := [];
              cls_disjoint_classes := []; cls_is_abstract := PyBool false;
              cls_properties := ∅ |}
           "Q" p (depth_bound Samples.diamond)).
  - apply typed_check_sound. vm_compute. reflexivity.
  - exact Hd.
  - vm_compute. reflexivity.
  - vm_compute. reflexivity.
  - vm_compute. reflexivity.
  - eexists. split; vm_compute; reflexivity.
  - eexists. split; vm_compute; reflexivity.
  - eexists. split; vm_compute; reflexivity.
  - eexists. split; vm_compute; reflexivity.
  - discriminate.
  - discriminate.
  - discriminate.
  - discriminate.
  - discriminate.
  - discriminate.
  - intros e. apply Hfirst. by left.
  - intros e. apply Hfirst. by right.
  - exact Hp.
  - exact Hdom.
  - apply le_n.
Defined.

(** C4 as stated fails above the point where the two paths join: [R] is an
    ancestor of [D] along [B], [A], [R] and along [C], [A], [R], [P] is
    declared on [R], and [P] is listed once. *)
Lemma property_above_join_listed_once :
  chain Samples.diamond "D" ["B"; "A"; "R"]
  ∧ chain Samples.diamond "D" ["C"; "A"; "R"]
  ∧ match get_property Samples.diamond "P" with
    | Ok p => prop_domain p
    | Raise _ => []
    end = ["R"]
  ∧ List.filter (λ e, String.eqb e.1.1 "P") <$> inherited_views Samples.diamond "D"
    = Some [("P", PyStr "R", Some [PyStr "C"; PyStr "A"; PyStr "R"])].
Proof.
  repeat split;
    try (eexists; split; vm_compute; reflexivity);
    vm_compute; reflexivity.
Qed.

(** ** Writing to the store *)

Section writes.

Ltac same_condition :=
  match goal with
  | |- (if bool_decide ?P then _ else _) = (if bool_decide ?Q then _ else _) =>
      rewrite (bool_decide_ext P Q); [done|]
  end.

Lemma add_edges_nodes f l ts : ∀ g,
  GraphDB.nodes (add_edges_if_exist f l g ts) = GraphDB.nodes g.
Proof.
  unfold add_edges_if_exist.
  induction ts as [|t ts IH]; intros g; [done|].
  simpl. rewrite IH. by destruct (GraphDB.node_exists g t).
Qed.

Lemma add_edges_lookup f l ts : ∀ g x y,
  GraphDB.edges (add_edges_if_exist f l g ts) !! (x, y)
  = if bool_decide (x = f ∧ y ∈ ts ∧ y ∈ dom (GraphDB.nodes g))
    then Some {| GraphDB.edge_label := l;
                 GraphDB.edge_weight := GraphDB.default_weight |}
    else GraphDB.edges g !! (x, y).
Proof.
  unfold add_edges_if_exist.
  induction ts as [|t ts IH]; intros g x y.
  - simpl. rewrite bool_decide_eq_false_2; [done|].
    intros (_ & ?%elem_of_nil & _). done.
  - simpl. rewrite IH.
    destruct (GraphDB.node_exists g t) eqn:Et.
    + apply node_exists_true in Et. simpl.
      destruct (decide ((f, t) = (x, y))) as [[= <- <-]|Hne].
      * rewrite lookup_insert_eq.
        rewrite (bool_decide_eq_true_2 (f = f ∧ t ∈ t :: ts ∧ _));
          [by case_bool_decide|].
        split; [done|]. split; [by left|done].
      * rewrite lookup_insert_ne by done.
        same_condition. rewrite elem_of_cons. naive_solver.
    + apply node_exists_false in Et. apply not_elem_of_dom in Et.
      same_condition. rewrite elem_of_cons. naive_solver.
Qed.

Lemma add_parents_nodes f ts : ∀ g,
  GraphDB.nodes (foldl (λ g t, GraphDB.add_edge g f t SUBCLASS_RELATION 1) g ts)
  = GraphDB.nodes g.
Proof. induction ts as [|t ts IH]; intros g; [done|]. simpl. by rewrite IH. Qed.

Lemma add_parents_lookup f ts : ∀ g x y,
  GraphDB.edges (foldl (λ g t, GraphDB.add_edge g f t SUBCLASS_RELATION 1) g ts)
    !! (x, y)
  = if bool_decide (x = f ∧ y ∈ ts)
    then Some {| GraphDB.edge_label := SUBCLASS_RELATION; GraphDB.edge_weight := 1 |}
    else GraphDB.edges g !! (x, y).
Proof.
  induction ts as [|t ts IH]; intros g x y.
  - simpl. rewrite bool_decide_eq_false_2; [done|].
    intros (_ & ?%elem_of_nil). done.
  - simpl. rewrite IH. simpl.
    destruct (decide ((f, t) = (x, y))) as [[= <- <-]|Hne].
    + rewrite lookup_insert_eq.
      rewrite (bool_decide_eq_true_2 (f = f ∧ t ∈ t :: ts));
        [by case_bool_decide|].
      split; [done|by left].
    + rewrite lookup_insert_ne by done.
      same_condition. rewrite elem_of_cons. naive_solver.
Qed.

Lemma find_missing_None (g : GraphDB.t) (ps : list string) :
  List.find (λ p, negb (GraphDB.node_exists g p)) ps = None
  ↔ ∀ p, p ∈ ps → p ∈ dom (GraphDB.nodes g).
Proof.
  induction ps as [|p ps IH]; simpl.
  - split; [|done]. intros _ p Hp. by apply elem_of_nil in Hp.
  - destruct (GraphDB.node_exists g p) eqn:E; simpl.
    + apply node_exists_true in E. rewrite IH. split.
      * intros H q [->|Hq]%elem_of_cons; auto.
      * intros H q Hq. apply H. by right.
    + split; [done|]. intros H. exfalso.
      apply node_exists_false, not_elem_of_dom in E. apply E, H. by left.
Qed.

End writes.

(** ** Creating and reading back a class *)

Section class_round_trip.
Context (g : GraphDB.t) (X : OntologyClass).

(** What an accepted [create_class] leaves in the store. *)
Lemma create_class_inv g' X' :
  create_class g X = Ok (g', X') →
  GraphDB.nodes g !! cls_id X = None
  ∧ (∀ p, p ∈ cls_parent_classes X → p ∈ dom (GraphDB.nodes g))
  ∧ cls_parent_classes X' = effective_parents X
  ∧ GraphDB.nodes g' = <[cls_id X := class_node_data X]> (GraphDB.nodes g)
  ∧ ∀ x y,
      GraphDB.edges g' !! (x, y)
      = if bool_decide (x = cls_id X ∧ y ∈ cls_disjoint_classes X
                        ∧ y ∈ dom (GraphDB.nodes g'))
        then Some (edge "owl:disjointWith" GraphDB.default_weight)
        else if bool_decide (x = cls_id X ∧ y ∈ cls_equivalent_classes X
                             ∧ y ∈ dom (GraphDB.nodes g'))
        then Some (edge "owl:equivalentClass" GraphDB.default_weight)
        else if bool_decide (x = cls_id X ∧ y ∈ effective_parents X)
        then Some (edge SUBCLASS_RELATION 1)
        else GraphDB.edges g !! (x, y).
Proof.
  unfold create_class.
  destruct (GraphDB.node_exists g (cls_id X)) eqn:Ef; [done|].
  destruct (List.find _ (cls_parent_classes X)) eqn:Ep; [done|].
  apply node_exists_false in Ef.
  pose proof (proj1 (find_missing_None _ _) Ep) as Hps.
  intros [= <- <-]. split; [done|]. split; [done|]. split; [done|].
  rewrite !add_edges_nodes, add_parents_nodes. split; [done|].
  intros x y. rewrite !add_edges_lookup, !add_edges_nodes, add_parents_nodes.
  rewrite add_parents_lookup. done.
Qed.

Lemma create_class_accepted :
  GraphDB.nodes g !! cls_id X = None →
  (∀ p, p ∈ cls_parent_classes X → p ∈ dom (GraphDB.nodes g)) →
  ∃ g' X', create_class g X = Ok (g', X').
Proof.
  intros Hf Hp. unfold create_class.
  apply node_exists_false in Hf. rewrite Hf.
  apply (proj2 (find_missing_None _ _)) in Hp. rewrite Hp. eauto.
Qed.

Lemma class_node_data_lookup k :
  class_node_data X !! k
  = match cls_properties X !! k with
    | Some v => Some v
    | None =>
        (<["label" := cls_label X]>
         (<["node_type" := PyStr CLASS_TYPE]>
          (<["description" := py_or (cls_description X) (PyStr "")]>
           (<["is_abstract" := cls_is_abstract X]> (∅ : gmap string pyval))))) !! k
    end.
Proof.
  unfold class_node_data, dict_update.
  destruct (cls_properties X !! k) as [v|] eqn:E.
  - by apply lookup_union_Some_l.
  - by apply lookup_union_r.
Qed.

(** [get_class] on the class just created. *)
Lemma get_class_created g' X' :
  create_class g X = Ok (g', X') →
  edges_closed g →
  cls_properties X !! "node_type" = None →
  ∃ c, get_class g' (cls_id X) = Ok c
       ∧ cls_label c = default (cls_label X) (cls_properties X !! "label")
       ∧ cls_description c
         = default (py_or (cls_description X) (PyStr ""))
                   (cls_properties X !! "description")
       ∧ NoDup (cls_parent_classes c)
       ∧ ∀ y, y ∈ cls_parent_classes c ↔
              y ∈ effective_parents X
              ∧ ¬ (y ∈ cls_disjoint_classes X ∧ y ∈ dom (GraphDB.nodes g'))
              ∧ ¬ (y ∈ cls_equivalent_classes X ∧ y ∈ dom (GraphDB.nodes g')).
Proof.
  intros (Hfresh & _ & _ & Hnodes & Hedges)%create_class_inv Hclosed Hty.
  assert (_get_node_data g' (cls_id X) = class_node_data X) as Hdata.
  { unfold _get_node_data, GraphDB.get_node. by rewrite Hnodes, lookup_insert_eq. }
  assert (class_node_data X !! "node_type" = Some (PyStr CLASS_TYPE)) as Hnt.
  { by rewrite class_node_data_lookup, Hty. }
  unfold get_class.
  assert (GraphDB.node_exists g' (cls_id X) = true) as ->.
  { apply node_exists_true. rewrite Hnodes. set_solver. }
  simpl. rewrite Hdata, bool_decide_eq_false_2 by (by intros []).
  eexists. split; [done|]. simpl.
  split; [|split; [|split; [apply NoDup_edge_targets|]]].
  - unfold py_get. rewrite class_node_data_lookup.
    by destruct (cls_properties X !! "label").
  - unfold py_get. rewrite class_node_data_lookup.
    by destruct (cls_properties X !! "description").
  - intros y. rewrite elem_of_edge_targets, Hedges.
    assert (GraphDB.edges g !! (cls_id X, y) = None) as Hnone.
    { apply eq_None_not_Some. intros [Hx _]%Hclosed.
      by apply not_elem_of_dom in Hfresh. }
    rewrite Hnone. split.
    + intros (ed & Hed & Hl). repeat case_bool_decide; simplify_eq; try done.
      naive_solver.
    + intros (Hy & Hd & He).
      rewrite (bool_decide_eq_false_2 (_ ∧ y ∈ cls_disjoint_classes X ∧ _))
        by naive_solver.
      rewrite (bool_decide_eq_false_2 (_ ∧ y ∈ cls_equivalent_classes X ∧ _))
        by naive_solver.
      rewrite bool_decide_eq_true_2 by done. eauto.
Qed.

End class_round_trip.

(** C7 (as the code has it): a class object accepted by [create_class]
    whose free-form attributes do not use the keys [label], [description],
    [node_type] and [data], and whose equivalent and disjoint lists name
    none of its parents, is read back by [get_class] with the same label,
    with its description (an absent or empty one as the empty string), and
    with the parents supplied, each once and in the order of the store;
    when none was supplied the parents are exactly [owl:Thing].  The key
    [data] is the one under which [_get_node_data] looks for the attribute
    map in what the store hands out. *)
Theorem create_class_round_trip (g : GraphDB.t) (X : OntologyClass) :
  edges_closed g →
  GraphDB.node_exists g (cls_id X) = false →
  (∀ p, p ∈ cls_parent_classes X → GraphDB.node_exists g p = true) →
  cls_properties X !! "label" = None →
  cls_properties X !! "description" = None →
  cls_properties X !! "node_type" = None →
  cls_properties X !! "data" = None →
  (∀ y, y ∈ cls_equivalent_classes X ++ cls_disjoint_classes X →
        y ∉ effective_parents X) →
  ∃ g' X' c,
    create_class g X = Ok (g', X')
    ∧ get_class g' (cls_id X) = Ok c
    ∧ cls_label c = cls_label X
    ∧ cls_description c = py_or (cls_description X) (PyStr "")
    ∧ (py_truthy (cls_description X) = true → cls_description c = cls_description X)
    ∧ cls_parent_classes c ≡ₚ remove_dups (effective_parents X)
    ∧ (cls_parent_classes X = [] → cls_parent_classes c = ["owl:Thing"]).
Proof.
  intros Hclosed Hfresh Hps Hl Hd Hnt _ Hdisj.
  destruct (create_class_accepted g X) as (g' & X' & Hcreate).
  { by apply node_exists_false. }
  { intros p Hp. by apply node_exists_true, Hps. }
  destruct (get_class_created g X g' X' Hcreate Hclosed Hnt)
    as (c & Hget & Hlabel & Hdesc & Hnd & Hpar).
  rewrite Hl in Hlabel. rewrite Hd in Hdesc. simpl in *.
  assert (cls_parent_classes c ≡ₚ remove_dups (effective_parents X)) as Hperm.
  { apply NoDup_Permutation; [done|apply NoDup_remove_dups|].
    intros y. rewrite elem_of_remove_dups, Hpar. split; [by intros [? _]|].
    intros Hy. split; [done|].
    split; intros [Hin _]; apply (Hdisj y); set_solver. }
  exists g', X', c. repeat split; try done.
  - intros Ht. rewrite Hdesc. unfold py_or. by rewrite Ht.
  - intros Hnil. unfold effective_parents in Hperm. rewrite Hnil in Hperm.
    simpl in Hperm. by apply Permutation_singleton_r in Hperm.
Qed.

Lemma edges_closed_init : edges_closed init.
Proof.
  assert (GraphDB.edges init = ∅) as Hempty by (vm_compute; reflexivity).
  intros x y [ed Hed]. rewrite Hempty in Hed. by rewrite lookup_empty in Hed.
Qed.

Lemma closed_check_sound g : closed_check g = true → edges_closed g.
Proof.
  intros Hc x y [ed Hed]. unfold closed_check in Hc.
  rewrite forallb_forall in Hc. specialize (Hc ((x, y), ed)). simpl in Hc.
  assert (GraphDB.node_exists g x && GraphDB.node_exists g y = true) as H.
  { apply Hc, list_elem_of_In. by apply elem_of_map_to_list. }
  apply andb_true_iff in H as [Hx Hy]. by split; apply node_exists_true.
Qed.

Lemma create_class_round_trip_witness :
  ∃ g' X' c,
    create_class Samples.animals Samples.cat = Ok (g', X')
    ∧ get_class g' (cls_id Samples.cat) = Ok c
    ∧ cls_label c = cls_label Samples.cat
    ∧ cls_description c = py_or (cls_description Samples.cat) (PyStr "")
    ∧ (py_truthy (cls_description Samples.cat) = true →
       cls_description c = cls_description Samples.cat)
    ∧ cls_parent_classes c ≡ₚ remove_dups (effective_parents Samples.cat)
    ∧ (cls_parent_classes Samples.cat = [] → cls_parent_classes c = ["owl:Thing"]).
Proof.
  apply (create_class_round_trip Samples.animals Samples.cat).
  - apply closed_check_sound. vm_compute. reflexivity.
  - vm_compute. reflexivity.
  - intros p Hp. pose proof (proj1 (list_elem_of_singleton p "Animal") Hp) as ->.
    vm_compute. reflexivity.
  - reflexivity.
  - reflexivity.
  - reflexivity.
  - reflexivity.
  - intros y Hy Hin. pose proof (proj1 (list_elem_of_singleton y "Dog") Hy) as ->.
    pose proof (proj1 (list_elem_of_singleton "Dog" "Animal") Hin) as Heq.
    discriminate.
Defined.

(** C7 as stated fails: the class is accepted, and it is read back with
    the label of its free-form attributes and with the empty string for
    the description it did not have. *)
Lemma relabelled_class_round_trip :
  GraphDB.node_exists init (cls_id Samples.relabelled) = false
  ∧ cls_label Samples.relabelled = PyStr "A"
  ∧ cls_description Samples.relabelled = PyNone
  ∧ class_round_trip init Samples.relabelled
    = Ok {| cls_id := "A";
            cls_label := PyStr "Other";
            cls_description := PyStr "";
            cls_parent_classes := ["owl:Thing"];
            cls_equivalent_classes := [];
            cls_disjoint_classes := [];
            cls_is_abstract := PyBool false;
            cls_properties := ∅ |}.
Proof. repeat split; vm_compute; reflexivity. Qed.

(** ** Creating and reading back a property *)

Section property_round_trip.
Context (g : GraphDB.t) (P : OntologyProperty).

Lemma create_property_inv g' P' :
  create_property g P = Ok (g', P') →
  GraphDB.nodes g !! prop_id P = None
  ∧ P' = P
  ∧ GraphDB.nodes g' = <[prop_id P := property_node_data P]> (GraphDB.nodes g)
  ∧ ∀ x y,
      GraphDB.edges g' !! (x, y)
      = if bool_decide (x = prop_id P ∧ y ∈ prop_range P
                        ∧ y ∈ dom (GraphDB.nodes g'))
        then Some (edge RANGE_RELATION GraphDB.default_weight)
        else if bool_decide (x = prop_id P ∧ y ∈ prop_domain P
                             ∧ y ∈ dom (GraphDB.nodes g'))
        then Some (edge DOMAIN_RELATION GraphDB.default_weight)
        else GraphDB.edges g !! (x, y).
Proof.
  unfold create_property.
  destruct (GraphDB.node_exists g (prop_id P)) eqn:Ef; [done|].
  apply node_exists_false in Ef.
  intros [= <- <-]. split; [done|]. split; [done|].
  rewrite !add_edges_nodes. split; [done|].
  intros x y. by rewrite !add_edges_lookup, !add_edges_nodes.
Qed.

Lemma create_property_accepted :
  GraphDB.nodes g !! prop_id P = None → ∃ g', create_property g P = Ok (g', P).
Proof.
  intros Hf. unfold create_property.
  apply node_exists_false in Hf. rewrite Hf. eauto.
Qed.

Lemma PropertyType_of_value ty :
  PropertyType_of (PyStr (PropertyType_value ty)) = Ok ty.
Proof. by destruct ty. Qed.

(** [get_property] on the property just created. *)
Lemma get_property_created g' P' :
  create_property g P = Ok (g', P') →
  edges_closed g →
  ∃ p, get_property g' (prop_id P) = Ok p
       ∧ prop_label p = prop_label P
       ∧ prop_property_type p = prop_property_type P
       ∧ NoDup (prop_domain p) ∧ NoDup (prop_range p)
       ∧ (∀ y, y ∈ prop_range p ↔
               y ∈ prop_range P ∧ y ∈ dom (GraphDB.nodes g'))
       ∧ (∀ y, y ∈ prop_domain p ↔
               y ∈ prop_domain P ∧ y ∈ dom (GraphDB.nodes g')
               ∧ y ∉ prop_range P).
Proof.
  intros (Hfresh & _ & Hnodes & Hedges)%create_property_inv Hclosed.
  assert (_get_node_data g' (prop_id P) = property_node_data P) as Hdata.
  { unfold _get_node_data, GraphDB.get_node. by rewrite Hnodes, lookup_insert_eq. }
  unfold get_property.
  assert (GraphDB.node_exists g' (prop_id P) = true) as ->.
  { apply node_exists_true. rewrite Hnodes. set_solver. }
  simpl. rewrite Hdata.
  assert (property_node_data P !! "node_type" = Some (PyStr PROPERTY_TYPE)) as Hnt
    by done.
  rewrite bool_decide_eq_false_2 by (by intros []).
  assert (py_get (property_node_data P) "property_type" (PyStr "object")
          = PyStr (PropertyType_value (prop_property_type P))) as -> by done.
  rewrite PropertyType_of_value.
  eexists. split; [done|]. simpl.
  split; [done|]. split; [done|].
  split; [apply NoDup_edge_targets|]. split; [apply NoDup_edge_targets|].
  assert (∀ y, GraphDB.edges g !! (prop_id P, y) = None) as Hnone.
  { intros y. apply eq_None_not_Some. intros [Hx _]%Hclosed.
    by apply not_elem_of_dom in Hfresh. }
  split; intros y; rewrite elem_of_edge_targets, Hedges, Hnone.
  - split.
    + intros (ed & Hed & Hl). repeat case_bool_decide; simplify_eq; naive_solver.
    + intros [Hy Hd]. rewrite bool_decide_eq_true_2 by done. eauto.
  - split.
    + intros (ed & Hed & Hl). repeat case_bool_decide; simplify_eq; naive_solver.
    + intros (Hy & Hd & Hr). rewrite bool_decide_eq_false_2 by naive_solver.
      rewrite bool_decide_eq_true_2 by done. eauto.
Qed.

End property_round_trip.

(** C10 (as the code has it): a property with a new id whose domain and
    range name no graph node in common is accepted by [create_property]
    whatever else the two lists name, and [get_property] then returns as
    domain the supplied domain entries that are graph nodes and as range
    the supplied range entries that are graph nodes (the property itself
    being one), each once; entries that are not nodes are dropped without
    error. *)
Theorem create_property_round_trip (g : GraphDB.t) (P : OntologyProperty) :
  edges_closed g →
  GraphDB.node_exists g (prop_id P) = false →
  (∀ y, y ∈ prop_domain P → y ∈ prop_range P →
        GraphDB.node_exists g y = false ∧ y ≠ prop_id P) →
  ∃ g' p,
    create_property g P = Ok (g', P)
    ∧ get_property g' (prop_id P) = Ok p
    ∧ NoDup (prop_domain p) ∧ NoDup (prop_range p)
    ∧ (∀ y, y ∈ prop_range p ↔
            y ∈ prop_range P ∧ (y ∈ dom (GraphDB.nodes g) ∨ y = prop_id P))
    ∧ (∀ y, y ∈ prop_domain p ↔
            y ∈ prop_domain P ∧ (y ∈ dom (GraphDB.nodes g) ∨ y = prop_id P)).
Proof.
  intros Hclosed Hfresh Hshared. apply node_exists_false in Hfresh.
  destruct (create_property_accepted g P Hfresh) as (g' & Hcreate).
  destruct (get_property_created g P g' P Hcreate Hclosed)
    as (p & Hget & _ & _ & Hnd & Hnr & Hrange & Hdomain).
  pose proof (create_property_inv g P g' P Hcreate) as (_ & _ & Hnodes & _).
  assert (∀ y, y ∈ dom (GraphDB.nodes g') ↔
               y ∈ dom (GraphDB.nodes g) ∨ y = prop_id P) as Hdom.
  { intros y. rewrite Hnodes, dom_insert. set_solver. }
  exists g', p. do 4 (split; [done|]). split; intros y.
  - by rewrite Hrange, Hdom.
  - rewrite Hdomain, Hdom. split; [by intros (? & ? & _)|].
    intros [Hy Hnode]. split; [done|]. split; [done|].
    intros Hr. destruct (Hshared y Hy Hr) as [Hmissing Hne].
    destruct Hnode as [Hnode|Heq]; [|done].
    apply node_exists_true in Hnode. congruence.
Qed.

Lemma create_property_round_trip_witness :
  ∃ g' p,
    create_property Samples.people Samples.name = Ok (g', Samples.name)
    ∧ get_property g' (prop_id Samples.name) = Ok p
    ∧ NoDup (prop_domain p) ∧ NoDup (prop_range p)
    ∧ (∀ y, y ∈ prop_range p ↔
            y ∈ prop_range Samples.name
            ∧ (y ∈ dom (GraphDB.nodes Samples.people) ∨ y = prop_id Samples.name))
    ∧ (∀ y, y ∈ prop_domain p ↔
            y ∈ prop_domain Samples.name
            ∧ (y ∈ dom (GraphDB.nodes Samples.people) ∨ y = prop_id Samples.name)).
Proof.
  apply (create_property_round_trip Samples.people Samples.name).
  - apply closed_check_sound. vm_compute. reflexivity.
  - vm_compute. reflexivity.
  - intros y Hy Hr. exfalso.
    assert (y = "xsd:string") as -> by set_solver.
    assert ("xsd:string" = "Person" ∨ "xsd:string" = "Robot") as [|] by set_solver;
      discriminate.
Defined.

(** C10 as stated fails: [Person] is a graph node when [knows] is created
    with domain [Person] and range [Person], and the property is not read
    back with [Person] in both lists; an edge is kept per pair of source
    and target, and [get_edge] gives one label for the pair. *)
Lemma knows_loses_an_entry :
  GraphDB.node_exists Samples.people "Person" = true
  ∧ prop_domain Samples.knows = ["Person"]
  ∧ prop_range Samples.knows = ["Person"]
  ∧ ∃ p, property_round_trip Samples.people Samples.knows = Ok p
         ∧ ¬ (prop_domain p = ["Person"] ∧ prop_range p = ["Person"]).
Proof.
  split; [vm_compute; reflexivity|]. split; [reflexivity|]. split; [reflexivity|].
  eexists. split; [vm_compute; reflexivity|].
  intros [Hd _]. vm_compute in Hd. discriminate.
Qed.

(** ** Statistics of a store built through the service *)

Section counting.

Lemma count_if_Permutation {A} (h : A → bool) (l l' : list A) :
  l ≡ₚ l' → count_if h l = count_if h l'.
Proof.
  unfold count_if. induction 1 as [|x l l' _ IH|x y l|l l' l'' _ IH1 _ IH2]; simpl.
  - done.
  - destruct (h x); simpl; by rewrite IH.
  - by destruct (h x), (h y).
  - by rewrite IH1.
Qed.

Lemma count_if_app {A} (h : A → bool) (l l' : list A) :
  count_if h (l ++ l') = count_if h l + count_if h l'.
Proof. unfold count_if. by rewrite List.filter_app, length_app. Qed.

Lemma count_insert (h : string * gmap string pyval → bool)
    (m : gmap string (gmap string pyval)) i x :
  m !! i = None →
  count_if h (map_to_list (<[i := x]> m))
  = (if h (i, x) then 1 else 0) + count_if h (map_to_list m).
Proof.
  intros Hi. rewrite (count_if_Permutation h _ _ (map_to_list_insert m i x Hi)).
  unfold count_if. simpl. by destruct (h (i, x)).
Qed.

Lemma length_omap_fst {B} (F : string → option B)
    (h : string * gmap string pyval → bool) l :
  (∀ kv, kv ∈ l → is_Some (F kv.1) ↔ h kv = true) →
  length (omap F l.*1) = count_if h l.
Proof.
  unfold count_if. induction l as [|kv l IH]; intros Hall; [done|].
  cbn. specialize (IH (λ kv' H, Hall kv' (list_elem_of_further _ _ _ H))).
  pose proof (Hall kv (list_elem_of_here _ _)) as Hkv.
  destruct (F kv.1) as [b|]; destruct (h kv); simpl.
  - by rewrite IH.
  - by assert (false = true) by (apply Hkv; eauto).
  - by destruct (proj2 Hkv eq_refl).
  - done.
Qed.

Lemma count_omap_fst {B} (F : string → option B) (q : B → bool)
    (h : string * gmap string pyval → bool) l :
  (∀ kv, kv ∈ l →
         match F kv.1 with Some b => q b | None => false end = h kv) →
  count_if q (omap F l.*1) = count_if h l.
Proof.
  unfold count_if. induction l as [|kv l IH]; intros Hall; [done|].
  cbn. specialize (IH (λ kv' H, Hall kv' (list_elem_of_further _ _ _ H))).
  pose proof (Hall kv (list_elem_of_here _ _)) as Hkv.
  destruct (F kv.1) as [b|]; simpl; rewrite <- Hkv; [destruct (q b); simpl|];
    by rewrite IH.
Qed.

End counting.

Section node_kinds.
Context (g : GraphDB.t).

Lemma node_of_list kv :
  kv ∈ map_to_list (GraphDB.nodes g) →
  _get_node_data g kv.1 = kv.2 ∧ GraphDB.node_exists g kv.1 = true.
Proof.
  destruct kv as [n d]. intros H%elem_of_map_to_list. simpl. split.
  - unfold _get_node_data, GraphDB.get_node. by rewrite H.
  - apply node_exists_true, elem_of_dom. eauto.
Qed.

Lemma typed_data_nonempty (d : gmap string pyval) ty :
  d !! "node_type" = Some (PyStr ty) → d ≠ ∅.
Proof. intros H ->. by rewrite lookup_empty in H. Qed.

Lemma get_all_classes_length :
  length (get_all_classes g)
  = count_if (λ kv, is_class_data kv.2) (map_to_list (GraphDB.nodes g)).
Proof.
  unfold get_all_classes, GraphDB.get_all_nodes. apply length_omap_fst.
  intros kv [Hd He]%node_of_list. rewrite Hd. unfold is_class_data, get_class.
  rewrite He, Hd. simpl.
  destruct (decide (kv.2 !! "node_type" = Some (PyStr CLASS_TYPE))) as [Hty|Hty].
  - rewrite (bool_decide_eq_true_2 (kv.2 ≠ ∅)) by (by eapply typed_data_nonempty).
    rewrite !(bool_decide_eq_true_2 _ Hty).
    rewrite bool_decide_eq_false_2 by (by intros []). simpl. split; eauto.
  - rewrite !(bool_decide_eq_false_2 _ Hty).
    rewrite andb_false_r. split; [by intros []|done].
Qed.

Lemma get_property_type kv :
  kv ∈ map_to_list (GraphDB.nodes g) →
  match get_property g kv.1 with
  | Ok p => Some (prop_property_type p)
  | Raise _ => None
  end = property_type_of_data kv.2.
Proof.
  intros [Hd He]%node_of_list. unfold property_type_of_data, get_property.
  rewrite He, Hd. simpl.
  destruct (decide (kv.2 !! "node_type" = Some (PyStr PROPERTY_TYPE))) as [Hty|Hty].
  - rewrite (bool_decide_eq_true_2 _ Hty).
    rewrite bool_decide_eq_false_2 by (by intros []).
    by destruct (PropertyType_of _).
  - rewrite (bool_decide_eq_false_2 _ Hty). by rewrite bool_decide_eq_true_2.
Qed.

Lemma property_in_list kv :
  kv ∈ map_to_list (GraphDB.nodes g) →
  match (let node_data := _get_node_data g kv.1 in
         if bool_decide (node_data ≠ ∅)
            && bool_decide (node_data !! "node_type" = Some (PyStr PROPERTY_TYPE))
         then match get_property g kv.1 with
              | Ok p => Some p
              | Raise _ => None
              end
         else None) with
  | Some p => Some (prop_property_type p)
  | None => None
  end = property_type_of_data kv.2.
Proof.
  intros Hkv. pose proof (get_property_type kv Hkv) as Hp.
  apply node_of_list in Hkv as [Hd He]. simpl. rewrite Hd.
  unfold property_type_of_data in *.
  destruct (decide (kv.2 !! "node_type" = Some (PyStr PROPERTY_TYPE))) as [Hty|Hty].
  - rewrite (bool_decide_eq_true_2 (kv.2 ≠ ∅)) by (by eapply typed_data_nonempty).
    rewrite !(bool_decide_eq_true_2 _ Hty) in *. simpl.
    rewrite <- Hp. by destruct (get_property g kv.1).
  - rewrite !(bool_decide_eq_false_2 _ Hty). by rewrite andb_false_r.
Qed.

Lemma get_all_properties_length :
  length (get_all_properties g)
  = count_if (λ kv, bool_decide (is_Some (property_type_of_data kv.2)))
             (map_to_list (GraphDB.nodes g)).
Proof.
  unfold get_all_properties, GraphDB.get_all_nodes. apply length_omap_fst.
  intros kv Hkv. rewrite <- (property_in_list kv Hkv). simpl.
  destruct (if _ && _ then _ else _) as [p|]; simpl.
  - split; eauto.
  - split; [by intros []|done].
Qed.

Lemma get_all_properties_count ty :
  count_type ty (get_all_properties g)
  = count_if (λ kv, bool_decide (property_type_of_data kv.2 = Some ty))
             (map_to_list (GraphDB.nodes g)).
Proof.
  unfold get_all_properties, GraphDB.get_all_nodes.
  apply (count_omap_fst _ (λ p, bool_decide (prop_property_type p = ty))).
  intros kv Hkv. rewrite <- (property_in_list kv Hkv). simpl.
  destruct (if _ && _ then _ else _) as [p|]; simpl.
  - apply bool_decide_ext. split; [by intros ->|by intros [= ->]].
  - done.
Qed.

Lemma instances_count :
  length (List.filter
            (λ node_id,
               let node_data := _get_node_data g node_id in
               bool_decide (node_data ≠ ∅)
               && bool_decide (node_data !! "node_type" = Some (PyStr INSTANCE_TYPE)))
            (GraphDB.get_all_nodes g))
  = count_if (λ kv, is_instance_data kv.2) (map_to_list (GraphDB.nodes g)).
Proof.
  unfold GraphDB.get_all_nodes, count_if.
  assert (∀ kv, kv ∈ map_to_list (GraphDB.nodes g) → _get_node_data g kv.1 = kv.2)
    as Hall by (by intros kv [? _]%node_of_list).
  induction (map_to_list (GraphDB.nodes g)) as [|kv l IH]; [done|].
  cbn. rewrite (Hall kv) by left.
  specialize (IH (λ kv' H, Hall kv' (list_elem_of_further _ _ _ H))).
  unfold is_instance_data at 1.
  destruct (decide (kv.2 !! "node_type" = Some (PyStr INSTANCE_TYPE))) as [Hty|Hty].
  - rewrite (bool_decide_eq_true_2 (kv.2 ≠ ∅)) by (by eapply typed_data_nonempty).
    rewrite !(bool_decide_eq_true_2 _ Hty). simpl. by rewrite IH.
  - rewrite !(bool_decide_eq_false_2 _ Hty). by rewrite andb_false_r.
Qed.

End node_kinds.

Section requests.

Lemma add_all_nodes f l w ts : ∀ g,
  GraphDB.nodes (foldl (λ g t, GraphDB.add_edge g f t l w) g ts) = GraphDB.nodes g.
Proof. induction ts as [|t ts IH]; intros g; [done|]. simpl. by rewrite IH. Qed.

Lemma add_all_lookup f l w ts : ∀ g x y,
  GraphDB.edges (foldl (λ g t, GraphDB.add_edge g f t l w) g ts) !! (x, y)
  = if bool_decide (x = f ∧ y ∈ ts) then Some (edge l w)
    else GraphDB.edges g !! (x, y).
Proof.
  induction ts as [|t ts IH]; intros g x y.
  - simpl. rewrite bool_decide_eq_false_2; [done|].
    intros (_ & ?%elem_of_nil). done.
  - simpl. rewrite IH. simpl.
    destruct (decide ((f, t) = (x, y))) as [[= <- <-]|Hne].
    + rewrite lookup_insert_eq.
      rewrite (bool_decide_eq_true_2 (f = f ∧ t ∈ t :: ts));
        [by case_bool_decide|].
      split; [done|by left].
    + rewrite lookup_insert_ne by done.
      rewrite (bool_decide_ext (x = f ∧ y ∈ ts) (x = f ∧ y ∈ t :: ts)); [done|].
      rewrite elem_of_cons. naive_solver.
Qed.

Lemma create_instance_inv g i g' i' :
  create_instance g i = Ok (g', i') →
  GraphDB.nodes g !! inst_id i = None
  ∧ (∀ c, c ∈ inst_class_ids i → c ∈ dom (GraphDB.nodes g))
  ∧ i' = i
  ∧ GraphDB.nodes g' = <[inst_id i := instance_node_data i]> (GraphDB.nodes g)
  ∧ ∀ x y,
      GraphDB.edges g' !! (x, y)
      = if bool_decide (x = inst_id i ∧ y ∈ inst_class_ids i)
        then Some (edge TYPE_RELATION GraphDB.default_weight)
        else GraphDB.edges g !! (x, y).
Proof.
  unfold create_instance.
  destruct (GraphDB.node_exists g (inst_id i)) eqn:Ef; [done|].
  destruct (List.find _ (inst_class_ids i)) eqn:Ep; [done|].
  apply node_exists_false in Ef.
  pose proof (proj1 (find_missing_None _ _) Ep) as Hps.
  intros [= <- <-]. split; [done|]. split; [done|]. split; [done|].
  rewrite add_all_nodes. split; [done|].
  intros x y. by rewrite add_all_lookup.
Qed.

Lemma create_instance_accepted g i :
  GraphDB.nodes g !! inst_id i = None →
  (∀ c, c ∈ inst_class_ids i → c ∈ dom (GraphDB.nodes g)) →
  create_instance g i
  = Ok (foldl (λ g class_id,
                 GraphDB.add_edge g (inst_id i) class_id
                                  TYPE_RELATION GraphDB.default_weight)
              (GraphDB.add_node g (inst_id i) (instance_node_data i))
              (inst_class_ids i), i).
Proof.
  intros Hf Hp. unfold create_instance.
  apply node_exists_false in Hf. rewrite Hf.
  apply (proj2 (find_missing_None _ _)) in Hp. by rewrite Hp.
Qed.

Lemma rejected_request g r : accepted g r = false → apply_request g r = g.
Proof.
  destruct r as [c|p|i]; simpl.
  - by destruct (create_class g c) as [[]|].
  - by destruct (create_property g p) as [[]|].
  - by destruct (create_instance g i) as [[]|].
Qed.

(** What an accepted request writes: one new node, and edges that leave
    it. *)
Lemma accepted_request g r :
  accepted g r = true →
  GraphDB.nodes g !! request_id r = None
  ∧ GraphDB.nodes (apply_request g r)
    = <[request_id r := request_data r]> (GraphDB.nodes g)
  ∧ ∀ x y ed,
      GraphDB.edges (apply_request g r) !! (x, y) = Some ed →
      GraphDB.edges g !! (x, y) = Some ed
      ∨ x = request_id r
        ∧ (y ∈ dom (GraphDB.nodes (apply_request g r)) ∨ y = "owl:Thing")
        ∧ (GraphDB.edge_label ed = SUBCLASS_RELATION →
           y ∈ dom (GraphDB.nodes g) ∨ y = "owl:Thing").
Proof.
  destruct r as [c|p|i]; simpl.
  - destruct (create_class g c) as [[g' c']|] eqn:E; [intros _|done].
    apply create_class_inv in E as (Hf & Hps & _ & Hn & He).
    split; [done|]. split; [done|]. intros x y ed. rewrite He.
    repeat case_bool_decide; intros [= <-]; simpl; try (by left); right.
    + naive_solver.
    + naive_solver.
    + destruct H1 as [-> Hy]. split; [done|].
      assert (y ∈ dom (GraphDB.nodes g) ∨ y = "owl:Thing") as Hor.
      { unfold effective_parents in Hy.
        destruct (cls_parent_classes c) as [|q qs] eqn:Eq.
        - apply list_elem_of_singleton in Hy. by right.
        - left. by apply Hps. }
      split; [|done]. destruct Hor as [?|?]; [left|by right].
      rewrite Hn, dom_insert. set_solver.
  - destruct (create_property g p) as [[g' p']|] eqn:E; [intros _|done].
    apply create_property_inv in E as (Hf & _ & Hn & He).
    split; [done|]. split; [done|]. intros x y ed. rewrite He.
    repeat case_bool_decide; intros [= <-]; simpl; try (by left); right;
      naive_solver.
  - destruct (create_instance g i) as [[g' i']|] eqn:E; [intros _|done].
    apply create_instance_inv in E as (Hf & Hcs & _ & Hn & He).
    split; [done|]. split; [done|]. intros x y ed. rewrite He.
    case_bool_decide as Hc; intros [= <-]; simpl; [right|by left].
    destruct Hc as [-> Hy]. split; [done|]. split; [|done].
    left. rewrite Hn, dom_insert. apply Hcs in Hy. set_solver.
Qed.

Lemma service_store_init : service_store init.
Proof.
  split; [|split].
  - apply node_exists_true. vm_compute. reflexivity.
  - apply edges_closed_init.
  - exists (λ _, 0). intros x y (ed & He & _).
    destruct (edges_closed_init x y) as [_ _]; [eauto|].
    assert (GraphDB.edges init = ∅) as Hempty by (vm_compute; reflexivity).
    rewrite Hempty in He. by rewrite lookup_empty in He.
Qed.

Lemma service_store_step g r : service_store g → service_store (apply_request g r).
Proof.
  intros Hs. destruct (accepted g r) eqn:Ea;
    [|by rewrite rejected_request].
  destruct Hs as (Hroot & Hclosed & rank & Hrank).
  destruct (accepted_request g r Ea) as (Hf & Hn & He).
  assert (∀ z, z ∈ dom (GraphDB.nodes g) → z ≠ request_id r) as Hold.
  { intros z Hz ->. by apply not_elem_of_dom in Hf. }
  assert (dom (GraphDB.nodes g) ⊆ dom (GraphDB.nodes (apply_request g r))) as Hsub.
  { rewrite Hn, dom_insert. set_solver. }
  split; [set_solver|]. split.
  - intros x y [ed Hed]. destruct (He x y ed Hed) as [Hg|(-> & Hy & _)].
    + destruct (Hclosed x y) as [? ?]; [eauto|]. set_solver.
    + split; [rewrite Hn, dom_insert; set_solver|].
      destruct Hy as [?| ->]; set_solver.
  - exists (λ z, if decide (z = request_id r)
                 then S (max_list (rank <$> GraphDB.get_all_nodes g))
                 else rank z).
    intros x y (ed & Hed & Hl). destruct (He x y ed Hed) as [Hg|(-> & _ & Hy)].
    + destruct (Hclosed x y) as [Hx Hy]; [eauto|].
      rewrite !decide_False by (by apply Hold).
      apply Hrank. by exists ed.
    + assert (y ∈ dom (GraphDB.nodes g)) as Hyd.
      { destruct (Hy Hl) as [?| ->]; done. }
      rewrite (decide_False (P := y = request_id r)) by (by apply Hold).
      destruct (decide (request_id r = request_id r)); [|done].
      assert (rank y ≤ max_list (rank <$> GraphDB.get_all_nodes g))%nat.
      { apply max_list_elem_of_le, list_elem_of_fmap. exists y.
        split; [done|]. by apply elem_of_get_all_nodes. }
      lia.
Qed.

Lemma service_store_run rs : ∀ g, service_store g → service_store (run g rs).
Proof.
  induction rs as [|r rs IH]; intros g Hs; [done|].
  simpl. apply IH. by apply service_store_step.
Qed.

Lemma service_store_acyclic g : service_store g → acyclic g.
Proof.
  intros (_ & _ & rank & Hrank).
  assert (∀ x y, ancestor g x y → (rank y < rank x)%nat) as Htc.
  { intros x y H. induction H as [x y [H _]|x y z [H _] _ IH].
    - by apply Hrank.
    - apply Hrank in H. lia. }
  intros x Hx. apply Htc in Hx. lia.
Qed.

Lemma request_kinds r :
  reserved_free r →
  is_class_data (request_data r) = creates_class r
  ∧ is_instance_data (request_data r) = creates_instance r
  ∧ property_type_of_data (request_data r)
    = match r with
      | CreateProperty p => Some (prop_property_type p)
      | _ => None
      end.
Proof.
  destruct r as [c|p|i]; simpl; [intros [Hfree _]|intros _|intros [Hfree _]].
  - assert (class_node_data c !! "node_type" = Some (PyStr CLASS_TYPE)) as Hnt.
    { by rewrite class_node_data_lookup, Hfree. }
    unfold is_class_data, is_instance_data, property_type_of_data.
    by rewrite Hnt.
  - unfold is_class_data, is_instance_data, property_type_of_data.
    assert (property_node_data p !! "node_type" = Some (PyStr PROPERTY_TYPE)) as ->
      by done.
    assert (py_get (property_node_data p) "property_type" (PyStr "object")
            = PyStr (PropertyType_value (prop_property_type p))) as -> by done.
    by rewrite PropertyType_of_value.
  - assert (instance_node_data i !! "node_type" = Some (PyStr INSTANCE_TYPE)) as Hnt.
    { unfold instance_node_data, dict_update.
      rewrite lookup_union_r by done. done. }
    unfold is_class_data, is_instance_data, property_type_of_data.
    by rewrite Hnt.
Qed.

(** A count over the nodes grows with the accepted requests that it
    counts. *)
Lemma run_count (h : string * gmap string pyval → bool) (δ : request → bool) :
  (∀ r, reserved_free r → h (request_id r, request_data r) = δ r) →
  ∀ rs g, Forall reserved_free rs →
    count_if h (map_to_list (GraphDB.nodes (run g rs)))
    = count_if h (map_to_list (GraphDB.nodes g))
      + count_if δ (accepted_requests g rs).
Proof.
  intros Hh. induction rs as [|r rs IH]; intros g Hfree.
  - simpl. change (count_if δ []) with 0. lia.
  - apply Forall_cons in Hfree as [Hr Hrs]. simpl.
    rewrite (IH _ Hrs), count_if_app.
    destruct (accepted g r) eqn:Ea.
    + destruct (accepted_request g r Ea) as (Hf & -> & _).
      rewrite count_insert by done. rewrite (Hh r Hr).
      change (count_if δ [r]) with (length (if δ r then [r] else [])).
      destruct (δ r); simpl; lia.
    + rewrite rejected_request by done.
      change (count_if δ []) with 0. lia.
Qed.

End requests.

(** C8 (as the code has it): after any sequence of create requests on a
    new service whose free-form attributes leave the keys [node_type] and
    [data] alone, [get_statistics] returns, and it counts the classes
    created plus one, the root [owl:Thing] being a class, the properties
    created, in total and by type, and the instances created; a request
    that is refused creates nothing. *)
Theorem statistics_after_requests (rs : list request) :
  Forall reserved_free rs →
  ∃ s, get_statistics (run init rs) = Some s
       ∧ total_classes s = S (count_if creates_class (accepted_requests init rs))
       ∧ total_properties s = count_if creates_property (accepted_requests init rs)
       ∧ total_object_properties s
         = count_if (creates_property_of OBJECT) (accepted_requests init rs)
       ∧ total_data_properties s
         = count_if (creates_property_of DATA) (accepted_requests init rs)
       ∧ total_annotation_properties s
         = count_if (creates_property_of ANNOTATION) (accepted_requests init rs)
       ∧ total_instances s = count_if creates_instance (accepted_requests init rs).
Proof.
  intros Hfree.
  assert (acyclic (run init rs)) as Hac.
  { apply service_store_acyclic, service_store_run, service_store_init. }
  unfold get_statistics. rewrite (max_depth_loop_spec _ Hac).
  eexists. split; [reflexivity|]. simpl.
  rewrite get_all_classes_length, get_all_properties_length, instances_count.
  rewrite !get_all_properties_count.
  split; [|split; [|split; [|split; [|split]]]].
  - rewrite (run_count _ creates_class) by
      (done || by intros r (? & _)%request_kinds).
    reflexivity.
  - rewrite (run_count _ creates_property); [reflexivity| |done].
    intros r (_ & _ & Hp)%request_kinds. simpl. rewrite Hp. by destruct r.
  - rewrite (run_count _ (creates_property_of OBJECT)); [reflexivity| |done].
    intros r (_ & _ & Hp)%request_kinds. simpl. rewrite Hp.
    destruct r; simpl; try done.
    apply bool_decide_ext. split; [by intros [= ->]|by intros ->].
  - rewrite (run_count _ (creates_property_of DATA)); [reflexivity| |done].
    intros r (_ & _ & Hp)%request_kinds. simpl. rewrite Hp.
    destruct r; simpl; try done.
    apply bool_decide_ext. split; [by intros [= ->]|by intros ->].
  - rewrite (run_count _ (creates_property_of ANNOTATION)); [reflexivity| |done].
    intros r (_ & _ & Hp)%request_kinds. simpl. rewrite Hp.
    destruct r; simpl; try done.
    apply bool_decide_ext. split; [by intros [= ->]|by intros ->].
  - rewrite (run_count _ creates_instance) by
      (done || by intros r (_ & ? & _)%request_kinds).
    reflexivity.
Qed.

Lemma statistics_after_requests_witness :
  ∃ s, get_statistics (run init Cases.zoo) = Some s
       ∧ total_classes s = S (count_if creates_class (accepted_requests init Cases.zoo))
       ∧ total_properties s
         = count_if creates_property (accepted_requests init Cases.zoo)
       ∧ total_object_properties s
         = count_if (creates_property_of OBJECT) (accepted_requests init Cases.zoo)
       ∧ total_data_properties s
         = count_if (creates_property_of DATA) (accepted_requests init Cases.zoo)
       ∧ total_annotation_properties s
         = count_if (creates_property_of ANNOTATION) (accepted_requests init Cases.zoo)
       ∧ total_instances s
         = count_if creates_instance (accepted_requests init Cases.zoo).
Proof.
  apply (statistics_after_requests Cases.zoo).
  repeat (apply Forall_cons; split; [first [exact I | split; reflexivity]|]).
  apply Forall_nil. done.
Defined.

(** C8 as stated fails: after one class has been created through the
    service, and nothing else, [get_statistics] counts two classes. *)
Lemma one_class_counts_two :
  accepted_requests init [CreateClass (Samples.class "A" [])]
  = [CreateClass (Samples.class "A" [])]
  ∧ ∃ s, get_statistics (run init [CreateClass (Samples.class "A" [])]) = Some s
         ∧ total_classes s = 2
         ∧ total_properties s = 0
         ∧ total_instances s = 0.
Proof.
  split; [vm_compute; reflexivity|].
  eexists. split; [vm_compute; reflexivity|]. repeat split.
Qed.

(** ** Consistency of stores *)

Section consistency.
Context (g : GraphDB.t).

Lemma acyclic_report :
  acyclic g →
  check_consistency g = Some {| consistent := true; errors := []; warnings := [] |}.
Proof.
  intros Hac.
  destruct (check_consistency_loop_spec g (get_all_classes g)
              {| consistent := true; errors := []; warnings := [] |})
    as (r & Hr & Hw & Herr & Hcons); [apply probes_total|].
  unfold check_consistency. rewrite Hr. f_equal.
  assert (List.filter (cyclic g) (get_all_classes g) = []) as Hnone.
  { clear -Hac. induction (get_all_classes g) as [|c l IH]; [done|].
    simpl. by rewrite no_cycle_found. }
  assert (forallb (λ c, negb (cyclic g c)) (get_all_classes g) = true) as Hall.
  { apply forallb_forall. intros c _. by rewrite no_cycle_found. }
  rewrite Hnone in Herr. rewrite Hall in Hcons.
  destruct r as [co er wa]. simpl in *. by subst.
Qed.

(** An ancestor is reached along a chain of direct superclasses. *)
Lemma ancestor_chain x y :
  ancestor g x y → ∃ l, chain g x (l ++ [y]).
Proof.
  induction 1 as [x y H|x y z H _ [l IH]].
  - exists []. by split.
  - exists (y :: l). by split.
Qed.

(** A positive probe has walked from [c] to a class that is its own
    ancestor. *)
Lemma has_cycle_reaches fuel : ∀ c visited,
  (∀ v, v ∈ visited → ancestor g v c) →
  has_cycle fuel g c visited = Some true →
  ∃ x, ancestor g x x ∧ rtc (direct_super g) c x.
Proof.
  induction fuel as [|fuel IH]; intros c visited Hinv; [done|].
  rewrite has_cycle_S. case_bool_decide as Hv.
  - intros _. exists c. split; [by apply Hinv|done].
  - intros Hany.
    assert (∃ p, p ∈ direct_supers g c
                 ∧ has_cycle fuel g (cls_id p) ({[c]} ∪ visited) = Some true)
      as (p & Hp & Hrec).
    { clear -Hany. induction (direct_supers g c) as [|q l IHl]; [done|].
      simpl in Hany.
      destruct (has_cycle fuel g (cls_id q) ({[c]} ∪ visited)) as [[]|] eqn:E;
        [| |done].
      - exists q. split; [by left|done].
      - destruct (IHl Hany) as (p & Hp & H). exists p. split; [by right|done]. }
    pose proof (direct_supers_super g _ _ Hp) as Hstep.
    destruct (IH (cls_id p) ({[c]} ∪ visited)) as (x & Hx & Hreach); [|done|].
    + intros v [->%elem_of_singleton|Hin]%elem_of_union.
      * by apply tc_once.
      * eapply tc_r; [by apply Hinv|done].
    + exists x. split; [done|]. by eapply rtc_l.
Qed.

Lemma ancestor_is_class x y : ancestor g x y → is_class g y.
Proof. induction 1 as [x y [_ ?]|]; done. Qed.

Lemma cycle_found c :
  c ∈ get_all_classes g → ancestor g (cls_id c) (cls_id c) → cyclic g c = true.
Proof.
  intros Hc [l Hl]%ancestor_chain. unfold cyclic. apply bool_decide_eq_true.
  apply has_cycle_complete with (l ++ [cls_id c]).
  - right. apply get_all_classes_elem in Hc.
    by apply get_class_Ok in Hc as (_ & ? & _).
  - apply depth_bound_enough.
  - done.
  - left. intros Hnd. apply NoDup_cons in Hnd as [Hnotin _].
    apply Hnotin. set_solver.
Qed.

End consistency.

(** X3: [check_consistency] returns on every store; it answers
    [consistent = true] exactly when no class is its own ancestor, the
    errors are empty exactly then, and every error names a known class that
    lies below a class which is its own ancestor. *)
Theorem check_consistency_characterised (g : GraphDB.t) :
  ∃ r, check_consistency g = Some r
       ∧ (consistent r = true ↔ acyclic g)
       ∧ (consistent r = true ↔ errors r = [])
       ∧ ∀ e, e ∈ errors r →
           ∃ c x, c ∈ get_all_classes g ∧ e = cycle_error (cls_id c)
                  ∧ ancestor g x x
                  ∧ rtc (direct_super g) (cls_id c) x.
Proof.
  destruct (check_consistency_loop_spec g (get_all_classes g)
              {| consistent := true; errors := []; warnings := [] |})
    as (r & Hr & Hw & Herr & Hcons); [apply probes_total|].
  exists r. split; [done|]. simpl in *.
  assert (consistent r = true ↔ acyclic g) as Hiff.
  { rewrite Hcons, forallb_forall. split.
    - intros Hall x Hx.
      destruct (class_known g x (ancestor_is_class g x x Hx)) as (c & Hc & <-).
      specialize (Hall c (proj1 (list_elem_of_In _ _) Hc)).
      by rewrite (cycle_found g c Hc Hx) in Hall.
    - intros Hac c _. by rewrite no_cycle_found. }
  split; [done|]. split.
  - rewrite Hiff, Herr. split.
    + intros Hac. clear -Hac.
      induction (get_all_classes g) as [|c l IH]; [done|].
      simpl. by rewrite no_cycle_found.
    + intros Hnil. apply Hiff. rewrite Hcons. apply forallb_forall.
      intros c Hc%list_elem_of_In. destruct (cyclic g c) eqn:E; [|done].
      assert (c ∈ List.filter (cyclic g) (get_all_classes g)) as Hin.
      { apply list_elem_of_In, filter_In. split; [by apply list_elem_of_In|done]. }
      apply (list_elem_of_fmap_2 (cycle_error ∘ cls_id)) in Hin.
      rewrite Hnil in Hin. by apply elem_of_nil in Hin.
  - intros e. rewrite Herr. intros (c & -> & Hc)%list_elem_of_fmap.
    apply list_elem_of_In, filter_In in Hc as [Hc%list_elem_of_In Hcyc].
    unfold cyclic in Hcyc. apply bool_decide_eq_true in Hcyc.
    destruct (has_cycle_reaches g _ _ ∅ (λ v Hv, False_rect _ (not_elem_of_empty v Hv))
                Hcyc) as (x & Hx & Hreach).
    exists c, x. done.
Qed.

(** X2: whatever is requested of a new service, the store it builds is
    consistent: parents must exist before a class is created, so no create
    request closes a cycle. *)
Theorem requests_keep_consistent (rs : list request) :
  check_consistency (run init rs)
  = Some {| consistent := true; errors := []; warnings := [] |}.
Proof.
  apply acyclic_report, service_store_acyclic, service_store_run,
    service_store_init.
Qed.

(** ** Statistics on a store with a cycle *)

Section unbounded_depth.
Context (g : GraphDB.t).

Lemma below_cycle_step c :
  below_cycle g c → ∃ sc, sc ∈ direct_supers g c ∧ below_cycle g (cls_id sc).
Proof.
  intros (x & Hreach & Hx).
  destruct Hreach as [c|c y x Hstep Hreach].
  - apply ancestor_step in Hx as (sc & Hsc & Hor). exists sc. split; [done|].
    exists c. split.
    + destruct Hor as [<-|Hanc]; [done|]. by apply tc_rtc.
    + apply ancestor_step. eauto.
  - destruct (direct_super_supers g _ _ Hstep) as (sc & Hsc & <-).
    exists sc. split; [done|]. by exists x.
Qed.

Lemma depths_of_None rec l sc :
  sc ∈ l → rec (cls_id sc) = None → depths_of rec l = None.
Proof.
  induction l as [|a l IH]; intros Hin Hrec; [by apply elem_of_nil in Hin|].
  simpl. apply elem_of_cons in Hin as [<-|Hin]; [by rewrite Hrec|].
  destruct (rec (cls_id a)); [|done]. by rewrite IH.
Qed.

(** No bound on the depth is enough for [get_depth] below a cycle. *)
Lemma get_depth_below_cycle fuel : ∀ c, below_cycle g c → get_depth fuel g c = None.
Proof.
  induction fuel as [|fuel IH]; intros c Hc; [done|].
  rewrite get_depth_S.
  destruct (below_cycle_step c Hc) as (sc & Hsc & Hbelow).
  destruct (direct_supers g c) as [|a l] eqn:E; [by apply elem_of_nil in Hsc|].
  rewrite (depths_of_None _ _ sc Hsc); [done|]. by apply IH.
Qed.

Lemma max_depth_loop_None classes c : ∀ m,
  c ∈ classes → get_depth (depth_bound g) g (cls_id c) = None →
  max_depth_loop g classes m = None.
Proof.
  induction classes as [|a l IH]; intros m Hin Hnone; [by apply elem_of_nil in Hin|].
  simpl. apply elem_of_cons in Hin as [<-|Hin]; [by rewrite Hnone|].
  destruct (get_depth (depth_bound g) g (cls_id a)); [|done]. by apply IH.
Qed.

End unbounded_depth.

(** X4: [get_depth] has no guard against cycles: on a store where some
    class is its own ancestor its recursion does not end by itself for any
    class from which that class is reached; whatever bound the depth is
    given, the bound is reached, in [get_depth] and so in [get_statistics]
    ([None]).  In Python it is the recursion limit of the interpreter that
    stops it. *)
Theorem get_statistics_on_cycle (g : GraphDB.t) (x : string) :
  ancestor g x x →
  (∀ fuel c, rtc (direct_super g) c x → get_depth fuel g c = None)
  ∧ get_statistics g = None.
Proof.
  intros Hx. split.
  - intros fuel c Hc. apply get_depth_below_cycle. by exists x.
  - destruct (class_known g x (ancestor_is_class g x x Hx)) as (c & Hc & Hid).
    unfold get_statistics.
    rewrite (max_depth_loop_None g _ c); [done|done|].
    apply get_depth_below_cycle. exists x. by rewrite Hid.
Qed.

Lemma get_statistics_on_cycle_witness :
  (∀ fuel c, rtc (direct_super Samples.two_cycle) c "A" →
             get_depth fuel Samples.two_cycle c = None)
  ∧ get_statistics Samples.two_cycle = None.
Proof.
  apply (get_statistics_on_cycle Samples.two_cycle "A").
  apply tc_l with "B"; [|apply tc_once];
    (split; [eexists; split; vm_compute; reflexivity|vm_compute; reflexivity]).
Defined.

(** ** Errors of the constructors and getters *)

Section errors.

Lemma find_missing_first (g : GraphDB.t) l1 p l2 :
  (∀ q, q ∈ l1 → GraphDB.node_exists g q = true) →
  GraphDB.node_exists g p = false →
  List.find (λ q, negb (GraphDB.node_exists g q)) (l1 ++ p :: l2) = Some p.
Proof.
  intros Hl1 Hp. induction l1 as [|q l1 IH]; simpl.
  - by rewrite Hp.
  - rewrite (Hl1 q) by left. simpl. apply IH. intros q' Hq'. apply Hl1. by right.
Qed.

Lemma run_nodes_lookup rs : ∀ g x d,
  GraphDB.nodes g !! x = Some d → GraphDB.nodes (run g rs) !! x = Some d.
Proof.
  induction rs as [|r rs IH]; intros g x d Hx; [done|].
  simpl. apply IH. destruct (accepted g r) eqn:Ea.
  - destruct (accepted_request g r Ea) as (Hf & -> & _).
    rewrite lookup_insert_ne; [done|]. intros <-. congruence.
  - by rewrite rejected_request.
Qed.

Lemma get_class_by_data g x d :
  GraphDB.nodes g !! x = Some d →
  is_ok (get_class g x) = is_class_data d
  ∧ (is_class_data d = false →
     get_class g x = Raise (ValidationError ("Node '" ++ x ++ "' is not a class"))).
Proof.
  intros Hx. unfold get_class, is_class_data, _get_node_data, GraphDB.get_node.
  assert (GraphDB.node_exists g x = true) as ->.
  { apply node_exists_true, elem_of_dom. eauto. }
  rewrite Hx. simpl.
  destruct (decide (d !! "node_type" = Some (PyStr CLASS_TYPE))) as [Hty|Hty].
  - rewrite (bool_decide_eq_true_2 _ Hty).
    by rewrite bool_decide_eq_false_2 by (by intros []).
  - rewrite (bool_decide_eq_false_2 _ Hty). by rewrite bool_decide_eq_true_2.
Qed.

Lemma get_property_by_data g x d :
  GraphDB.nodes g !! x = Some d →
  is_ok (get_property g x) = bool_decide (is_Some (property_type_of_data d))
  ∧ (d !! "node_type" ≠ Some (PyStr PROPERTY_TYPE) →
     get_property g x
     = Raise (ValidationError ("Node '" ++ x ++ "' is not a property"))).
Proof.
  intros Hx. unfold get_property, property_type_of_data, _get_node_data,
    GraphDB.get_node.
  assert (GraphDB.node_exists g x = true) as ->.
  { apply node_exists_true, elem_of_dom. eauto. }
  rewrite Hx. simpl.
  destruct (decide (d !! "node_type" = Some (PyStr PROPERTY_TYPE))) as [Hty|Hty].
  - rewrite (bool_decide_eq_true_2 _ Hty).
    rewrite bool_decide_eq_false_2 by (by intros []).
    split; [|done]. by destruct (PropertyType_of _).
  - rewrite (bool_decide_eq_false_2 _ Hty). rewrite bool_decide_eq_true_2 by done.
    done.
Qed.

Lemma get_instance_by_data g x d :
  GraphDB.nodes g !! x = Some d →
  is_ok (get_instance g x) = is_instance_data d
  ∧ (is_instance_data d = false →
     get_instance g x
     = Raise (ValidationError ("Node '" ++ x ++ "' is not an instance")))
  ∧ (is_instance_data d = true →
     get_instance g x
     = Ok {| inst_id := x;
             inst_label := py_get d "label" (PyStr x);
             inst_class_ids := edge_targets g x TYPE_RELATION;
             inst_properties := d |}).
Proof.
  intros Hx. unfold get_instance, is_instance_data, _get_node_data,
    GraphDB.get_node.
  assert (GraphDB.node_exists g x = true) as ->.
  { apply node_exists_true, elem_of_dom. eauto. }
  rewrite Hx. simpl.
  destruct (decide (d !! "node_type" = Some (PyStr INSTANCE_TYPE))) as [Hty|Hty].
  - rewrite (bool_decide_eq_true_2 _ Hty).
    by rewrite bool_decide_eq_false_2 by (by intros []).
  - rewrite (bool_decide_eq_false_2 _ Hty). by rewrite bool_decide_eq_true_2.
Qed.

End errors.

(** X5: [create_class] is accepted exactly when the id is new and every
    listed parent is a node of the store.  An id in use raises
    [ValidationError], whatever the parents are; otherwise the first parent
    that is missing raises [NodeNotFoundError]. *)
Theorem create_class_contract (g : GraphDB.t) (X : OntologyClass) :
  (GraphDB.node_exists g (cls_id X) = true →
   create_class g X
   = Raise (ValidationError ("Class '" ++ cls_id X ++ "' already exists")))
  ∧ (∀ l1 p l2,
       GraphDB.node_exists g (cls_id X) = false →
       cls_parent_classes X = l1 ++ p :: l2 →
       (∀ q, q ∈ l1 → GraphDB.node_exists g q = true) →
       GraphDB.node_exists g p = false →
       create_class g X
       = Raise (NodeNotFoundError ("Parent class '" ++ p ++ "' not found")))
  ∧ (is_ok (create_class g X) = true ↔
       GraphDB.node_exists g (cls_id X) = false
       ∧ ∀ p, p ∈ cls_parent_classes X → GraphDB.node_exists g p = true).
Proof.
  split; [|split].
  - intros He. unfold create_class. by rewrite He.
  - intros l1 p l2 Hf Hps Hl1 Hp. unfold create_class.
    by rewrite Hf, Hps, find_missing_first.
  - split.
    + destruct (create_class g X) as [[g' X']|] eqn:E; [intros _|done].
      apply create_class_inv in E as (Hf & Hps & _).
      split; [by apply node_exists_false|].
      intros p Hp. by apply node_exists_true, Hps.
    + intros [Hf Hps].
      destruct (create_class_accepted g X) as (g' & X' & ->); [| |done].
      * by apply node_exists_false.
      * intros p Hp. by apply node_exists_true, Hps.
Qed.

Lemma create_class_contract_witness :
  create_class init (Samples.class "owl:Thing" [])
  = Raise (ValidationError "Class 'owl:Thing' already exists")
  ∧ create_class init (Samples.class "Dog" ["owl:Thing"; "Animal"; "Pet"])
    = Raise (NodeNotFoundError "Parent class 'Animal' not found").
Proof.
  destruct (create_class_contract init (Samples.class "owl:Thing" []))
    as (H1 & _ & _).
  destruct (create_class_contract init
              (Samples.class "Dog" ["owl:Thing"; "Animal"; "Pet"]))
    as (_ & H2 & _).
  split.
  - apply H1. reflexivity.
  - apply (H2 ["owl:Thing"] "Animal" ["Pet"]).
    + reflexivity.
    + reflexivity.
    + intros q ->%list_elem_of_singleton. reflexivity.
    + reflexivity.
Defined.

(** X6: classes, properties and instances share one id namespace, and an
    id stays taken: once a request is accepted, every later create request
    for its id, of whatever kind, raises [ValidationError]. *)
Theorem id_stays_taken (g : GraphDB.t) (r r' : request) (rs : list request) :
  accepted g r = true →
  request_id r' = request_id r →
  accepted (run (apply_request g r) rs) r' = false
  ∧ match r' with
    | CreateClass c =>
        create_class (run (apply_request g r) rs) c
        = Raise (ValidationError ("Class '" ++ cls_id c ++ "' already exists"))
    | CreateProperty p =>
        create_property (run (apply_request g r) rs) p
        = Raise (ValidationError ("Property '" ++ prop_id p ++ "' already exists"))
    | CreateInstance i =>
        create_instance (run (apply_request g r) rs) i
        = Raise (ValidationError ("Instance '" ++ inst_id i ++ "' already exists"))
    end.
Proof.
  intros Ha Hid.
  assert (GraphDB.node_exists (run (apply_request g r) rs) (request_id r') = true)
    as He.
  { apply node_exists_true, elem_of_dom. exists (request_data r).
    apply run_nodes_lookup. destruct (accepted_request g r Ha) as (_ & -> & _).
    rewrite Hid. apply lookup_insert_eq. }
  destruct r' as [c|p|i]; simpl in *.
  - unfold create_class. by rewrite He.
  - unfold create_property. by rewrite He.
  - unfold create_instance. by rewrite He.
Qed.

Lemma id_stays_taken_witness :
  accepted (run (apply_request init (CreateClass (Samples.class "Animal" [])))
                [CreateClass (Samples.class "Dog" ["Animal"])])
           (CreateInstance (Cases.instance "Animal" [] ∅)) = false
  ∧ create_instance
      (run (apply_request init (CreateClass (Samples.class "Animal" [])))
           [CreateClass (Samples.class "Dog" ["Animal"])])
      (Cases.instance "Animal" [] ∅)
    = Raise (ValidationError ("Instance '" ++ "Animal" ++ "' already exists")).
Proof.
  apply (id_stays_taken init (CreateClass (Samples.class "Animal" []))
           (CreateInstance (Cases.instance "Animal" [] ∅))
           [CreateClass (Samples.class "Dog" ["Animal"])]).
  - vm_compute. reflexivity.
  - reflexivity.
Defined.

(** X7: the getters check the kind of the node.  On the id of an accepted
    request whose free-form attributes leave the keys [node_type] and
    [data] alone, and after any further requests, the getter of its kind
    returns and the two others raise [ValidationError]. *)
Theorem getters_check_kind (g : GraphDB.t) (r : request) (rs : list request) :
  accepted g r = true →
  reserved_free r →
  is_ok (get_class (run (apply_request g r) rs) (request_id r)) = creates_class r
  ∧ is_ok (get_property (run (apply_request g r) rs) (request_id r))
    = creates_property r
  ∧ is_ok (get_instance (run (apply_request g r) rs) (request_id r))
    = creates_instance r
  ∧ (creates_class r = false →
     get_class (run (apply_request g r) rs) (request_id r)
     = Raise (ValidationError ("Node '" ++ request_id r ++ "' is not a class")))
  ∧ (creates_property r = false →
     get_property (run (apply_request g r) rs) (request_id r)
     = Raise (ValidationError ("Node '" ++ request_id r ++ "' is not a property")))
  ∧ (creates_instance r = false →
     get_instance (run (apply_request g r) rs) (request_id r)
     = Raise (ValidationError ("Node '" ++ request_id r ++ "' is not an instance"))).
Proof.
  intros Ha Hfree.
  assert (GraphDB.nodes (run (apply_request g r) rs) !! request_id r
          = Some (request_data r)) as Hx.
  { apply run_nodes_lookup. destruct (accepted_request g r Ha) as (_ & -> & _).
    apply lookup_insert_eq. }
  destruct (request_kinds r Hfree) as (Hc & Hi & Hp).
  destruct (get_class_by_data _ _ _ Hx) as [Hc1 Hc2].
  destruct (get_property_by_data _ _ _ Hx) as [Hp1 Hp2].
  destruct (get_instance_by_data _ _ _ Hx) as (Hi1 & Hi2 & _).
  rewrite Hc in Hc1, Hc2. rewrite Hi in Hi1, Hi2. rewrite Hp in Hp1.
  split; [done|]. split; [by rewrite Hp1; destruct r|].
  split; [done|]. split; [done|]. split; [|done].
  intros Hnp. apply Hp2. intros Hty.
  unfold property_type_of_data in Hp. rewrite (bool_decide_eq_true_2 _ Hty) in Hp.
  destruct r; try done.
  - assert (class_node_data class_obj !! "node_type" = Some (PyStr CLASS_TYPE)) as Hnt.
    { simpl in Hfree. destruct Hfree as [Hfree _].
      by rewrite class_node_data_lookup, Hfree. }
    simpl in Hty. rewrite Hnt in Hty. cbv in Hty. discriminate.
  - assert (instance_node_data instance_obj !! "node_type"
            = Some (PyStr INSTANCE_TYPE)) as Hnt.
    { simpl in Hfree. destruct Hfree as [Hfree _].
      unfold instance_node_data, dict_update.
      by rewrite lookup_union_r. }
    simpl in Hty. rewrite Hnt in Hty. cbv in Hty. discriminate.
Qed.

Lemma getters_check_kind_witness :
  is_ok (get_class (run (apply_request init Cases.rex) Cases.later)
           (request_id Cases.rex)) = creates_class Cases.rex
  ∧ is_ok (get_property (run (apply_request init Cases.rex) Cases.later)
             (request_id Cases.rex)) = creates_property Cases.rex
  ∧ is_ok (get_instance (run (apply_request init Cases.rex) Cases.later)
             (request_id Cases.rex)) = creates_instance Cases.rex
  ∧ (creates_class Cases.rex = false →
     get_class (run (apply_request init Cases.rex) Cases.later) (request_id Cases.rex)
     = Raise (ValidationError ("Node '" ++ request_id Cases.rex ++ "' is not a class")))
  ∧ (creates_property Cases.rex = false →
     get_property (run (apply_request init Cases.rex) Cases.later)
       (request_id Cases.rex)
     = Raise (ValidationError
                ("Node '" ++ request_id Cases.rex ++ "' is not a property")))
  ∧ (creates_instance Cases.rex = false →
     get_instance (run (apply_request init Cases.rex) Cases.later)
       (request_id Cases.rex)
     = Raise (ValidationError
                ("Node '" ++ request_id Cases.rex ++ "' is not an instance"))).
Proof.
  apply (getters_check_kind init Cases.rex Cases.later).
  - vm_compute. reflexivity.
  - split; reflexivity.
Defined.

(** ** Creating and reading back an instance *)

Lemma instance_node_data_lookup (i : OntologyInstance) k :
  instance_node_data i !! k
  = match inst_properties i !! k with
    | Some v => Some v
    | None =>
        (<["label" := inst_label i]>
         (<["node_type" := PyStr INSTANCE_TYPE]> (∅ : gmap string pyval))) !! k
    end.
Proof.
  unfold instance_node_data, dict_update.
  destruct (inst_properties i !! k) as [v|] eqn:E.
  - by apply lookup_union_Some_l.
  - by apply lookup_union_r.
Qed.

(** X8: an instance accepted by [create_instance] (new id, existing
    classes, neither [node_type] nor [data] among its properties) is read
    back by [get_instance] with the classes supplied, each once, and with a
    [properties] map that is the whole attribute map of the node: the
    supplied properties, and in addition the keys [node_type] and [label]
    that the service writes; the label is the supplied one unless the
    properties carry a [label] of their own.  The key [data] is the one
    under which [_get_node_data] looks for the attribute map in what the
    store hands out. *)
Theorem create_instance_round_trip (g : GraphDB.t) (i : OntologyInstance) :
  edges_closed g →
  GraphDB.node_exists g (inst_id i) = false →
  (∀ c, c ∈ inst_class_ids i → GraphDB.node_exists g c = true) →
  inst_properties i !! "node_type" = None →
  inst_properties i !! "data" = None →
  ∃ g' i',
    create_instance g i = Ok (g', i)
    ∧ get_instance g' (inst_id i) = Ok i'
    ∧ inst_class_ids i' ≡ₚ remove_dups (inst_class_ids i)
    ∧ (∀ k v, inst_properties i !! k = Some v → inst_properties i' !! k = Some v)
    ∧ inst_properties i' !! "node_type" = Some (PyStr INSTANCE_TYPE)
    ∧ dom (inst_properties i') = dom (inst_properties i) ∪ {["label"; "node_type"]}
    ∧ inst_label i' = default (inst_label i) (inst_properties i !! "label")
    ∧ inst_properties i' !! "label" = Some (inst_label i').
Proof.
  intros Hclosed Hfresh Hcs Hnt _. apply node_exists_false in Hfresh.
  assert (∀ c, c ∈ inst_class_ids i → c ∈ dom (GraphDB.nodes g)) as Hcs'.
  { intros c Hc. by apply node_exists_true, Hcs. }
  pose proof (create_instance_accepted g i Hfresh Hcs') as Hcreate.
  destruct (create_instance_inv g i _ _ Hcreate) as (_ & _ & _ & Hn & He).
  eexists _, _. split; [exact Hcreate|].
  set (g' := foldl _ _ _) in *.
  assert (GraphDB.nodes g' !! inst_id i = Some (instance_node_data i)) as Hx.
  { by rewrite Hn, lookup_insert_eq. }
  assert (is_instance_data (instance_node_data i) = true) as Hkind.
  { unfold is_instance_data. rewrite instance_node_data_lookup, Hnt.
    by apply bool_decide_eq_true. }
  destruct (get_instance_by_data g' _ _ Hx) as (_ & _ & Hget).
  split; [by apply Hget|]. simpl.
  split; [|split; [|split; [|split; [|split]]]].
  - apply NoDup_Permutation; [apply NoDup_edge_targets|apply NoDup_remove_dups|].
    intros y. rewrite elem_of_remove_dups, elem_of_edge_targets, He.
    assert (GraphDB.edges g !! (inst_id i, y) = None) as Hnone.
    { apply eq_None_not_Some. intros [Hxd _]%Hclosed.
      by apply not_elem_of_dom in Hfresh. }
    rewrite Hnone. split.
    + intros (ed & Hed & _). case_bool_decide; naive_solver.
    + intros Hy. rewrite bool_decide_eq_true_2 by done. eauto.
  - intros k v Hk. by rewrite instance_node_data_lookup, Hk.
  - by rewrite instance_node_data_lookup, Hnt.
  - unfold instance_node_data, dict_update.
    rewrite dom_union_L, !dom_insert_L, dom_empty_L. set_solver.
  - unfold py_get. rewrite instance_node_data_lookup.
    by destruct (inst_properties i !! "label").
  - unfold py_get. rewrite !instance_node_data_lookup.
    by destruct (inst_properties i !! "label").
Qed.

Lemma create_instance_round_trip_witness :
  ∃ g' i',
    create_instance Samples.animals
      (Cases.instance "rex" ["Dog"; "Dog"] {[ "name" := PyStr "Rex" ]})
    = Ok (g', Cases.instance "rex" ["Dog"; "Dog"] {[ "name" := PyStr "Rex" ]})
    ∧ get_instance g' "rex" = Ok i'
    ∧ inst_class_ids i' ≡ₚ remove_dups ["Dog"; "Dog"]
    ∧ (∀ k v, ({[ "name" := PyStr "Rex" ]} : gmap string pyval) !! k = Some v →
              inst_properties i' !! k = Some v)
    ∧ inst_properties i' !! "node_type" = Some (PyStr INSTANCE_TYPE)
    ∧ dom (inst_properties i')
      = dom ({[ "name" := PyStr "Rex" ]} : gmap string pyval) ∪ {["label"; "node_type"]}
    ∧ inst_label i'
      = default (PyStr "rex") (({[ "name" := PyStr "Rex" ]} : gmap string pyval) !! "label")
    ∧ inst_properties i' !! "label" = Some (inst_label i').
Proof.
  refine (create_instance_round_trip Samples.animals
            (Cases.instance "rex" ["Dog"; "Dog"] {[ "name" := PyStr "Rex" ]})
            _ _ _ _ _).
  - apply closed_check_sound. vm_compute. reflexivity.
  - vm_compute. reflexivity.
  - intros c Hc. assert (c = "Dog") as -> by set_solver. vm_compute. reflexivity.
  - reflexivity.
  - reflexivity.
Defined.

(** ** Subclasses *)

Section subclasses.
Context (g : GraphDB.t).

Lemma elem_of_edge_sources c l s :
  s ∈ edge_sources g c l ↔
    ∃ ed, GraphDB.edges g !! (s, c) = Some ed ∧ GraphDB.edge_label ed = l.
Proof.
  unfold edge_sources. rewrite list_elem_of_omap. split.
  - intros [[[f t] w] [_ Hs]]. unfold select_source, GraphDB.get_edge in Hs.
    destruct (GraphDB.edges g !! (f, t)) as [ed|] eqn:E; [|done].
    destruct (bool_decide (t = c)) eqn:E1; simpl in Hs; [|done].
    destruct (bool_decide (_ = l)) eqn:E2; [|done].
    apply bool_decide_eq_true in E1, E2. injection Hs as ->. subst t. eauto.
  - intros [ed [E El]]. exists (s, c, GraphDB.edge_weight ed). split.
    + unfold GraphDB.get_all_edges. apply list_elem_of_fmap.
      exists ((s, c), ed). split; [done|]. by apply elem_of_map_to_list.
    + unfold select_source, GraphDB.get_edge. rewrite E.
      by rewrite !bool_decide_eq_true_2.
Qed.

Lemma NoDup_edge_sources c l : NoDup (edge_sources g c l).
Proof.
  unfold edge_sources, GraphDB.get_all_edges.
  assert (NoDup (map_to_list (GraphDB.edges g)).*1) as H
    by apply NoDup_fst_map_to_list.
  induction (map_to_list (GraphDB.edges g)) as [|[[f t] ed] es IH];
    cbn -[select_source].
  - constructor.
  - cbn in H. apply NoDup_cons in H as [Hnotin Hnd].
    destruct (select_source g c l (f, t, GraphDB.edge_weight ed)) as [s|] eqn:E;
      [|by apply IH].
    apply NoDup_cons. split; [|by apply IH].
    intros Hin. apply list_elem_of_omap in Hin as [[[f2 t2] w2] [Hin Hs]].
    apply list_elem_of_fmap in Hin as [[[f3 t3] ed3] [Heq Hin]].
    simpl in Heq. injection Heq as -> -> ->.
    unfold select_source in E, Hs.
    destruct (GraphDB.get_edge g f t); [|done].
    destruct (GraphDB.get_edge g f3 t3); [|done].
    destruct (bool_decide (t = c)) eqn:E1; simpl in E; [|done].
    destruct (bool_decide (t3 = c)) eqn:E2; simpl in Hs; [|done].
    apply bool_decide_eq_true in E1, E2.
    repeat case_match; try done. simplify_eq.
    apply Hnotin. apply list_elem_of_fmap. by exists ((s, c, ed3)).
Qed.

Lemma elem_of_direct_subs c cls :
  cls ∈ direct_subs g c ↔
    subclass_edge g (cls_id cls) c ∧ get_class g (cls_id cls) = Ok cls.
Proof.
  unfold direct_subs. rewrite list_elem_of_omap. split.
  - intros [t [Ht Hc]]. unfold class_of_target in Hc.
    destruct (get_class g t) as [c'|] eqn:E; [|done].
    injection Hc as ->. pose proof (get_class_id _ _ _ E) as <-.
    split; [|done]. by apply elem_of_edge_sources in Ht.
  - intros [He Hc]. exists (cls_id cls). split.
    + by apply elem_of_edge_sources.
    + unfold class_of_target. by rewrite Hc.
Qed.

Lemma direct_subs_sub c cls :
  cls ∈ direct_subs g c → direct_sub g c (cls_id cls).
Proof.
  intros [He Hc]%elem_of_direct_subs. split; [done|].
  apply is_class_alt. eauto.
Qed.

Lemma direct_sub_subs c s :
  direct_sub g c s → ∃ cls, cls ∈ direct_subs g c ∧ cls_id cls = s.
Proof.
  intros [He [cls Hc]%is_class_alt]. exists cls.
  pose proof (get_class_id _ _ _ Hc) as Hid. split; [|done].
  apply elem_of_direct_subs. by rewrite Hid.
Qed.

Lemma subclasses_loop_direct c rec es :
  subclasses_loop g c true rec es
  = Some (omap (class_of_target g) (omap (select_source g c SUBCLASS_RELATION) es)).
Proof.
  induction es as [|[[f t] w] es IH]; [done|].
  cbn -[select_source]. rewrite IH. clear IH.
  generalize (omap (select_source g c SUBCLASS_RELATION) es). intros ts.
  unfold select_source.
  destruct (GraphDB.get_edge g f t) as [ed|];
    destruct (bool_decide (t = c)); simpl; try done.
  destruct (bool_decide (_ = SUBCLASS_RELATION)); [|done].
  simpl. unfold class_of_target.
  by destruct (get_class g f).
Qed.

Lemma subclasses_loop_indirect c rec es :
  subclasses_loop g c false rec es
  = collect rec (omap (class_of_target g)
                      (omap (select_source g c SUBCLASS_RELATION) es)).
Proof.
  induction es as [|[[f t] w] es IH]; [done|].
  cbn -[select_source]. rewrite IH. clear IH.
  generalize (omap (select_source g c SUBCLASS_RELATION) es). intros ts.
  unfold select_source.
  destruct (GraphDB.get_edge g f t) as [ed|];
    destruct (bool_decide (t = c)); simpl; try done.
  destruct (bool_decide (_ = SUBCLASS_RELATION)); [|done].
  simpl. unfold class_of_target.
  destruct (get_class g f) as [cls|] eqn:Ec; [|done].
  simpl. by rewrite (get_class_id _ _ _ Ec).
Qed.

Lemma get_subclasses_direct n c :
  get_subclasses (S n) g c true = Some (direct_subs g c).
Proof. apply subclasses_loop_direct. Qed.

Lemma get_subclasses_step n c :
  get_subclasses (S n) g c false
  = collect (λ t, get_subclasses n g t false) (direct_subs g c).
Proof. apply subclasses_loop_indirect. Qed.

Lemma descendant_step c b :
  descendant g c b ↔
    ∃ sc, sc ∈ direct_subs g c ∧ (b = cls_id sc ∨ descendant g (cls_id sc) b).
Proof.
  split.
  - intros H. inversion H as [? ? Hs|? y ? Hs Ht]; subst.
    + destruct (direct_sub_subs _ _ Hs) as (sc & Hsc & <-). eauto.
    + destruct (direct_sub_subs _ _ Hs) as (sc & Hsc & <-). eauto.
  - intros (sc & Hsc & [->|Ht]); apply direct_subs_sub in Hsc.
    + by apply tc_once.
    + by eapply tc_l.
Qed.

Lemma descendant_is_class c b : descendant g c b → is_class g b.
Proof. induction 1 as [? ? [_ ?]|]; done. Qed.

(** Walking down and walking up meet the same pairs of classes. *)
Lemma descendant_ancestor c b :
  descendant g c b → is_class g c → ancestor g b c.
Proof.
  induction 1 as [x y [He Hy]|x y z [He Hy] _ IH]; intros Hx.
  - by apply tc_once.
  - eapply tc_r; [by apply IH|done].
Qed.

Lemma ancestor_descendant b c :
  ancestor g b c → is_class g b → descendant g c b.
Proof.
  induction 1 as [x y [He Hy]|x y z [He Hy] _ IH]; intros Hx.
  - by apply tc_once.
  - eapply tc_r; [by apply IH|done].
Qed.

Context (Hac : acyclic g).

Lemma descendant_irrefl x : ¬ descendant g x x.
Proof.
  intros H. apply (Hac x). apply descendant_ancestor; [done|].
  by apply descendant_is_class in H.
Qed.

(** The walk down passes through distinct class nodes, so it ends within
    [depth_bound] levels, with exactly the descendants. *)
Lemma get_subclasses_path fuel : ∀ (path : gset string) c,
  path ⊆ dom (GraphDB.nodes g) →
  (∀ p, p ∈ path → rtc (direct_sub g) p c) →
  (size (GraphDB.nodes g) + 1 ≤ fuel + size path)%nat →
  ∃ l, get_subclasses fuel g c false = Some l
       ∧ ∀ b, b ∈ cls_id <$> l ↔ descendant g c b.
Proof.
  induction fuel as [|fuel IH]; intros path c Hsub Hreach Hsz.
  - apply subseteq_size in Hsub. rewrite size_dom in Hsub. lia.
  - rewrite get_subclasses_step.
    assert (∀ sc, sc ∈ direct_subs g c →
              ∃ l, get_subclasses fuel g (cls_id sc) false = Some l
                   ∧ ∀ b, b ∈ cls_id <$> l ↔ descendant g (cls_id sc) b) as Hrec.
    { intros sc Hsc. apply direct_subs_sub in Hsc.
      assert (cls_id sc ∉ path) as Hfresh.
      { intros Hin. apply (descendant_irrefl (cls_id sc)).
        eapply tc_rtc_l; [by apply Hreach|]. by apply tc_once. }
      apply (IH ({[cls_id sc]} ∪ path)).
      - apply union_subseteq. split; [|done].
        apply singleton_subseteq_l. apply is_class_node. by destruct Hsc.
      - intros p [->%elem_of_singleton|Hp]%elem_of_union; [done|].
        eapply rtc_r; [by apply Hreach|done].
      - rewrite size_union by set_solver. rewrite size_singleton. lia. }
    destruct (collect_Some (λ t, get_subclasses fuel g t false) (direct_subs g c))
      as (r & Hr & Hmem).
    { intros sc Hsc. destruct (Hrec sc Hsc) as (l & -> & _). done. }
    exists r. split; [done|]. intros b.
    rewrite descendant_step, list_elem_of_fmap. split.
    + intros (x & -> & Hx). apply Hmem in Hx as (sc & Hsc & Hor).
      exists sc. split; [done|].
      destruct Hor as [->|(ind & Hind & Hin)]; [by left|right].
      destruct (Hrec sc Hsc) as (l & Hl & Hdesc).
      apply Hdesc. apply list_elem_of_fmap. exists x. split; [done|congruence].
    + intros (sc & Hsc & Hor). destruct Hor as [->|Hd'].
      * exists sc. split; [done|]. apply Hmem. exists sc. split; [done|by left].
      * destruct (Hrec sc Hsc) as (l & Hl & Hdesc).
        apply Hdesc in Hd'. apply list_elem_of_fmap in Hd' as (x & -> & Hx).
        exists x. split; [done|]. apply Hmem. exists sc. split; [done|].
        right. eauto.
Qed.

Lemma get_subclasses_descendants fuel c :
  (depth_bound g ≤ fuel)%nat →
  ∃ l, get_subclasses fuel g c false = Some l
       ∧ ∀ b, b ∈ cls_id <$> l ↔ descendant g c b.
Proof.
  intros Hfuel. apply (get_subclasses_path fuel ∅ c).
  - set_solver.
  - intros p Hp. by apply elem_of_empty in Hp.
  - unfold depth_bound in Hfuel. rewrite size_empty. lia.
Qed.

End subclasses.

(** X9: on a store whose subclass relation is acyclic,
    [get_subclasses(a, direct_only=False)] returns, and lists exactly the
    classes from which subclass edges lead to [a] through classes; for a
    class [a] these are the classes whose [get_superclasses] lists [a]. *)
Theorem get_subclasses_spec (g : GraphDB.t) (a : string) (fuel : nat) :
  acyclic g →
  (depth_bound g ≤ fuel)%nat →
  ∃ subs, get_subclasses fuel g a false = Some subs
    ∧ (∀ b, b ∈ cls_id <$> subs ↔ descendant g a b)
    ∧ (is_class g a →
       ∀ b, b ∈ cls_id <$> subs ↔
            is_class g b
            ∧ ∃ sups, get_superclasses fuel g b false = Some sups
                      ∧ a ∈ cls_id <$> sups).
Proof.
  intros Hac Hfuel.
  destruct (get_subclasses_descendants g Hac fuel a Hfuel) as (subs & Hs & Hd).
  exists subs. split; [done|]. split; [done|].
  intros Ha b. rewrite Hd. split.
  - intros Hb. split; [by eapply descendant_is_class|].
    destruct (get_superclasses_ancestors g Hac fuel b) as (sups & Hsups & Hanc).
    { pose proof (depth_lt_bound g Hac b). lia. }
    exists sups. split; [done|]. apply Hanc. by apply descendant_ancestor.
  - intros (Hb & sups & Hsups & Hin).
    destruct (get_superclasses_ancestors g Hac fuel b) as (sups' & Hsups' & Hanc).
    { pose proof (depth_lt_bound g Hac b). lia. }
    rewrite Hsups in Hsups'. injection Hsups' as <-.
    apply ancestor_descendant; [|done]. by apply Hanc.
Qed.

Lemma get_subclasses_spec_witness :
  ∃ subs, get_subclasses (depth_bound Samples.diamond) Samples.diamond "A" false
          = Some subs
    ∧ (∀ b, b ∈ cls_id <$> subs ↔ descendant Samples.diamond "A" b)
    ∧ (is_class Samples.diamond "A" →
       ∀ b, b ∈ cls_id <$> subs ↔
            is_class Samples.diamond b
            ∧ ∃ sups, get_superclasses (depth_bound Samples.diamond)
                        Samples.diamond b false = Some sups
                      ∧ "A" ∈ cls_id <$> sups).
Proof.
  apply (get_subclasses_spec Samples.diamond "A" (depth_bound Samples.diamond)).
  - apply (ranked_acyclic _ Samples.diamond_rank). vm_compute. reflexivity.
  - lia.
Defined.

(** ** Instances of a class *)

Section instances.
Context (g : GraphDB.t).

Lemma get_instance_id x i : get_instance g x = Ok i → inst_id i = x.
Proof.
  unfold get_instance. destruct (negb _); [done|].
  destruct (bool_decide _); [done|]. by intros [= <-].
Qed.

Lemma is_instance_alt x : is_instance g x ↔ ∃ i, get_instance g x = Ok i.
Proof.
  unfold is_instance. destruct (get_instance g x) as [i|e]; simpl; split;
    try done; eauto.
  by intros [? ?].
Qed.

Lemma elem_of_get_all_edges f t w :
  (f, t, w) ∈ GraphDB.get_all_edges g ↔
    ∃ ed, GraphDB.edges g !! (f, t) = Some ed ∧ w = GraphDB.edge_weight ed.
Proof.
  unfold GraphDB.get_all_edges. rewrite list_elem_of_fmap. split.
  - intros ([[f' t'] ed] & [= -> -> ->] & Hin).
    apply elem_of_map_to_list in Hin. eauto.
  - intros (ed & He & ->). exists ((f, t), ed). split; [done|].
    by apply elem_of_map_to_list.
Qed.

Lemma instances_loop_elem (targets : gset string) es x :
  x ∈ inst_id <$> instances_loop g targets es ↔
    ∃ t w ed, (x, t, w) ∈ es ∧ t ∈ targets
              ∧ GraphDB.edges g !! (x, t) = Some ed
              ∧ GraphDB.edge_label ed = TYPE_RELATION
              ∧ is_instance g x.
Proof.
  induction es as [|[[f t] w] es IH].
  - simpl. split; [by intros ?%elem_of_nil|].
    by intros (? & ? & ? & ?%elem_of_nil & _).
  - assert ((∃ t' w' ed, (x, t', w') ∈ (f, t, w) :: es ∧ t' ∈ targets
               ∧ GraphDB.edges g !! (x, t') = Some ed
               ∧ GraphDB.edge_label ed = TYPE_RELATION ∧ is_instance g x)
            ↔ (f = x ∧ t ∈ targets
               ∧ (∃ ed, GraphDB.edges g !! (x, t) = Some ed
                        ∧ GraphDB.edge_label ed = TYPE_RELATION)
               ∧ is_instance g x)
              ∨ x ∈ inst_id <$> instances_loop g targets es) as ->.
    { rewrite IH. split.
      - intros (t' & w' & ed & [[= -> -> ->]|Hin]%elem_of_cons & Ht & He & Hl & Hi).
        + left. eauto 10.
        + right. eauto 10.
      - intros [(-> & Ht & (ed & He & Hl) & Hi)|(t' & w' & ed & Hin & Hrest)].
        + exists t, w, ed. split; [by left|done].
        + exists t', w', ed. split; [by right|done]. }
    simpl. unfold GraphDB.get_edge.
    destruct (bool_decide (t ∈ targets)) eqn:Et;
      [apply bool_decide_eq_true in Et|apply bool_decide_eq_false in Et; naive_solver].
    destruct (GraphDB.edges g !! (f, t)) as [ed|] eqn:Ee; [|naive_solver].
    destruct (bool_decide (_ = TYPE_RELATION)) eqn:El;
      [apply bool_decide_eq_true in El|apply bool_decide_eq_false in El; naive_solver].
    destruct (get_instance g f) as [i|e] eqn:Ei.
    + pose proof (get_instance_id _ _ Ei) as Hid.
      rewrite fmap_cons, elem_of_cons, Hid. split.
      * intros [->|Hin]; [left|by right].
        repeat split; [done|eauto|]. apply is_instance_alt. eauto.
      * intros [(-> & _)|Hin]; [by left|by right].
    + split; [by right|]. intros [(-> & _ & _ & Hi)|Hin]; [|done].
      apply is_instance_alt in Hi as [i Hi]. congruence.
Qed.

Lemma instances_loop_ids (targets : gset string) x :
  x ∈ inst_id <$> instances_loop g targets (GraphDB.get_all_edges g) ↔
    ∃ c, c ∈ targets ∧ direct_instance g c x.
Proof.
  rewrite instances_loop_elem. split.
  - intros (t & w & ed & _ & Ht & He & Hl & Hi). exists t.
    split; [done|]. split; [by exists ed|done].
  - intros (c & Hc & (ed & He & Hl) & Hi).
    exists c, (GraphDB.edge_weight ed), ed. split; [|done].
    apply elem_of_get_all_edges. eauto.
Qed.

(** With one target class the scan is a selection of edge sources. *)
Lemma instances_loop_single c es :
  instances_loop g {[c]} es
  = omap (λ x, match get_instance g x with Ok i => Some i | Raise _ => None end)
         (omap (select_source g c TYPE_RELATION) es).
Proof.
  induction es as [|[[f t] w] es IH]; [done|].
  cbn -[select_source]. rewrite IH. clear IH.
  unfold select_source.
  destruct (GraphDB.get_edge g f t) as [ed|].
  - destruct (decide (t = c)) as [->|Hne].
    + rewrite (bool_decide_eq_true_2 (c ∈ ({[c]} : gset string)))
        by (by apply elem_of_singleton).
      rewrite (bool_decide_eq_true_2 (c = c)) by done. simpl.
      destruct (bool_decide (_ = TYPE_RELATION)); [|done].
      simpl. by destruct (get_instance g f).
    + rewrite (bool_decide_eq_false_2 (t ∈ ({[c]} : gset string)))
        by (by rewrite elem_of_singleton).
      by rewrite (bool_decide_eq_false_2 (t = c)) by done.
  - by destruct (bool_decide (t ∈ ({[c]} : gset string))).
Qed.

Lemma NoDup_omap_key {A} (f : string → option A) (key : A → string) l :
  (∀ x i, f x = Some i → key i = x) → NoDup l → NoDup (key <$> omap f l).
Proof.
  intros Hkey. induction 1 as [|x l Hnotin Hnd IH]; simpl; [constructor|].
  destruct (f x) as [i|] eqn:E; [|done].
  simpl. apply NoDup_cons. split; [|done].
  rewrite (Hkey _ _ E). intros Hin. apply Hnotin.
  apply list_elem_of_fmap in Hin as (j & -> & Hj).
  apply list_elem_of_omap in Hj as (y & Hy & Hfy).
  by rewrite (Hkey _ _ Hfy).
Qed.

Lemma direct_instances_NoDup c :
  NoDup (inst_id <$> instances_loop g {[c]} (GraphDB.get_all_edges g)).
Proof.
  rewrite instances_loop_single. apply NoDup_omap_key.
  - intros x i Hi. destruct (get_instance g x) as [j|] eqn:E; [|done].
    injection Hi as <-. by eapply get_instance_id.
  - apply (NoDup_edge_sources g).
Qed.

Lemma direct_instances_ids c x :
  x ∈ inst_id <$> instances_loop g {[c]} (GraphDB.get_all_edges g)
  ↔ direct_instance g c x.
Proof.
  rewrite instances_loop_ids. split.
  - by intros (c' & ->%elem_of_singleton & H).
  - intros H. exists c. split; [by apply elem_of_singleton|done].
Qed.

End instances.

(** X10: [get_instances_of_class(c)] lists, each once, the instances with
    an [rdf:type] edge to [c]; with [direct_only=False], on a store whose
    subclass relation is acyclic, it returns and lists the instances with
    such an edge to [c] or to a class below [c]. *)
Theorem get_instances_of_class_spec (g : GraphDB.t) (c : string) (fuel : nat) :
  (∃ l, get_instances_of_class fuel g c true = Some l
        ∧ NoDup (inst_id <$> l)
        ∧ ∀ x, x ∈ inst_id <$> l ↔ direct_instance g c x)
  ∧ (acyclic g → (depth_bound g ≤ fuel)%nat →
     ∃ l, get_instances_of_class fuel g c false = Some l
          ∧ ∀ x, x ∈ inst_id <$> l ↔
                 ∃ c', (c' = c ∨ descendant g c c') ∧ direct_instance g c' x).
Proof.
  split.
  - eexists. split; [reflexivity|]. split.
    + apply direct_instances_NoDup.
    + apply direct_instances_ids.
  - intros Hac Hfuel. unfold get_instances_of_class.
    destruct (get_subclasses_descendants g Hac fuel c Hfuel) as (subs & -> & Hd).
    eexists. split; [reflexivity|]. intros x.
    rewrite instances_loop_ids. split.
    + intros (c' & Hc' & Hi). exists c'. split; [|done].
      apply elem_of_union in Hc' as [->%elem_of_singleton|Hc']; [by left|].
      right. apply Hd. by apply elem_of_list_to_set in Hc'.
    + intros (c' & [Heq|Hc'] & Hi); exists c'; (split; [|done]).
      * apply elem_of_union_l. by apply elem_of_singleton.
      * apply elem_of_union_r, elem_of_list_to_set. by apply Hd.
Qed.

Lemma get_instances_of_class_spec_witness :
  (∃ l, get_instances_of_class (depth_bound Cases.kennel) Cases.kennel "Animal" true
        = Some l
        ∧ NoDup (inst_id <$> l)
        ∧ ∀ x, x ∈ inst_id <$> l ↔ direct_instance Cases.kennel "Animal" x)
  ∧ ∃ l, get_instances_of_class (depth_bound Cases.kennel) Cases.kennel "Animal" false
         = Some l
         ∧ ∀ x, x ∈ inst_id <$> l ↔
                ∃ c', (c' = "Animal" ∨ descendant Cases.kennel "Animal" c')
                      ∧ direct_instance Cases.kennel c' x.
Proof.
  destruct (get_instances_of_class_spec Cases.kennel "Animal"
              (depth_bound Cases.kennel)) as [Hdirect Hall].
  split; [exact Hdirect|]. apply Hall.
  - apply service_store_acyclic, service_store_run, service_store_init.
  - lia.
Defined.

(** ** Deleting a class *)

Section deletion.
Context (g : GraphDB.t).

Lemma direct_instances_nil c :
  instances_loop g {[c]} (GraphDB.get_all_edges g) = []
  ↔ ∀ x, ¬ direct_instance g c x.
Proof.
  split.
  - intros Hnil x Hx. apply direct_instances_ids in Hx.
    rewrite Hnil in Hx. by apply elem_of_nil in Hx.
  - intros Hno. destruct (instances_loop _ _ _) as [|i l] eqn:E; [done|].
    exfalso. apply (Hno (inst_id i)). apply direct_instances_ids.
    rewrite E. by left.
Qed.

Lemma direct_subs_nil c : direct_subs g c = [] ↔ ∀ x, ¬ direct_sub g c x.
Proof.
  split.
  - intros Hnil x Hx. apply direct_sub_subs in Hx as (cls & Hin & _).
    rewrite Hnil in Hin. by apply elem_of_nil in Hin.
  - intros Hno. destruct (direct_subs g c) as [|s l] eqn:E; [done|].
    exfalso. apply (Hno (cls_id s)). apply direct_subs_sub.
    rewrite E. by left.
Qed.

Lemma direct_subs_NoDup c : NoDup (cls_id <$> direct_subs g c).
Proof.
  unfold direct_subs. apply NoDup_omap_key.
  - intros x cls Hc. unfold class_of_target in Hc.
    destruct (get_class g x) as [c'|] eqn:E; [|done].
    injection Hc as <-. by eapply get_class_id.
  - apply NoDup_edge_sources.
Qed.

Lemma direct_subs_ids c x : x ∈ cls_id <$> direct_subs g c ↔ direct_sub g c x.
Proof.
  rewrite list_elem_of_fmap. split.
  - intros (cls & -> & Hin). by apply direct_subs_sub.
  - intros (cls & Hin & <-)%direct_sub_subs. eauto.
Qed.

Lemma delete_node_gone g' c :
  delete_node g c = Ok g' →
  get_class g' c = Raise (NodeNotFoundError ("Class '" ++ c ++ "' not found")).
Proof.
  unfold delete_node. destruct (GraphDB.node_exists g c); [|done].
  intros [= <-]. unfold get_class.
  rewrite (proj2 (node_exists_false _ c)); [done|]. simpl. apply lookup_delete_eq.
Qed.

End deletion.

(** X11: [delete_class] without [force] is refused with
    [InvalidOperationError] when the class has direct instances, the message
    giving their number, and otherwise when it has direct subclasses; with
    neither it does what the forced call does.  The forced call on a node of
    the store deletes it, and [get_class] on that id then raises
    [NodeNotFoundError]. *)
Theorem delete_class_guard (g : GraphDB.t) (c : string) :
  GraphDB.node_exists g c = true →
  (∃ g', delete_class g c true = Some (Deleted g')
         ∧ get_class g' c
           = Raise (NodeNotFoundError ("Class '" ++ c ++ "' not found")))
  ∧ ((∃ x, direct_instance g c x) →
     ∃ l, NoDup l ∧ (∀ x, x ∈ l ↔ direct_instance g c x)
          ∧ delete_class g c false
            = Some (DeleteRaise (InvalidOperationError
                ("Cannot delete class '" ++ c ++ "': has "
                   ++ pretty (length l) ++ " instances"))))
  ∧ ((∀ x, ¬ direct_instance g c x) → (∃ x, direct_sub g c x) →
     ∃ l, NoDup l ∧ (∀ x, x ∈ l ↔ direct_sub g c x)
          ∧ delete_class g c false
            = Some (DeleteRaise (InvalidOperationError
                ("Cannot delete class '" ++ c ++ "': has "
                   ++ pretty (length l) ++ " subclasses"))))
  ∧ ((∀ x, ¬ direct_instance g c x) → (∀ x, ¬ direct_sub g c x) →
     delete_class g c false = delete_class g c true).
Proof.
  intros Hex. split; [|split; [|split]].
  - unfold delete_class. destruct (delete_node g c) as [g'|e] eqn:E.
    + exists g'. split; [done|]. by eapply delete_node_gone.
    + unfold delete_node in E. by rewrite Hex in E.
  - intros [x Hx].
    exists (inst_id <$> instances_loop g {[c]} (GraphDB.get_all_edges g)).
    split; [apply direct_instances_NoDup|].
    split; [apply direct_instances_ids|].
    unfold delete_class, get_instances_of_class.
    destruct (instances_loop _ _ _) as [|i l] eqn:E.
    + by destruct (proj1 (direct_instances_nil g c) E x).
    + by rewrite length_fmap.
  - intros Hno [x Hx]. exists (cls_id <$> direct_subs g c).
    split; [apply direct_subs_NoDup|]. split; [apply direct_subs_ids|].
    unfold delete_class, get_instances_of_class.
    rewrite (proj2 (direct_instances_nil g c) Hno), get_subclasses_direct.
    destruct (direct_subs g c) as [|s l] eqn:E.
    + by destruct (proj1 (direct_subs_nil g c) E x).
    + by rewrite length_fmap.
  - intros Hno Hnos. unfold delete_class, get_instances_of_class.
    rewrite (proj2 (direct_instances_nil g c) Hno), get_subclasses_direct.
    by rewrite (proj2 (direct_subs_nil g c) Hnos).
Qed.

Lemma delete_class_guard_witness :
  (∃ g', delete_class Cases.kennel "Dog" true = Some (Deleted g')
         ∧ get_class g' "Dog"
           = Raise (NodeNotFoundError ("Class '" ++ "Dog" ++ "' not found")))
  ∧ ((∃ x, direct_instance Cases.kennel "Dog" x) →
     ∃ l, NoDup l ∧ (∀ x, x ∈ l ↔ direct_instance Cases.kennel "Dog" x)
          ∧ delete_class Cases.kennel "Dog" false
            = Some (DeleteRaise (InvalidOperationError
                ("Cannot delete class '" ++ "Dog" ++ "': has "
                   ++ pretty (length l) ++ " instances"))))
  ∧ ((∀ x, ¬ direct_instance Cases.kennel "Dog" x) →
     (∃ x, direct_sub Cases.kennel "Dog" x) →
     ∃ l, NoDup l ∧ (∀ x, x ∈ l ↔ direct_sub Cases.kennel "Dog" x)
          ∧ delete_class Cases.kennel "Dog" false
            = Some (DeleteRaise (InvalidOperationError
                ("Cannot delete class '" ++ "Dog" ++ "': has "
                   ++ pretty (length l) ++ " subclasses"))))
  ∧ ((∀ x, ¬ direct_instance Cases.kennel "Dog" x) →
     (∀ x, ¬ direct_sub Cases.kennel "Dog" x) →
     delete_class Cases.kennel "Dog" false = delete_class Cases.kennel "Dog" true).
Proof.
  apply (delete_class_guard Cases.kennel "Dog"). vm_compute. reflexivity.
Defined.

(** ** The warnings of [validate_ontology] *)

Section orphans.

Lemma omap_nil {A B} (f : A → option B) l :
  (∀ x, x ∈ l → f x = None) → omap f l = [].
Proof.
  induction l as [|x l IH]; intros H; [done|].
  simpl. rewrite (H x) by (by left). apply IH. intros y Hy. apply H. by right.
Qed.

Lemma orphan_warnings_nil g : parented g → orphan_warnings g = [].
Proof.
  intros Hp. unfold orphan_warnings. apply omap_nil. intros c Hc.
  apply get_all_classes_elem in Hc.
  destruct (decide (cls_id c = "owl:Thing")) as [Hroot|Hroot].
  { by rewrite (bool_decide_eq_true_2 _ Hroot). }
  rewrite (bool_decide_eq_false_2 _ Hroot). simpl.
  destruct (Hp (cls_id c)) as [p Hedge]; [apply is_class_alt; eauto|done|].
  apply get_class_Ok in Hc as (_ & _ & _ & Hparents).
  rewrite bool_decide_eq_false_2; [done|].
  intros Hnil. apply elem_of_edge_targets in Hedge.
  rewrite <- Hparents, Hnil in Hedge. by apply elem_of_nil in Hedge.
Qed.

(** An accepted request leaves the edges of the other nodes alone. *)
Lemma accepted_request_keeps g r x y :
  accepted g r = true → x ≠ request_id r →
  GraphDB.edges (apply_request g r) !! (x, y) = GraphDB.edges g !! (x, y).
Proof.
  intros Ha Hx. destruct r as [c|p|i]; simpl in *.
  - destruct (create_class g c) as [[g' c']|] eqn:E; [|done].
    apply create_class_inv in E as (_ & _ & _ & _ & ->).
    rewrite !bool_decide_eq_false_2; [done|naive_solver..].
  - destruct (create_property g p) as [[g' p']|] eqn:E; [|done].
    apply create_property_inv in E as (_ & _ & _ & ->).
    rewrite !bool_decide_eq_false_2; [done|naive_solver..].
  - destruct (create_instance g i) as [[g' i']|] eqn:E; [|done].
    apply create_instance_inv in E as (_ & _ & _ & _ & ->).
    rewrite !bool_decide_eq_false_2; [done|naive_solver..].
Qed.

Lemma is_class_by_data g x :
  is_class g x ↔ ∃ d, GraphDB.nodes g !! x = Some d ∧ is_class_data d = true.
Proof.
  split.
  - intros Hc. pose proof (is_class_node g x Hc) as [d Hd]%elem_of_dom.
    exists d. split; [done|].
    destruct (get_class_by_data g x d Hd) as [<- _]. exact Hc.
  - intros (d & Hd & Hk). unfold is_class.
    destruct (get_class_by_data g x d Hd) as [-> _]. exact Hk.
Qed.

Lemma request_data_kind r :
  reserved_free r → is_class_data (request_data r) = creates_class r.
Proof.
  destruct r as [c|p|i]; simpl; [intros [Hr _]|intros _|intros [Hr _]];
    unfold is_class_data.
  - rewrite class_node_data_lookup, Hr. by apply bool_decide_eq_true.
  - by apply bool_decide_eq_false.
  - rewrite instance_node_data_lookup, Hr. by apply bool_decide_eq_false.
Qed.

Lemma parented_step g r :
  reserved_free r → keeps_parent r → parented g → parented (apply_request g r).
Proof.
  intros Hr Hk Hp. destruct (accepted g r) eqn:Ea;
    [|by rewrite rejected_request].
  destruct (accepted_request g r Ea) as (Hf & Hn & _).
  intros c (d & Hd & Hkind)%is_class_by_data Hroot.
  rewrite Hn in Hd. destruct (decide (c = request_id r)) as [->|Hne].
  - rewrite lookup_insert_eq in Hd. injection Hd as <-.
    rewrite (request_data_kind r Hr) in Hkind.
    destruct r as [X|p|i]; simpl in *; try done.
    destruct Hk as (p & Hp1 & Hp2 & Hp3). exists p.
    destruct (create_class g X) as [[g' X']|] eqn:E; [|done].
    apply create_class_inv in E as (_ & _ & _ & _ & He).
    exists (edge SUBCLASS_RELATION 1). split; [|done].
    rewrite He. rewrite !bool_decide_eq_false_2 by naive_solver.
    by rewrite bool_decide_eq_true_2.
  - rewrite lookup_insert_ne in Hd by done.
    destruct (Hp c) as (p & ed & He & Hl); [apply is_class_by_data; eauto|done|].
    exists p, ed. split; [|done]. by rewrite accepted_request_keeps.
Qed.

Lemma parented_init : parented init.
Proof.
  intros c (d & Hd & _)%is_class_by_data Hroot. exfalso. apply Hroot.
  assert (dom (GraphDB.nodes init) = {["owl:Thing"]}) as Hdom
    by (vm_compute; reflexivity).
  apply (elem_of_dom_2 (D := gset string)) in Hd. rewrite Hdom in Hd.
  by apply elem_of_singleton in Hd.
Qed.

Lemma parented_run rs : ∀ g,
  Forall reserved_free rs → Forall keeps_parent rs →
  parented g → parented (run g rs).
Proof.
  induction rs as [|r rs IH]; intros g Hr Hk Hp; [done|].
  apply Forall_cons in Hr as [Hr Hrs]. apply Forall_cons in Hk as [Hk Hks].
  simpl. apply IH; [done..|]. by apply parented_step.
Qed.

End orphans.

(** X12: on a store built by requests that leave the keys [node_type] and
    [data] alone and whose classes each name a parent that is not also
    listed as equivalent or disjoint, [validate_ontology] adds no error and
    no warning. *)
Theorem validate_ontology_clean (rs : list request) :
  Forall reserved_free rs →
  Forall keeps_parent rs →
  validate_ontology (run init rs)
  = Some {| added_errors := []; added_warnings := [] |}.
Proof.
  intros Hr Hk. unfold validate_ontology.
  rewrite acyclic_report
    by apply service_store_acyclic, service_store_run, service_store_init.
  simpl. rewrite orphan_warnings_nil; [done|].
  apply parented_run; [done..|apply parented_init].
Qed.

Lemma validate_ontology_clean_witness :
  validate_ontology (run init Cases.household)
  = Some {| added_errors := []; added_warnings := [] |}.
Proof.
  apply (validate_ontology_clean Cases.household).
  - repeat constructor.
  - apply Forall_cons. split.
    { exists "owl:Thing". split; [by left|]. split; apply not_elem_of_nil. }
    apply Forall_cons. split.
    { exists "Animal". split; [by left|]. split; apply not_elem_of_nil. }
    apply Forall_cons. split; [exact I|]. constructor.
Defined.

(** ** The hierarchy tree *)

Section tree.
Context (g : GraphDB.t).

Lemma build_hierarchy_S n c d :
  build_hierarchy (S n) g c d
  = match get_class g c with
    | Raise e => Some (Raise e)
    | Ok class_obj =>
        match children_loop c (λ s, build_hierarchy n g s (d + 1))
                (direct_subs g c) with
        | None => None
        | Some (Raise e) => Some (Raise e)
        | Some (Ok children) =>
            Some (Ok (hierarchy_node c (cls_label class_obj) None
                        (length (instances_loop g {[c]} (GraphDB.get_all_edges g)))
                        d children))
        end
    end.
Proof.
  transitivity
    (match get_class g c with
     | Raise e => Some (Raise e)
     | Ok class_obj =>
         match get_subclasses 1 g c true, get_instances_of_class 1 g c true with
         | Some subclasses, Some instances =>
             match children_loop c (λ s, build_hierarchy n g s (d + 1))
                     subclasses with
             | None => None
             | Some (Raise e) => Some (Raise e)
             | Some (Ok children) =>
                 Some (Ok (hierarchy_node c (cls_label class_obj) None
                             (length instances) d children))
             end
         | _, _ => None
         end
     end); [reflexivity|].
  by rewrite get_subclasses_direct.
Qed.

Lemma set_parent_placed p c d t :
  placed g p d t → placed g (Some c) d (set_parent_id c t).
Proof. intros H. destruct H. simpl. by constructor. Qed.

Lemma set_parent_preorder c t : preorder (set_parent_id c t) = preorder t.
Proof. by destruct t. Qed.

Lemma set_parent_id_id c t : hierarchy_id (set_parent_id c t) = hierarchy_id t.
Proof. by destruct t. Qed.

Lemma placed_id p d t : placed g p d t → ∃ ids, preorder t = hierarchy_id t :: ids.
Proof. intros H. destruct H. simpl. eauto. Qed.

Lemma children_loop_spec n c d l : ∀ r,
  (∀ s ind, s ∈ l → get_subclasses n g (cls_id s) false = Some ind →
     ∃ t, build_hierarchy n g (cls_id s) (d + 1) = Some (Ok t)
          ∧ preorder t = cls_id s :: (cls_id <$> ind)
          ∧ placed g None (d + 1) t) →
  collect (λ t, get_subclasses n g t false) l = Some r →
  ∃ ch, children_loop c (λ s, build_hierarchy n g s (d + 1)) l = Some (Ok ch)
        ∧ concat (preorder <$> ch) = cls_id <$> r
        ∧ hierarchy_id <$> ch = cls_id <$> l
        ∧ Forall (placed g (Some c) (d + 1)) ch.
Proof.
  induction l as [|s l IH]; intros r Hrec Hr.
  - injection Hr as <-. exists []. by repeat split.
  - simpl in Hr. destruct (get_subclasses n g (cls_id s) false) as [ind|] eqn:Es;
      [|done].
    destruct (collect _ l) as [r'|] eqn:Er; [|done]. injection Hr as <-.
    destruct (Hrec s ind) as (t & Ht & Hpre & Hpl); [by left|done|].
    destruct (IH r') as (ch & Hch & Hcat & Hids & Hall); [|done|].
    { intros s' ind' Hs'. apply Hrec. by right. }
    exists (set_parent_id c t :: ch).
    split; [simpl; by rewrite Ht, Hch|]. split; [|split].
    + rewrite !fmap_cons, fmap_app. simpl concat.
      by rewrite set_parent_preorder, Hpre, Hcat.
    + rewrite !fmap_cons, set_parent_id_id, Hids. f_equal.
      destruct (placed_id _ _ _ Hpl) as [ids Hids']. rewrite Hids' in Hpre.
      by injection Hpre.
    + constructor; [|done]. by eapply set_parent_placed.
Qed.

(** Where [get_subclasses] returns, [build_hierarchy] does, with the same
    classes in the same order. *)
Lemma build_hierarchy_spec n : ∀ c d subs,
  get_subclasses n g c false = Some subs →
  is_class g c →
  ∃ t, build_hierarchy n g c d = Some (Ok t)
       ∧ preorder t = c :: (cls_id <$> subs)
       ∧ placed g None d t.
Proof.
  induction n as [|n IH]; intros c d subs Hsubs Hc; [done|].
  rewrite get_subclasses_step in Hsubs. rewrite build_hierarchy_S.
  apply is_class_alt in Hc as [cls Hcls]. rewrite Hcls.
  destruct (children_loop_spec n c d (direct_subs g c) subs)
    as (ch & -> & Hcat & Hids & Hall); [|done|].
  { intros s ind Hs Hind. apply IH; [done|].
    apply direct_subs_sub in Hs. by destruct Hs. }
  eexists. split; [reflexivity|]. simpl. rewrite Hcat. split; [done|].
  pose proof (get_class_id _ _ _ Hcls) as Hid. rewrite <- Hid at 1.
  rewrite <- Hid in Hall.
  constructor; [by rewrite Hid| |by rewrite Hid|done].
  exists (inst_id <$> instances_loop g {[c]} (GraphDB.get_all_edges g)).
  split; [apply direct_instances_NoDup|]. rewrite Hid.
  split; [apply direct_instances_ids|by rewrite length_fmap].
Qed.

(** On a class, [build_hierarchy] raises nothing. *)
Lemma build_hierarchy_no_raise n : ∀ c d e,
  is_class g c → build_hierarchy n g c d ≠ Some (Raise e).
Proof.
  induction n as [|n IH]; intros c d e Hc; [done|].
  rewrite build_hierarchy_S. apply is_class_alt in Hc as [cls ->].
  assert (∀ l, (∀ s, s ∈ l → is_class g (cls_id s)) →
            children_loop c (λ s, build_hierarchy n g s (d + 1)) l
            ≠ Some (Raise e)) as Hloop.
  { induction l as [|s l IHl]; intros Hl; [done|]. simpl.
    destruct (build_hierarchy n g (cls_id s) (d + 1)) as [[t|e']|] eqn:Es; [| |done].
    - destruct (children_loop _ _ l) as [[ch|e']|] eqn:El; [done| |done].
      intros [= ->]. eapply IHl; [|done]. intros s' Hs'. apply Hl. by right.
    - exfalso. eapply IH; [|exact Es]. apply Hl. by left. }
  destruct (children_loop _ _ _) as [[ch|e']|] eqn:El; [done| |done].
  intros [= ->]. eapply Hloop; [|exact El].
  intros s Hs. apply direct_subs_sub in Hs. by destruct Hs.
Qed.

Lemma children_loop_None c rec l s :
  s ∈ l → rec (cls_id s) = None →
  (∀ s' e, s' ∈ l → rec (cls_id s') ≠ Some (Raise e)) →
  children_loop c rec l = None.
Proof.
  induction l as [|s' l IH]; intros Hin Hs Hno; [by apply elem_of_nil in Hin|].
  simpl. destruct (rec (cls_id s')) as [[t|e]|] eqn:Es'; [| |done].
  - apply elem_of_cons in Hin as [->|Hin]; [congruence|].
    rewrite IH; [done..|]. intros s'' e Hs''. apply Hno. by right.
  - exfalso. eapply Hno; [|exact Es']. by left.
Qed.

Lemma tc_first {A} (R : relation A) x z : tc R x z → ∃ y, R x y ∧ rtc R y z.
Proof.
  destruct 1 as [x z H|x y z H Ht].
  - exists z. by split.
  - exists y. split; [done|]. by apply tc_rtc.
Qed.

Lemma above_cycle_step c :
  above_cycle g c → ∃ s, s ∈ direct_subs g c ∧ above_cycle g (cls_id s).
Proof.
  intros (x & Hreach & Hx).
  assert (∃ y, direct_sub g c y ∧ above_cycle g y) as (y & Hy & Hab).
  { destruct (rtc_inv _ _ Hreach) as [<-|(y & Hstep & Hrest)].
    - destruct (tc_first _ _ _ Hx) as (y & Hstep & Hrest).
      exists y. split; [done|]. exists y. split; [done|].
      eapply tc_rtc_l; [exact Hrest|by apply tc_once].
    - exists y. split; [done|]. by exists x. }
  destruct (direct_sub_subs _ _ _ Hy) as (s & Hs & <-). eauto.
Qed.

Lemma build_hierarchy_above_cycle n : ∀ c d,
  is_class g c → above_cycle g c → build_hierarchy n g c d = None.
Proof.
  induction n as [|n IH]; intros c d Hc Hab; [done|].
  rewrite build_hierarchy_S. apply is_class_alt in Hc as [cls ->].
  destruct (above_cycle_step c Hab) as (s & Hs & Hab').
  rewrite (children_loop_None c _ _ s); [done|done| |].
  - apply IH; [|done]. apply direct_subs_sub in Hs. by destruct Hs.
  - intros s' e Hs'. apply build_hierarchy_no_raise.
    apply direct_subs_sub in Hs'. by destruct Hs'.
Qed.

End tree.

(** X14: on a store whose subclass relation is acyclic,
    [get_class_hierarchy] hands on what [get_class] raises for the root id,
    and for a class returns its tree: depth 0 and no parent at the root,
    every child one level down under its parent's id with the label and the
    direct instance count of its class, the children being the direct
    subclasses.  Read node before children, the tree lists the root and
    then the classes of [get_subclasses(root, direct_only=False)] in the
    same order, so a class has one node for each path that leads up to the
    root. *)
Theorem get_class_hierarchy_spec (g : GraphDB.t) (root_id : option string)
    (fuel : nat) :
  acyclic g →
  (depth_bound g ≤ fuel)%nat →
  (∀ e, get_class g (default "owl:Thing" root_id) = Raise e →
        get_class_hierarchy fuel g root_id = Some (Raise e))
  ∧ (is_class g (default "owl:Thing" root_id) →
     ∃ t subs,
       get_class_hierarchy fuel g root_id = Some (Ok t)
       ∧ get_subclasses fuel g (default "owl:Thing" root_id) false = Some subs
       ∧ preorder t = default "owl:Thing" root_id :: (cls_id <$> subs)
       ∧ placed g None 0 t).
Proof.
  intros Hac Hfuel. unfold get_class_hierarchy. split.
  - intros e He. destruct fuel as [|fuel]; [unfold depth_bound in Hfuel; lia|].
    by rewrite build_hierarchy_S, He.
  - intros Hc.
    destruct (get_subclasses_descendants g Hac fuel (default "owl:Thing" root_id)
                Hfuel) as (subs & Hs & _).
    destruct (build_hierarchy_spec g fuel _ 0 subs Hs Hc) as (t & Ht & Hpre & Hpl).
    by exists t, subs.
Qed.

Lemma get_class_hierarchy_spec_witness :
  (∀ e, get_class Samples.diamond (default "owl:Thing" (Some "A")) = Raise e →
        get_class_hierarchy (depth_bound Samples.diamond) Samples.diamond (Some "A")
        = Some (Raise e))
  ∧ (is_class Samples.diamond (default "owl:Thing" (Some "A")) →
     ∃ t subs,
       get_class_hierarchy (depth_bound Samples.diamond) Samples.diamond (Some "A")
       = Some (Ok t)
       ∧ get_subclasses (depth_bound Samples.diamond) Samples.diamond
           (default "owl:Thing" (Some "A")) false = Some subs
       ∧ preorder t = default "owl:Thing" (Some "A") :: (cls_id <$> subs)
       ∧ placed Samples.diamond None 0 t).
Proof.
  apply (get_class_hierarchy_spec Samples.diamond (Some "A")
           (depth_bound Samples.diamond)).
  - apply (ranked_acyclic _ Samples.diamond_rank). vm_compute. reflexivity.
  - lia.
Defined.

(** X15: [build_hierarchy] has no guard against cycles: where walking down
    from the root class reaches a class that is its own descendant, the
    recursion does not end by itself; whatever bound the depth is given,
    the bound is reached ([None]).  In Python it is the recursion limit of
    the interpreter that stops it. *)
Theorem get_class_hierarchy_on_cycle (g : GraphDB.t) (root_id : option string)
    (fuel : nat) :
  is_class g (default "owl:Thing" root_id) →
  above_cycle g (default "owl:Thing" root_id) →
  get_class_hierarchy fuel g root_id = None.
Proof.
  intros Hc Hab. unfold get_class_hierarchy.
  by apply build_hierarchy_above_cycle.
Qed.

Lemma get_class_hierarchy_on_cycle_witness :
  get_class_hierarchy 1000 Samples.two_cycle (Some "A") = None.
Proof.
  apply (get_class_hierarchy_on_cycle Samples.two_cycle (Some "A") 1000).
  - vm_compute. reflexivity.
  - exists "A". split; [apply rtc_refl|].
    apply tc_l with "B"; [|apply tc_once];
      (split; [eexists; split; vm_compute; reflexivity|vm_compute; reflexivity]).
Defined.

(** ** What [get_class_full] returns *)

Section full.
Context (g : GraphDB.t).

Lemma get_property_id P p : get_property g P = Ok p → prop_id p = P.
Proof. intros H. by apply get_property_Ok in H as [? _]. Qed.

Lemma get_all_properties_elem p :
  p ∈ get_all_properties g → get_property g (prop_id p) = Ok p.
Proof.
  unfold get_all_properties. intros (n & Hn & H)%list_elem_of_omap.
  destruct (_ && _); [|done].
  destruct (get_property g n) as [p'|] eqn:E; [|done].
  injection H as ->. by rewrite (get_property_id _ _ E).
Qed.

Lemma get_class_properties_inv c e :
  e ∈ get_class_properties g c →
  ∃ P, get_property g (prop_id P) = Ok P ∧ c ∈ prop_domain P ∧ e = direct_entry P.
Proof.
  unfold get_class_properties.
  intros (P & -> & HP)%list_elem_of_fmap.
  apply list_elem_of_In, filter_In in HP as [HP Hdom].
  apply list_elem_of_In, get_all_properties_elem in HP.
  apply bool_decide_eq_true in Hdom. eauto.
Qed.

Lemma inherit_loop_sound rec c ps : ∀ inh v l v',
  (∀ p w l' w', rec p w = Some (Ok l', w') → Forall (inherited_from g p) l') →
  (∀ p, p ∈ ps → subclass_edge g c p) →
  Forall (inherited_from g c) inh →
  inherit_loop g rec ps inh v = Some (Ok l, v') →
  Forall (inherited_from g c) l.
Proof.
  induction ps as [|q ps IH]; intros inh v l v' Hrec Hps Hinh Hl.
  - simpl in Hl. by injection Hl as <- <-.
  - assert (∀ p, p ∈ ps → subclass_edge g c p) as Hps'.
    { intros p Hp. apply Hps. by right. }
    simpl in Hl. destruct (decide (q = "owl:Thing")) as [Hroot|Hroot].
    { rewrite (bool_decide_eq_true_2 _ Hroot) in Hl. by eapply IH. }
    rewrite (bool_decide_eq_false_2 _ Hroot) in Hl.
    destruct (get_class g q) as [clsq|e] eqn:Eq.
    + pose proof (get_class_id _ _ _ Eq) as Hid.
      assert (climbs g c [clsq]) as Hone.
      { split.
        - simpl. rewrite Hid. split; [|done]. split; [apply Hps; by left|].
          apply is_class_alt. eauto.
        - constructor; [|done]. by rewrite Hid. }
      assert (Forall (inherited_from g c)
                (inh ++ (from_parent (cls_label clsq) <$> get_class_properties g q)))
        as Hinh'.
      { apply Forall_app. split; [done|]. apply Forall_forall.
        intros e (d & -> & Hd)%list_elem_of_fmap.
        apply get_class_properties_inv in Hd as (P & HP & Hdom & ->).
        exists [], clsq, P. split; [exact Hone|]. split; [done|].
        split; [by rewrite Hid|reflexivity]. }
      destruct (rec q v) as [[[gp|e] w]|] eqn:Er; [| |done].
      * eapply IH; [done|done| |exact Hl].
        apply Forall_app. split; [done|]. apply Forall_forall.
        intros e (d & -> & Hd)%list_elem_of_fmap.
        pose proof (Hrec _ _ _ _ Er) as Hgp. rewrite Forall_forall in Hgp.
        destruct (Hgp d Hd) as (up & top & P & [Hch Hall] & HP & Hdom & ->).
        exists (clsq :: up), top, P. split; [|split; [done|split; [done|reflexivity]]].
        destruct Hone as [[Hstep _] Hq%Forall_inv]. split.
        -- simpl. rewrite Hid. split; [by rewrite Hid in Hstep|done].
        -- by constructor.
      * destruct e; try done. by eapply IH.
    + destruct e; try done. by eapply IH.
Qed.

Lemma compute_sound fuel : ∀ c v l v',
  compute_inherited_properties fuel g c v = Some (Ok l, v') →
  Forall (inherited_from g c) l.
Proof.
  induction fuel as [|fuel IH]; intros c v l v' Hl; [done|].
  rewrite compute_S in Hl. case_bool_decide.
  { injection Hl as <- <-. constructor. }
  destruct (get_class g c) as [cls|e] eqn:Ec.
  - eapply (inherit_loop_sound _ c); [exact IH| |constructor|exact Hl].
    intros p Hp. apply get_class_Ok in Ec as (_ & _ & _ & Hparents).
    rewrite Hparents in Hp. by apply elem_of_edge_targets in Hp.
  - destruct e; try done. injection Hl as <- <-. constructor.
Qed.

(** A parent that is a node but no class stops the walk with its error. *)
Lemma inherit_loop_non_class rec p ps : ∀ inh v r v',
  (∀ q w e w', rec q w = Some (Raise e, w') → ∃ m, e = ValidationError m) →
  p ∈ ps → p ≠ "owl:Thing" →
  p ∈ dom (GraphDB.nodes g) → ¬ is_class g p →
  inherit_loop g rec ps inh v = Some (r, v') →
  ∃ m, r = Raise (ValidationError m).
Proof.
  induction ps as [|q ps IH]; intros inh v r v' Hrec Hin Hroot Hdom Hnc Hr;
    [by apply elem_of_nil in Hin|].
  simpl in Hr. destruct (decide (q = "owl:Thing")) as [Hq|Hq].
  { rewrite (bool_decide_eq_true_2 _ Hq) in Hr.
    apply elem_of_cons in Hin as [->|Hin]; [done|]. by eapply IH. }
  rewrite (bool_decide_eq_false_2 _ Hq) in Hr.
  destruct (get_class g q) as [clsq|e] eqn:Eq.
  - assert (p ∈ ps) as Hin'.
    { apply elem_of_cons in Hin as [->|Hin]; [|done].
      exfalso. apply Hnc, is_class_alt. eauto. }
    destruct (rec q v) as [[[gp|e] w]|] eqn:Er; [| |done].
    + by eapply IH.
    + destruct (Hrec _ _ _ _ Er) as [m ->]. injection Hr as <- <-. eauto.
  - destruct (get_class_Raise _ _ _ Eq) as [([m ->] & Hq')|([m ->] & _)].
    + apply elem_of_cons in Hin as [->|Hin]; [done|]. by eapply IH.
    + injection Hr as <- <-. eauto.
Qed.

Lemma get_class_full_Some c :
  ∃ r, get_class_full g c = Some r.
Proof.
  unfold get_class_full. destruct (get_class g c) as [cls|e]; [|eauto].
  destruct (compute_total g (depth_bound g) c ∅) as (r & v' & -> & _).
  { apply depth_bound_enough. }
  destruct r; eauto.
Qed.

End full.

(** X16: [get_class_full] returns on every store, cyclic ones included,
    since the walk up is guarded by the visited set.  It hands on what
    [get_class] raises for the id; for a class it raises nothing but
    [ValidationError], and nothing at all when every subclass edge to a node
    leads to a class; what it returns then has the direct properties of the
    class, and as [all_properties] these followed by the inherited ones,
    none flagged as required. *)
Theorem get_class_full_outcome (g : GraphDB.t) (c : string) :
  ∃ r, get_class_full g c = Some r
    ∧ (∀ e, get_class g c = Raise e → r = Raise e)
    ∧ (is_class g c →
       (∀ e, r = Raise e → ∃ m, e = ValidationError m)
       ∧ (hierarchy_typed g → is_ok r = true)
       ∧ ∀ cf, r = Ok cf →
           cf_id cf = c
           ∧ cf_direct_properties cf = get_class_properties g c
           ∧ cf_all_properties cf
             = cf_direct_properties cf ++ cf_inherited_properties cf
           ∧ Forall (λ e, pe_required e = false) (cf_all_properties cf)).
Proof.
  destruct (get_class_full_Some g c) as [r Hr]. exists r. split; [done|].
  unfold get_class_full in Hr. split.
  - intros e He. rewrite He in Hr. by injection Hr.
  - intros [cls Hcls]%is_class_alt. rewrite Hcls in Hr.
    destruct (compute_inherited_properties _ g c ∅) as [[[l|e] v]|] eqn:Ec;
      [| |done]; injection Hr as <-.
    + split; [done|]. split; [done|]. intros cf [= <-]. simpl.
      split; [by eapply get_class_id|]. split; [done|]. split; [done|].
      apply Forall_app. split; [apply get_class_properties_required|].
      by eapply compute_required.
    + split; [|split; [|done]].
      * intros e' [= <-]. by eapply compute_raise.
      * intros Hty. eapply (compute_ok g) in Ec; [done|done|].
        intros _. apply is_class_alt. eauto.
Qed.

(** X17: [create_class] takes any node as a parent, and a class with a
    subclass edge to a node that is no class (and not [owl:Thing]) cannot
    be read in full: [get_class_full] raises [ValidationError], and so does
    [validate_instance_properties], whatever the properties. *)
Theorem class_under_non_class (g : GraphDB.t) (c p : string) :
  is_class g c →
  subclass_edge g c p →
  p ≠ "owl:Thing" →
  p ∈ dom (GraphDB.nodes g) →
  ¬ is_class g p →
  ∃ m, get_class_full g c = Some (Raise (ValidationError m))
       ∧ ∀ properties,
           validate_instance_properties g c properties
           = Some (Raise (ValidationError m)).
Proof.
  intros [cls Hcls]%is_class_alt Hedge Hroot Hdom Hnc.
  assert (∃ m, get_class_full g c = Some (Raise (ValidationError m))) as [m Hm].
  { unfold get_class_full. rewrite Hcls.
    destruct (compute_total g (depth_bound g) c ∅) as (r & v' & Hr & _).
    { apply depth_bound_enough. }
    rewrite Hr. unfold depth_bound in Hr. rewrite compute_S in Hr.
    rewrite bool_decide_eq_false_2 in Hr by set_solver. rewrite Hcls in Hr.
    assert (p ∈ cls_parent_classes cls) as Hin.
    { apply get_class_Ok in Hcls as (_ & _ & _ & ->).
      by apply elem_of_edge_targets. }
    destruct (inherit_loop_non_class g _ p _ _ _ _ _ (compute_raise g _)
                Hin Hroot Hdom Hnc Hr) as [m ->].
    eauto. }
  exists m. split; [done|]. intros properties.
  unfold validate_instance_properties. by rewrite Hm.
Qed.

Lemma class_under_non_class_witness :
  ∃ m, get_class_full
         (run init [CreateInstance (Cases.instance "rex" [] ∅);
                    CreateClass (Samples.class "Pet" ["rex"])]) "Pet"
       = Some (Raise (ValidationError m))
       ∧ ∀ properties,
           validate_instance_properties
             (run init [CreateInstance (Cases.instance "rex" [] ∅);
                        CreateClass (Samples.class "Pet" ["rex"])]) "Pet" properties
           = Some (Raise (ValidationError m)).
Proof.
  apply (class_under_non_class
           (run init [CreateInstance (Cases.instance "rex" [] ∅);
                      CreateClass (Samples.class "Pet" ["rex"])]) "Pet" "rex").
  - vm_compute. reflexivity.
  - eexists. split; vm_compute; reflexivity.
  - discriminate.
  - apply node_exists_true. vm_compute. reflexivity.
  - intros H. vm_compute in H. discriminate.
Defined.

(** X18: what [get_class_full] lists as inherited is inherited: every
    entry is the entry of a property of the store, declared on a class that
    is reached from the class by walking up through classes other than
    [owl:Thing]; its path holds the labels along that walk, nearest first,
    its source is the label of the class the walk ends in, and the direct
    entries are exactly those of the properties whose domain holds the
    class. *)
Theorem inherited_entries_sound (g : GraphDB.t) (c : string) (cf : class_full) :
  get_class_full g c = Some (Ok cf) →
  (∀ e, e ∈ cf_inherited_properties cf → inherited_from g c e)
  ∧ (∀ e, e ∈ cf_direct_properties cf ↔
          ∃ P, get_property g (prop_id P) = Ok P ∧ c ∈ prop_domain P
               ∧ e = direct_entry P).
Proof.
  unfold get_class_full. destruct (get_class g c) as [cls|]; [|done].
  destruct (compute_inherited_properties _ g c ∅) as [[[l|e] v]|] eqn:Ec;
    [|done..].
  intros [= <-]. simpl. split.
  - apply Forall_forall. by eapply compute_sound.
  - intros e. split; [apply get_class_properties_inv|].
    intros (P & HP & Hdom & ->). by eapply get_class_properties_elem.
Qed.

Lemma inherited_entries_sound_witness :
  ∃ cf, get_class_full Samples.line "D" = Some (Ok cf)
        ∧ (∀ e, e ∈ cf_inherited_properties cf → inherited_from Samples.line "D" e)
        ∧ (∀ e, e ∈ cf_direct_properties cf ↔
                ∃ P, get_property Samples.line (prop_id P) = Ok P
                     ∧ "D" ∈ prop_domain P ∧ e = direct_entry P).
Proof.
  eexists. split; [vm_compute; reflexivity|].
  apply (inherited_entries_sound Samples.line "D"). vm_compute. reflexivity.
Defined.

(** ** One step up and one step down *)

Lemma direct_supers_NoDup g c : NoDup (cls_id <$> direct_supers g c).
Proof.
  unfold direct_supers. apply NoDup_omap_key.
  - intros x cls Hc. unfold class_of_target in Hc.
    destruct (get_class g x) as [c'|] eqn:E; [|done].
    injection Hc as <-. by eapply get_class_id.
  - apply NoDup_edge_targets.
Qed.

Lemma direct_supers_ids g c a :
  a ∈ cls_id <$> direct_supers g c ↔ direct_super g c a.
Proof.
  rewrite list_elem_of_fmap. split.
  - intros (cls & -> & Hin). by apply direct_supers_super.
  - intros (cls & Hin & <-)%direct_super_supers. eauto.
Qed.

(** X19: with [direct_only=True] neither traversal recurses:
    [get_superclasses] and [get_subclasses] return on every store, cyclic
    ones included, and list, each once and as [get_class] returns it, the
    classes at the other end of a subclass edge leaving, respectively
    reaching, the given id. *)
Theorem direct_only_spec (g : GraphDB.t) (c : string) (fuel : nat) :
  (∃ l, get_superclasses (S fuel) g c true = Some l
        ∧ NoDup (cls_id <$> l)
        ∧ (∀ a, a ∈ cls_id <$> l ↔ subclass_edge g c a ∧ is_class g a)
        ∧ Forall (λ cls, get_class g (cls_id cls) = Ok cls) l)
  ∧ (∃ l, get_subclasses (S fuel) g c true = Some l
          ∧ NoDup (cls_id <$> l)
          ∧ (∀ b, b ∈ cls_id <$> l ↔ subclass_edge g b c ∧ is_class g b)
          ∧ Forall (λ cls, get_class g (cls_id cls) = Ok cls) l).
Proof.
  split.
  - exists (direct_supers g c). split; [apply get_superclasses_direct|].
    split; [apply direct_supers_NoDup|]. split; [apply direct_supers_ids|].
    apply Forall_forall. intros cls Hcls.
    by apply elem_of_direct_supers in Hcls as [_ ?].
  - exists (direct_subs g c). split; [apply get_subclasses_direct|].
    split; [apply direct_subs_NoDup|]. split; [apply direct_subs_ids|].
    apply Forall_forall. intros cls Hcls.
    by apply elem_of_direct_subs in Hcls as [_ ?].
Qed.

(** ** Starting the service again *)

(** X20: a service constructed over the store of a running service finds
    the root in place and writes nothing, whatever was created since; and
    [_initialize_ontology] never touches a node [owl:Thing] that is there,
    class or not. *)
Theorem service_restart (rs : list request) (g : GraphDB.t) :
  _initialize_ontology (run init rs) = run init rs
  ∧ (GraphDB.node_exists g "owl:Thing" = true → _initialize_ontology g = g)
  ∧ (GraphDB.node_exists g "owl:Thing" = false →
     is_class (_initialize_ontology g) "owl:Thing"
     ∧ GraphDB.edges (_initialize_ontology g) = GraphDB.edges g
     ∧ ∀ x, x ≠ "owl:Thing" →
            GraphDB.nodes (_initialize_ontology g) !! x = GraphDB.nodes g !! x).
Proof.
  split; [|split].
  - destruct (service_store_run rs init service_store_init) as (Hroot & _).
    apply node_exists_true in Hroot. unfold _initialize_ontology.
    by rewrite Hroot.
  - intros H. unfold _initialize_ontology. by rewrite H.
  - intros H. unfold _initialize_ontology. rewrite H. split; [|split].
    + apply is_class_by_data. eexists. split; [apply lookup_insert_eq|].
      reflexivity.
    + reflexivity.
    + intros x Hx. simpl. by rewrite lookup_insert_ne.
Qed.

(** ** Status codes of the adapter *)

Section adapter.
Context (g : GraphDB.t).

Lemma find_missing_Some (ps : list string) p :
  List.find (λ q, negb (GraphDB.node_exists g q)) ps = Some p →
  p ∈ ps ∧ GraphDB.node_exists g p = false.
Proof.
  intros [Hin Hp]%find_some. split; [by apply list_elem_of_In|].
  by apply negb_true_iff.
Qed.

Lemma all_exist_not_missing (ps : list string) :
  (∀ p, p ∈ ps → GraphDB.node_exists g p = true) →
  ¬ ∃ p, p ∈ ps ∧ GraphDB.node_exists g p = false.
Proof. intros Hall (p & Hp & Hf). rewrite (Hall p Hp) in Hf. done. Qed.

(** The three outcomes of [create_class]. *)
Lemma create_class_cases X :
  match create_class g X with
  | Ok (g', X') =>
      GraphDB.node_exists g (cls_id X) = false
      ∧ ∀ p, p ∈ cls_parent_classes X → GraphDB.node_exists g p = true
  | Raise (ValidationError _) => GraphDB.node_exists g (cls_id X) = true
  | Raise (NodeNotFoundError _) =>
      GraphDB.node_exists g (cls_id X) = false
      ∧ ∃ p, p ∈ cls_parent_classes X ∧ GraphDB.node_exists g p = false
  | Raise (ValueError _) => False
  end.
Proof.
  destruct (create_class g X) as [[g' X']|e] eqn:E.
  - apply create_class_inv in E as (Hf & Hps & _).
    split; [by apply node_exists_false|].
    intros p Hp. by apply node_exists_true, Hps.
  - unfold create_class in E.
    destruct (GraphDB.node_exists g (cls_id X)) eqn:Ef; [by injection E as <-|].
    destruct (List.find _ (cls_parent_classes X)) as [p|] eqn:Ep; [|done].
    injection E as <-. split; [done|]. exists p. by apply find_missing_Some.
Qed.

(** The three outcomes of [create_instance]. *)
Lemma create_instance_cases i :
  match create_instance g i with
  | Ok (g', i') =>
      GraphDB.node_exists g (inst_id i) = false
      ∧ ∀ c, c ∈ inst_class_ids i → GraphDB.node_exists g c = true
  | Raise (ValidationError _) => GraphDB.node_exists g (inst_id i) = true
  | Raise (NodeNotFoundError _) =>
      GraphDB.node_exists g (inst_id i) = false
      ∧ ∃ c, c ∈ inst_class_ids i ∧ GraphDB.node_exists g c = false
  | Raise (ValueError _) => False
  end.
Proof.
  destruct (create_instance g i) as [[g' i']|e] eqn:E.
  - apply create_instance_inv in E as (Hf & Hcs & _).
    split; [by apply node_exists_false|].
    intros c Hc. by apply node_exists_true, Hcs.
  - unfold create_instance in E.
    destruct (GraphDB.node_exists g (inst_id i)) eqn:Ef; [by injection E as <-|].
    destruct (List.find _ (inst_class_ids i)) as [c|] eqn:Ec; [|done].
    injection E as <-. split; [done|]. exists c. by apply find_missing_Some.
Qed.

(** The validation of the instance handler collects nothing. *)
Lemma validation_loop_nil properties class_ids :
  Api.validation_loop g properties class_ids = [].
Proof.
  induction class_ids as [|c cs IH]; [done|]. simpl.
  destruct (validate_instance_properties_empty g c properties) as (r & -> & Hr).
  destruct r as [errors|e]; [|done]. by rewrite (Hr errors eq_refl).
Qed.

End adapter.

(** X21: the instance handler never answers 422: the validation it runs
    before creating collects no error, whatever the classes and the
    properties are.  It answers 200 exactly when the id is new and every
    listed class is a node, and the store is then the one [create_instance]
    leaves; 400 exactly when the id is in use; 500 exactly when the id is
    new and a listed class is missing; the store is unchanged unless the
    answer is 200. *)
Theorem create_instance_endpoint (g : GraphDB.t) (i : OntologyInstance) :
  ∃ g' r,
    Api.create_instance g i = (g', r)
    ∧ status r ≠ 422
    ∧ (status r = 200 ↔
         GraphDB.node_exists g (inst_id i) = false
         ∧ ∀ c, c ∈ inst_class_ids i → GraphDB.node_exists g c = true)
    ∧ (status r = 400 ↔ GraphDB.node_exists g (inst_id i) = true)
    ∧ (status r = 500 ↔
         GraphDB.node_exists g (inst_id i) = false
         ∧ ∃ c, c ∈ inst_class_ids i ∧ GraphDB.node_exists g c = false)
    ∧ (status r = 200 → create_instance g i = Ok (g', i))
    ∧ (status r ≠ 200 → g' = g).
Proof.
  unfold Api.create_instance. rewrite validation_loop_nil.
  pose proof (create_instance_cases g i) as Hcases.
  destruct (create_instance g i) as [[g' i']|[m|m|m]] eqn:E;
    eexists _, _; (split; [reflexivity|]); simpl.
  - apply create_instance_inv in E as (_ & _ & -> & _).
    destruct Hcases as [Hf Hcs]. rewrite Hf.
    repeat split; try done. intros [_ Hno]. by destruct (all_exist_not_missing g _ Hcs).
  - destruct Hcases as [Hf Hmiss]. rewrite Hf.
    repeat split; try done.
    intros [_ Hall]. by destruct (all_exist_not_missing g _ Hall).
  - rewrite Hcases. repeat split; try done; by intros [? _].
  - done.
Qed.

(** X22: status codes of the class handlers.  Reading a class answers 200
    exactly for a class, 404 exactly when the id is no node, and 500 for a
    node of another kind.  Creating a class answers 200 exactly when the id
    is new and every parent is a node, 400 exactly when the id is in use,
    and 500, not 404, exactly when the id is new and a parent is missing;
    the store is unchanged unless the answer is 200. *)
Theorem class_endpoints (g : GraphDB.t) :
  (∀ c,
     (status (Api.get_class g c) = 200 ↔ is_class g c)
     ∧ (status (Api.get_class g c) = 404 ↔ GraphDB.node_exists g c = false)
     ∧ (status (Api.get_class g c) = 500 ↔
          GraphDB.node_exists g c = true ∧ ¬ is_class g c))
  ∧ (∀ X, ∃ g' r,
       Api.create_class g X = (g', r)
       ∧ (status r = 200 ↔
            GraphDB.node_exists g (cls_id X) = false
            ∧ ∀ p, p ∈ cls_parent_classes X → GraphDB.node_exists g p = true)
       ∧ (status r = 400 ↔ GraphDB.node_exists g (cls_id X) = true)
       ∧ (status r = 500 ↔
            GraphDB.node_exists g (cls_id X) = false
            ∧ ∃ p, p ∈ cls_parent_classes X ∧ GraphDB.node_exists g p = false)
       ∧ (status r = 200 → ∃ X', create_class g X = Ok (g', X'))
       ∧ (status r ≠ 200 → g' = g)).
Proof.
  split.
  - intros c. unfold Api.get_class, is_class.
    destruct (get_class g c) as [cls|e] eqn:E; simpl.
    + apply get_class_Ok in E as (_ & Hdom%node_exists_true & _).
      rewrite Hdom. repeat split; try done. by intros [_ ?].
    + destruct (get_class_Raise g c e E) as [([m ->] & Hdom)|([m ->] & Hdom)]; simpl.
      * assert (GraphDB.node_exists g c = false) as ->.
        { apply node_exists_false. by apply not_elem_of_dom. }
        repeat split; try done. by intros [? _].
      * apply node_exists_true in Hdom. rewrite Hdom.
        repeat split; try done.
  - intros X. unfold Api.create_class.
    pose proof (create_class_cases g X) as Hcases.
    destruct (create_class g X) as [[g' X']|[m|m|m]] eqn:E;
      eexists _, _; (split; [reflexivity|]); simpl.
    + destruct Hcases as [Hf Hps]. rewrite Hf.
      repeat split; try done; [|by eauto].
      intros [_ Hno]. by destruct (all_exist_not_missing g _ Hps).
    + destruct Hcases as [Hf Hmiss]. rewrite Hf.
      repeat split; try done.
      intros [_ Hall]. by destruct (all_exist_not_missing g _ Hall).
    + rewrite Hcases. repeat split; try done; by intros [? _].
    + done.
Qed.

(** ** The listings *)

(** X23: [get_all_classes] lists, each once, exactly the classes that
    [get_class] returns, and [get_all_properties] exactly the properties
    that [get_property] returns; a node on which the getter raises is
    passed over. *)
Theorem listings_spec (g : GraphDB.t) :
  (NoDup (cls_id <$> get_all_classes g)
   ∧ ∀ c, c ∈ get_all_classes g ↔ get_class g (cls_id c) = Ok c)
  ∧ (NoDup (prop_id <$> get_all_properties g)
     ∧ ∀ p, p ∈ get_all_properties g ↔ get_property g (prop_id p) = Ok p).
Proof.
  split; split.
  - unfold get_all_classes. apply NoDup_omap_key; [|apply NoDup_get_all_nodes].
    intros x c Hc. destruct (_ && _); [|done].
    destruct (get_class g x) as [c'|] eqn:E; [|done].
    injection Hc as <-. by eapply get_class_id.
  - intros c. split; [apply get_all_classes_elem|].
    intros Hc. destruct (class_known g (cls_id c)) as (c' & Hin & Hid).
    { apply is_class_alt. eauto. }
    apply get_all_classes_elem in Hin as Hc'. rewrite Hid, Hc in Hc'.
    by injection Hc' as ->.
  - unfold get_all_properties. apply NoDup_omap_key; [|apply NoDup_get_all_nodes].
    intros x p Hp. destruct (_ && _); [|done].
    destruct (get_property g x) as [p'|] eqn:E; [|done].
    injection Hp as <-. by eapply get_property_id.
  - intros p. split; [apply get_all_properties_elem|apply property_known].
Qed.

(** ** What creating leaves alone *)

Section frame.
Context (g : GraphDB.t) (r : request).
Context (Hs : service_store g) (Ha : accepted g r = true).

Lemma accepted_request_old x :
  x ∈ dom (GraphDB.nodes g) →
  x ≠ request_id r
  ∧ GraphDB.nodes (apply_request g r) !! x = GraphDB.nodes g !! x.
Proof.
  intros Hx. destruct (accepted_request g r Ha) as (Hf & Hn & _).
  assert (x ≠ request_id r) as Hne.
  { intros ->. by apply not_elem_of_dom in Hf. }
  split; [done|]. by rewrite Hn, lookup_insert_ne.
Qed.

Lemma is_class_kept x :
  x ∈ dom (GraphDB.nodes g) → is_class (apply_request g r) x ↔ is_class g x.
Proof.
  intros Hx. destruct (accepted_request_old x Hx) as [_ Hn].
  by rewrite !is_class_by_data, Hn.
Qed.

Lemma direct_super_kept x y :
  x ∈ dom (GraphDB.nodes g) →
  direct_super (apply_request g r) x y ↔ direct_super g x y.
Proof.
  intros Hx. destruct (accepted_request_old x Hx) as [Hne _].
  destruct Hs as (_ & Hclosed & _).
  unfold direct_super, subclass_edge.
  split; intros [(ed & He & Hl) Hc].
  - rewrite accepted_request_keeps in He by done.
    destruct (Hclosed x y) as [_ Hy]; [eauto|].
    split; [eauto|]. by apply is_class_kept.
  - destruct (Hclosed x y) as [_ Hy]; [eauto|].
    split; [|by apply is_class_kept].
    exists ed. by rewrite accepted_request_keeps.
Qed.

Lemma direct_super_old x y :
  x ∈ dom (GraphDB.nodes g) → direct_super g x y → y ∈ dom (GraphDB.nodes g).
Proof. intros _ [_ Hc]. by apply is_class_node. Qed.

End frame.

Lemma ancestor_node g x a : ancestor g x a → a ∈ dom (GraphDB.nodes g).
Proof.
  induction 1 as [x y [_ Hc]|x y z _ _ IH]; [by apply is_class_node|done].
Qed.

(** X24: creating never changes the hierarchy above what is there: after
    an accepted create call on a store of the service, every node that was
    there has the ancestors it had, no more and no fewer, and is a class
    exactly if it was one.  A new class can only come below existing
    ones. *)
Theorem create_keeps_ancestors (g : GraphDB.t) (r : request) (x : string) :
  service_store g →
  accepted g r = true →
  x ∈ dom (GraphDB.nodes g) →
  (is_class (apply_request g r) x ↔ is_class g x)
  ∧ (∀ a, ancestor (apply_request g r) x a ↔ ancestor g x a)
  ∧ ¬ ancestor (apply_request g r) x (request_id r).
Proof.
  intros Hs Ha Hx. split; [by apply is_class_kept|].
  assert (∀ a, ancestor (apply_request g r) x a ↔ ancestor g x a) as Hiff.
  { intros a. split.
    - intros H. induction H as [x y Hstep|x y z Hstep _ IH].
      + apply tc_once. by apply (direct_super_kept g r Hs Ha).
      + apply (direct_super_kept g r Hs Ha) in Hstep; [|done].
        eapply tc_l; [done|]. apply IH. by eapply direct_super_old.
    - intros H. induction H as [x y Hstep|x y z Hstep _ IH].
      + apply tc_once. by apply (direct_super_kept g r Hs Ha).
      + eapply tc_l; [by apply (direct_super_kept g r Hs Ha)|].
        apply IH. by eapply direct_super_old. }
  split; [done|]. intros H. apply Hiff in H.
  apply ancestor_node in H. destruct (accepted_request g r Ha) as (Hf & _).
  by apply not_elem_of_dom in Hf.
Qed.

Lemma create_keeps_ancestors_witness :
  (is_class (apply_request Samples.animals (CreateClass (Samples.class "Cat" ["Animal"])))
     "Dog"
   ↔ is_class Samples.animals "Dog")
  ∧ (∀ a, ancestor (apply_request Samples.animals
                      (CreateClass (Samples.class "Cat" ["Animal"]))) "Dog" a
          ↔ ancestor Samples.animals "Dog" a)
  ∧ ¬ ancestor (apply_request Samples.animals
                  (CreateClass (Samples.class "Cat" ["Animal"]))) "Dog"
        (request_id (CreateClass (Samples.class "Cat" ["Animal"]))).
Proof.
  apply (create_keeps_ancestors Samples.animals
           (CreateClass (Samples.class "Cat" ["Animal"])) "Dog").
  - apply service_store_run, service_store_init.
  - vm_compute. reflexivity.
  - apply node_exists_true. vm_compute. reflexivity.
Defined.

(** ** Instances listed more than once *)

Section multiplicity.
Context (g : GraphDB.t).

(** What one edge adds to the list of [get_instances_of_class]. *)
Lemma instances_loop_omap (targets : gset string) es :
  instances_loop g targets es
  = omap (λ e : string * string * Q,
            if bool_decide (e.1.2 ∈ targets) then
              match GraphDB.get_edge g e.1.1 e.1.2 with
              | Some edge_data =>
                  if bool_decide (GraphDB.edge_label edge_data = TYPE_RELATION) then
                    match get_instance g e.1.1 with
                    | Ok i => Some i
                    | Raise _ => None
                    end
                  else None
              | None => None
              end
            else None) es.
Proof.
  induction es as [|[[f t] w] es IH]; [done|].
  cbn. rewrite IH.
  destruct (bool_decide (t ∈ targets)); [|done].
  destruct (GraphDB.get_edge g f t); [|done].
  destruct (bool_decide _); [|done].
  by destruct (get_instance g f).
Qed.

Lemma omap_step {A B} (f : A → option B) x l :
  omap f (x :: l) = match f x with Some y => y :: omap f l | None => omap f l end.
Proof. reflexivity. Qed.

Lemma omap_two {A B} (f : A → option B) es e1 e2 b :
  e1 ≠ e2 → e1 ∈ es → e2 ∈ es → f e1 = Some b → f e2 = Some b →
  ∃ l1 l2 l3, omap f es = l1 ++ b :: l2 ++ b :: l3.
Proof.
  intros Hne H1 H2 Hf1 Hf2. induction es as [|e es IH];
    [by apply elem_of_nil in H1|].
  assert (∀ e', e' ∈ es → f e' = Some b → ∃ l2 l3, omap f es = l2 ++ b :: l3)
    as Hsplit.
  { intros e' He' Hfe'. apply list_elem_of_split.
    apply list_elem_of_omap. eauto. }
  apply elem_of_cons in H1 as [->|H1]; apply elem_of_cons in H2 as [->|H2].
  - done.
  - destruct (Hsplit e2 H2 Hf2) as (l2 & l3 & Hl).
    exists [], l2, l3. by rewrite omap_step, Hf1, Hl.
  - destruct (Hsplit e1 H1 Hf1) as (l2 & l3 & Hl).
    exists [], l2, l3. by rewrite omap_step, Hf2, Hl.
  - destruct (IH H1 H2) as (l1 & l2 & l3 & Hl). rewrite omap_step, Hl.
    destruct (f e) as [b'|].
    + by exists (b' :: l1), l2, l3.
    + by exists l1, l2, l3.
Qed.

End multiplicity.

(** X25: [get_instances_of_class(c, direct_only=False)] collects the
    classes into a set but not the instances: an instance with
    [rdf:type] edges to two of the classes searched, [c] and the classes
    below it, is listed twice. *)
Theorem instance_listed_twice (g : GraphDB.t) (c x c1 c2 : string)
    (i : OntologyInstance) (fuel : nat) :
  acyclic g →
  (depth_bound g ≤ fuel)%nat →
  get_instance g x = Ok i →
  c1 ≠ c2 →
  type_edge g x c1 → c1 = c ∨ descendant g c c1 →
  type_edge g x c2 → c2 = c ∨ descendant g c c2 →
  ∃ l l1 l2 l3,
    get_instances_of_class fuel g c false = Some l
    ∧ l = l1 ++ i :: l2 ++ i :: l3.
Proof.
  intros Hac Hfuel Hi Hne (ed1 & He1 & Hl1) Hc1 (ed2 & He2 & Hl2) Hc2.
  unfold get_instances_of_class.
  destruct (get_subclasses_descendants g Hac fuel c Hfuel) as (subs & -> & Hd).
  set (targets := ({[c]} ∪ list_to_set (cls_id <$> subs) : gset string)).
  assert (∀ c', c' = c ∨ descendant g c c' → c' ∈ targets) as Hin.
  { intros c' [->|Hc']; [apply elem_of_union_l; by apply elem_of_singleton|].
    apply elem_of_union_r, elem_of_list_to_set. by apply Hd. }
  rewrite instances_loop_omap.
  edestruct (omap_two
    (λ e : string * string * Q,
       if bool_decide (e.1.2 ∈ targets) then
         match GraphDB.get_edge g e.1.1 e.1.2 with
         | Some edge_data =>
             if bool_decide (GraphDB.edge_label edge_data = TYPE_RELATION) then
               match get_instance g e.1.1 with
               | Ok i => Some i
               | Raise _ => None
               end
             else None
         | None => None
         end
       else None)
    (GraphDB.get_all_edges g)
    (x, c1, GraphDB.edge_weight ed1) (x, c2, GraphDB.edge_weight ed2) i)
    as (l1 & l2 & l3 & Hl).
  - intros [= ? _]. done.
  - apply elem_of_get_all_edges. eauto.
  - apply elem_of_get_all_edges. eauto.
  - simpl. rewrite bool_decide_eq_true_2 by (by apply Hin).
    unfold GraphDB.get_edge. rewrite He1.
    by rewrite (bool_decide_eq_true_2 _ Hl1), Hi.
  - simpl. rewrite bool_decide_eq_true_2 by (by apply Hin).
    unfold GraphDB.get_edge. rewrite He2.
    by rewrite (bool_decide_eq_true_2 _ Hl2), Hi.
  - eexists _, l1, l2, l3. split; [reflexivity|exact Hl].
Qed.

Lemma instance_listed_twice_witness :
  ∃ l l1 l2 l3,
    get_instances_of_class (depth_bound Cases.typed_twice) Cases.typed_twice
      "Animal" false = Some l
    ∧ l = l1 ++ {| inst_id := "rex"; inst_label := PyStr "rex";
                   inst_class_ids := edge_targets Cases.typed_twice "rex" TYPE_RELATION;
                   inst_properties :=
                     instance_node_data (Cases.instance "rex" ["Dog"; "Animal"] ∅) |}
             :: l2 ++
             {| inst_id := "rex"; inst_label := PyStr "rex";
                inst_class_ids := edge_targets Cases.typed_twice "rex" TYPE_RELATION;
                inst_properties :=
                  instance_node_data (Cases.instance "rex" ["Dog"; "Animal"] ∅) |}
             :: l3.
Proof.
  apply (instance_listed_twice Cases.typed_twice "Animal" "rex" "Animal" "Dog").
  - apply service_store_acyclic, service_store_run, service_store_init.
  - lia.
  - vm_compute. reflexivity.
  - discriminate.
  - eexists. split; vm_compute; reflexivity.
  - by left.
  - eexists. split; vm_compute; reflexivity.
  - right. apply tc_once. split.
    + eexists. split; vm_compute; reflexivity.
    + vm_compute. reflexivity.
Defined.

(** ** All superclasses *)

Lemma collect_total rec l r :
  collect rec l = Some r → ∀ c, c ∈ l → is_Some (rec (cls_id c)).
Proof.
  revert r. induction l as [|c' l IH]; intros r Hr c Hc;
    [by apply elem_of_nil in Hc|].
  simpl in Hr. destruct (rec (cls_id c')) as [ind|] eqn:E; [|done].
  destruct (collect rec l) as [r'|] eqn:Er; [|done].
  apply elem_of_cons in Hc as [->|Hc]; [by rewrite E|by eapply IH].
Qed.

Lemma collect_Forall (P : OntologyClass → Prop) rec l : ∀ r,
  collect rec l = Some r →
  Forall P l →
  (∀ c ind, c ∈ l → rec (cls_id c) = Some ind → Forall P ind) →
  Forall P r.
Proof.
  induction l as [|c l IH]; intros r Hr Hl Hrec.
  - injection Hr as <-. constructor.
  - simpl in Hr. destruct (rec (cls_id c)) as [ind|] eqn:E; [|done].
    destruct (collect rec l) as [r'|] eqn:Er; [|done]. injection Hr as <-.
    apply Forall_cons in Hl as [Hc Hl].
    constructor; [done|]. apply Forall_app. split.
    + apply (Hrec c); [by left|done].
    + apply IH; [done..|]. intros c' ind' Hc'. apply Hrec. by right.
Qed.

Lemma get_superclasses_classes g fuel : ∀ c l,
  get_superclasses fuel g c false = Some l →
  Forall (λ cls, get_class g (cls_id cls) = Ok cls) l.
Proof.
  induction fuel as [|fuel IH]; intros c l Hl; [done|].
  rewrite get_superclasses_step in Hl.
  eapply collect_Forall; [exact Hl| |].
  - apply Forall_forall. intros cls Hcls.
    by apply elem_of_direct_supers in Hcls as [_ ?].
  - intros sc ind _ Hind. simpl in Hind. by apply (IH (cls_id sc)).
Qed.

(** X26: on a store whose subclass relation is acyclic,
    [get_superclasses(c, direct_only=False)] lists nothing but ancestors:
    its ids are exactly the ancestors of [c], every entry is what
    [get_class] returns for its id, and the direct superclasses are among
    them. *)
Theorem get_superclasses_exact (g : GraphDB.t) (c : string) (fuel : nat) :
  acyclic g →
  (depth_bound g ≤ fuel)%nat →
  ∃ l direct,
    get_superclasses fuel g c false = Some l
    ∧ get_superclasses fuel g c true = Some direct
    ∧ (∀ a, a ∈ cls_id <$> l ↔ ancestor g c a)
    ∧ Forall (λ cls, get_class g (cls_id cls) = Ok cls) l
    ∧ direct ⊆ l.
Proof.
  intros Hac Hfuel.
  destruct (get_superclasses_ancestors g Hac fuel c) as (l & Hl & Hanc).
  { pose proof (depth_lt_bound g Hac c). lia. }
  destruct fuel as [|fuel]; [unfold depth_bound in Hfuel; lia|].
  exists l, (direct_supers g c). split; [done|].
  split; [apply get_superclasses_direct|]. split; [done|].
  rewrite get_superclasses_step in Hl.
  destruct (collect_Some (λ t, get_superclasses fuel g t false) (direct_supers g c))
    as (r & Hr & Hmem).
  { intros sc Hsc. destruct (collect_total _ _ _ Hl sc Hsc) as [ind ->]. done. }
  rewrite Hl in Hr. injection Hr as <-. split.
  - eapply get_superclasses_classes. by rewrite get_superclasses_step.
  - intros cls Hcls. apply Hmem. exists cls. split; [done|by left].
Qed.

Lemma get_superclasses_exact_witness :
  ∃ l direct,
    get_superclasses (depth_bound Samples.diamond) Samples.diamond "D" false = Some l
    ∧ get_superclasses (depth_bound Samples.diamond) Samples.diamond "D" true
      = Some direct
    ∧ (∀ a, a ∈ cls_id <$> l ↔ ancestor Samples.diamond "D" a)
    ∧ Forall (λ cls, get_class Samples.diamond (cls_id cls) = Ok cls) l
    ∧ direct ⊆ l.
Proof.
  apply (get_superclasses_exact Samples.diamond "D" (depth_bound Samples.diamond)).
  - apply (ranked_acyclic _ Samples.diamond_rank). vm_compute. reflexivity.
  - lia.
Defined.
